(** * downloader.py: fetching a GitHub repository with progress reports

    A shallow embedding of [downloader.py] and the properties its
    specification states about it.

    Conventions of the model.
    - A Python [str] is the [string] of the bytes of its UTF-8 form.  The
      source searches, cuts and compares strings at ASCII characters only
      (slash, dot, letters), and no byte of a longer character is one of
      these, so the two readings agree.  [str.lower] depends on the tables
      of Unicode: it is an oracle of the platform ([py_lower]).
    - Progress fractions are Python floats in the source; here they are exact
      rationals ([Q]).  The constants 0.05, 0.1, 0.8, 0.85 and 1.0 are the
      rationals of the same decimal notation and [min] is the minimum of the
      order.  What the theorems state of a computed fraction is a bound or
      an order, which division, the product by 0.8 and [min] keep when they
      round; the last digits of a computed fraction are not modelled.
    - The outside world (HTTP, the interpreter's [int] and [repr], [os.path],
      [zipfile], the disk) is a record of oracles, one field per library call
      that the code makes.  The functions of the source are written once,
      over any such record.
    - [exn] stands for instances of Python's [Exception], the class caught by
      the [except Exception] clauses of the source.
    - A progress callback is any callable: a call is recorded in the world
      (its fraction and its message), and it returns or raises, as the
      callback decides from the calls it has received.  [Observer cb] says
      that the callback [cb], if there is one, returns from every call. *)

From Stdlib Require Import ZArith QArith Qminmax Lia.
From Stdlib Require Import Ascii String.
From Stdlib Require Import Sorted.
From stdpp Require Import base option list strings gmap.

Local Open Scope string_scope.
Set Warnings "-register-all".

(** ** Python strings *)

Module PyStr.

(** [s.startswith(p)] *)
Fixpoint startswith (p s : string) : bool :=
  match p, s with
  | EmptyString, _ => true
  | String a p', String b s' => if Ascii.eqb a b then startswith p' s' else false
  | String _ _, EmptyString => false
  end.

(** [p in s] for strings: [p] occurs in [s] as a contiguous substring. *)
Fixpoint contains (p s : string) : bool :=
  if startswith p s then true
  else match s with
       | EmptyString => false
       | String _ s' => contains p s'
       end.

(** [s.replace(old, new)] for a non-empty [old]: occurrences of [old] are
    found from the left and do not overlap.  [skip] counts the characters of
    the occurrence just replaced that are still to be passed over. *)
Fixpoint replace_from (old new : string) (skip : nat) (s : string) : string :=
  match s with
  | EmptyString => EmptyString
  | String c s' =>
      match skip with
      | S k => replace_from old new k s'
      | O =>
          if startswith old s
          then new ++ replace_from old new (String.length old - 1) s'
          else String c (replace_from old new 0 s')
      end
  end.

Definition replace (old new s : string) : string := replace_from old new 0 s.

(** [s.split(sep)] for a non-empty [sep]: the pieces between the occurrences
    of [sep], found from the left without overlap.  [cur] holds the
    characters of the piece being read, last one first. *)
Fixpoint split_from (sep : string) (skip : nat) (cur : string) (s : string)
  : list string :=
  match s with
  | EmptyString => [String.rev cur]
  | String c s' =>
      match skip with
      | S k => split_from sep k cur s'
      | O =>
          if startswith sep s
          then String.rev cur :: split_from sep (String.length sep - 1) EmptyString s'
          else split_from sep 0 (String c cur) s'
      end
  end.

Definition split (sep s : string) : list string := split_from sep 0 EmptyString s.

(** [l[-1]] on a list that [split] returned (never empty). *)
Definition last_piece (l : list string) : string := List.last l EmptyString.

End PyStr.

(** ** The two regular expressions of the source

    A pattern is a sequence of items; the matcher is the backtracking one of
    Python's [re]: [+] is greedy and gives characters back one at a time when
    the rest of the pattern fails. *)

Module PyRe.

Inductive item :=
| Lit (c : ascii)        (* one literal character, [\.] included *)
| PlusNot (c : ascii)    (* [[^c]+] *)
| Open                   (* [(] *)
| Close.                 (* [)] *)

(** the characters consumed are added to the group that is open, if any *)
Definition push (c : ascii) (cur : option string) : option string :=
  match cur with
  | Some g => Some (String c g)
  | None => None
  end.

(** [match_here p cur done s]: match pattern [p] at the start of [s]; [cur]
    is the open group (last character first), [done] the closed groups (last
    one first).  The result is the list of groups, first one first. *)
Fixpoint match_here (p : list item) (cur : option string) (done : list string)
    (s : string) {struct p} : option (list string) :=
  match p with
  | [] => Some (List.rev done)
  | Open :: p' => match_here p' (Some EmptyString) done s
  | Close :: p' => match_here p' None (String.rev (default EmptyString cur) :: done) s
  | Lit c :: p' =>
      match s with
      | String a s' =>
          if Ascii.eqb a c then match_here p' (push a cur) done s' else None
      | EmptyString => None
      end
  | PlusNot c :: p' =>
      (fix plus (cur : option string) (s : string) {struct s} :=
         match s with
         | String a s' =>
             if Ascii.eqb a c then None
             else
               let cur' := push a cur in
               match plus cur' s' with
               | Some groups => Some groups
               | None => match_here p' cur' done s'
               end
         | EmptyString => None
         end) cur s
  end.

(** [re.search(p, s)]: the match at the leftmost position where there is
    one; the value is [match.groups()]. *)
Fixpoint search (p : list item) (s : string) : option (list string) :=
  match match_here p None [] s with
  | Some groups => Some groups
  | None =>
      match s with
      | String _ s' => search p s'
      | EmptyString => None
      end
  end.

Fixpoint lit (s : string) : list item :=
  match s with
  | EmptyString => []
  | String c s' => Lit c :: lit s'
  end.

(** [r"github\.com/[^/]+/([^/]+)"] *)
Definition repo_pattern : list item :=
  lit "github.com/" ++ [PlusNot "/"; Lit "/"; Open; PlusNot "/"; Close].

(** [r"github\.com/([^/]+)/([^/]+)"] *)
Definition owner_repo_pattern : list item :=
  lit "github.com/" ++ [Open; PlusNot "/"; Close; Lit "/"; Open; PlusNot "/"; Close].

End PyRe.

(** ** get_repo_name *)

(** [match.group(1)] *)
Definition group1 (groups : list string) : string := List.nth 0 groups EmptyString.

Definition get_repo_name (repo_url : string) : string :=
  match PyRe.search PyRe.repo_pattern repo_url with
  | Some groups => PyStr.replace ".git" "" (group1 groups)
  | None => "downloaded_repo"
  end.

(** ** Values decoded from JSON, and the exceptions of the model *)

Definition bytes := list Byte.byte.

Inductive json :=
| JNull
| JBool (b : bool)
| JInt (z : Z)
| JFloat (q : Q)
| JStr (s : string)
| JArr (items : list json)
| JObj (fields : list (string * json)).

(** a subscript written in the source: a string key or an integer index *)
Inductive key :=
| KStr (s : string)
| KInt (z : Z).

(** Instances of [Exception].  [Raised cls text] is an exception of class
    [cls] whose [str()] is [text]: the [Exception] that the source raises
    itself, and the errors of the libraries.  The others are raised by the
    interpreter on an ill-typed or failing access. *)
Inductive exn :=
| Raised (cls text : string)
| AttributeError (v : json) (attr : string)
| KeyError (k : key)
| IndexError (v : json)
| TypeError (operation : string) (v : json).

Inductive result (A : Type) :=
| Ok (a : A)
| Raise (e : exn).
Arguments Ok {A} a.
Arguments Raise {A} e.

(** truth value of a decoded value: [if v:] and [not v] *)
Definition truthy (v : json) : bool :=
  match v with
  | JNull => false
  | JBool b => b
  | JInt z => negb (z =? 0)%Z
  | JFloat q => negb (Qeq_bool q 0)
  | JStr s => negb (String.eqb s "")
  | JArr items => match items with [] => false | _ => true end
  | JObj fields => match fields with [] => false | _ => true end
  end.

(** the value stored under [k] in a decoded object *)
Fixpoint lookup_field (k : string) (fields : list (string * json)) : option json :=
  match fields with
  | [] => None
  | (k', v) :: rest => if String.eqb k' k then Some v else lookup_field k rest
  end.

(** [v.get(k, dflt)] *)
Definition dict_get (v : json) (k : string) (dflt : json) : result json :=
  match v with
  | JObj fields => Ok (default dflt (lookup_field k fields))
  | _ => Raise (AttributeError v "get")
  end.

(** [seq[z]] on a sequence of [n] elements: the position read, if any *)
Definition index_of (z : Z) (n : nat) : option nat :=
  if (0 <=? z)%Z && (z <? Z.of_nat n)%Z then Some (Z.to_nat z)
  else if (- Z.of_nat n <=? z)%Z && (z <? 0)%Z then Some (Z.to_nat (Z.of_nat n + z))
  else None.

(** [v[k]].  A subscript of a [str] by an integer gives one position of the
    string; the source reaches it only when "assets" is a string, and its
    next subscript, by a key, then raises [TypeError]. *)
Definition getitem (v : json) (k : key) : result json :=
  match v, k with
  | JObj fields, KStr s =>
      match lookup_field s fields with
      | Some x => Ok x
      | None => Raise (KeyError k)
      end
  | JObj _, KInt _ => Raise (KeyError k)
  | JArr items, KInt z =>
      match index_of z (List.length items) with
      | Some i => match List.nth_error items i with
                  | Some x => Ok x
                  | None => Raise (IndexError v)
                  end
      | None => Raise (IndexError v)
      end
  | JStr s, KInt z =>
      match index_of z (String.length s) with
      | Some i => match String.get i s with
                  | Some c => Ok (JStr (String c EmptyString))
                  | None => Raise (IndexError v)
                  end
      | None => Raise (IndexError v)
      end
  | _, _ => Raise (TypeError "subscript" v)
  end.

(** ** The outside world *)

Record request := {
  req_url : string;
  req_timeout : option Z;      (* [timeout=] *)
  req_stream : bool            (* [stream=True] *)
}.

Record response := {
  status_code : Z;
  status_error : option exn;   (* what [raise_for_status()] raises, if it does *)
  content_length : option string;  (* [headers.get('content-length')] *)
  json_body : result json;     (* outcome of [json()] *)
  body_chunks : list bytes;    (* chunks that [iter_content] yields ... *)
  body_error : option exn      (* ... and the error that ends the stream, if any *)
}.

Record report := { fraction : Q; message : string }.

(** The library calls of the source whose outcome the program does not
    control. *)
Record platform := {
  (* [requests.get]; the first argument counts the requests made before *)
  http_get : nat -> request -> result response;
  (* [int(s)] on a header value *)
  py_int : string -> result Z;
  (* [str(v)] of a decoded value that is not a string *)
  py_repr : json -> string;
  (* [str(e)] of an exception raised by the interpreter *)
  interp_text : exn -> string;
  (* [os.path.join] *)
  path_join : string -> string -> string;
  (* [s.lower()] *)
  py_lower : string -> string
}.

(** [str(v)], as an f-string formats it *)
Definition py_str (P : platform) (v : json) : string :=
  match v with
  | JStr s => s
  | _ => py_repr P v
  end.

(** [str(e)] *)
Definition exn_str (P : platform) (e : exn) : string :=
  match e with
  | Raised _ text => text
  | _ => interp_text P e
  end.

(** What a call leaves behind: the requests sent, the reports with which
    the progress callback was called, the disk. *)
Record world (D : Type) := {
  net_log : list request;
  reports : list report;
  disk : D
}.
Arguments net_log {D} w.
Arguments reports {D} w.
Arguments disk {D} w.

(** ** Computations: state and exceptions *)

Definition M (D A : Type) : Type := world D -> result A * world D.

Definition ret {D A} (a : A) : M D A := fun w => (Ok a, w).

Definition raise {D A} (e : exn) : M D A := fun w => (Raise e, w).

Definition bind {D A B} (m : M D A) (k : A -> M D B) : M D B :=
  fun w =>
    match m w with
    | (Ok a, w') => k a w'
    | (Raise e, w') => (Raise e, w')
    end.

(** [try: m except Exception as e: handler e] *)
Definition try_except {D A} (m : M D A) (handler : exn -> M D A) : M D A :=
  fun w =>
    match m w with
    | (Ok a, w') => (Ok a, w')
    | (Raise e, w') => handler e w'
    end.

Definition lift {D A} (r : result A) : M D A := fun w => (r, w).

Notation "x <- m ;; k" := (bind m (fun x => k))
  (at level 20, m at level 99, k at level 200, only parsing).
Notation "m ;; k" := (bind m (fun _ => k))
  (at level 100, k at level 200, only parsing, right associativity).

Section Primitives.
Context {D : Type} (P : platform).

(** [requests.get(url, timeout=..., stream=...)] *)
Definition requests_get (url : string) (timeout : option Z) (stream : bool)
  : M D response :=
  fun w =>
    let rq := {| req_url := url; req_timeout := timeout; req_stream := stream |} in
    (http_get P (List.length (net_log w)) rq,
     {| net_log := (net_log w ++ [rq])%list; reports := reports w; disk := disk w |}).

(** [response.raise_for_status()] *)
Definition raise_for_status (r : response) : M D unit :=
  match status_error r with
  | Some e => raise e
  | None => ret tt
  end.

(** [int(response.headers.get('content-length', 0))] *)
Definition declared_length (r : response) : M D Z :=
  match content_length r with
  | Some s => lift (py_int P s)
  | None => ret 0%Z
  end.

End Primitives.

(** A callable that the caller supplied.  Called with a fraction and a
    message, after the reports [seen] that it received before, it returns
    ([None]) or raises an exception. *)
Record callback := {
  cb_raises : list report -> Q -> string -> option exn
}.

(** a callback that returns from every call *)
Definition Callback : callback := {| cb_raises := fun _ _ _ => None |}.

(** a callback that raises [e] at every call *)
Definition always_raises (e : exn) : callback :=
  {| cb_raises := fun _ _ _ => Some e |}.

(** [progress_callback(f, msg)]: the call is recorded, and returns or raises *)
Definition call {D} (cb : callback) (f : Q) (msg : string) : M D unit :=
  fun w =>
    (match cb_raises cb (reports w) f msg with
     | Some e => Raise e
     | None => Ok tt
     end,
     {| net_log := net_log w;
        reports := (reports w ++ [{| fraction := f; message := msg |}])%list;
        disk := disk w |}).

(** [if progress_callback: progress_callback(f, msg)] *)
Definition progress {D} (progress_callback : option callback) (f : Q) (msg : string)
  : M D unit :=
  match progress_callback with
  | Some cb => call cb f msg
  | None => ret tt
  end.

(** the callback, if one was given, returns from every call *)
Class Observer (cb : option callback) : Prop :=
  observer_returns :
    forall c seen f msg, cb = Some c -> cb_raises c seen f msg = None.

(** ** get_default_branch *)

Section Resolver.
Context {D : Type} (P : platform).

(** the [try] block (lines 17 to 27 of the source) *)
Definition get_default_branch_body (repo_url : string) : M D json :=
  match PyRe.search PyRe.owner_repo_pattern repo_url with
  | None => ret (JStr "main")
  | Some groups =>
      let owner := List.nth 0 groups EmptyString in
      let repo := List.nth 1 groups EmptyString in
      let api_url := "https://api.github.com/repos/" ++ owner ++ "/" ++ repo in
      response <- requests_get P api_url (Some 10%Z) false;;
      if (status_code response =? 200)%Z then
        data <- lift (json_body response);;
        lift (dict_get data "default_branch" (JStr "main"))
      else ret (JStr "main")
  end.

Definition get_default_branch (repo_url : string) : M D json :=
  try_except (get_default_branch_body repo_url) (fun _ => ret (JStr "main")).

End Resolver.

(** ** download_latest_release *)

Module Release.

(** The files written through [open(path, "wb")], by path. *)
Abbreviation files := (gmap string bytes).

(** [open(path, "wb")] fails or not as the disk decides. *)
Record file_io := {
  open_error : string -> files -> option exn
}.

Section Fetcher.
Context (P : platform) (F : file_io).

(** [open(local_file, "wb")]: the file is created, or emptied *)
Definition open_wb (path : string) : M files unit :=
  fun w =>
    match open_error F path (disk w) with
    | Some e => (Raise e, w)
    | None =>
        (Ok tt,
         {| net_log := net_log w; reports := reports w;
            disk := <[path := []]> (disk w) |})
    end.

(** [f.write(chunk)] on the file opened at [path] *)
Definition file_write (path : string) (chunk : bytes) : M files unit :=
  fun w =>
    (Ok tt,
     {| net_log := net_log w; reports := reports w;
        disk := <[path := (default [] (disk w !! path) ++ chunk)%list]> (disk w) |}).

(** the [for] loop of lines 58 to 63, over the chunks that arrive *)
Fixpoint write_chunks (progress_callback : option callback)
    (asset_name local_file : string) (total downloaded : Z)
    (chunks : list bytes) : M files Z :=
  match chunks with
  | [] => ret downloaded
  | chunk :: rest =>
      match chunk with
      | [] => write_chunks progress_callback asset_name local_file total downloaded rest
      | _ :: _ =>
          file_write local_file chunk;;
          let downloaded := (downloaded + Z.of_nat (List.length chunk))%Z in
          (if (0 <? total)%Z
           then progress progress_callback
                  (Qmin 1.0 (inject_Z downloaded / inject_Z total))
                  ("Downloading " ++ asset_name ++ "...")
           else ret tt);;
          write_chunks progress_callback asset_name local_file total downloaded rest
      end
  end.

(** the end of the iteration: the stream is exhausted, or it breaks *)
Definition stream_end {D} (r : response) : M D unit :=
  match body_error r with
  | Some e => raise e
  | None => ret tt
  end.

(** [os.path.join(save_path, asset_name)] *)
Definition join_asset (save_path : string) (asset_name : json) : result string :=
  match asset_name with
  | JStr s => Ok (path_join P save_path s)
  | _ => Raise (TypeError "join" asset_name)
  end.

(** lines 34 to 51: the release is looked up and its first asset chosen;
    the values are [download_url], [asset_name] and [local_file] *)
Definition locate_asset (owner repo save_path : string)
    (progress_callback : option callback) : M files (json * json * string) :=
  progress progress_callback 0.05 ("Checking latest " ++ repo ++ " release...");;
  let api_url :=
    "https://api.github.com/repos/" ++ owner ++ "/" ++ repo ++ "/releases/latest" in
  response <- requests_get P api_url (Some 10%Z) false;;
  raise_for_status response;;
  release <- lift (json_body response);;
  assets <- lift (dict_get release "assets" JNull);;
  if negb (truthy assets) then raise (Raised "Exception" "No release assets found.")
  else
    assets <- lift (getitem release (KStr "assets"));;
    asset <- lift (getitem assets (KInt 0));;
    download_url <- lift (getitem asset (KStr "browser_download_url"));;
    asset_name <- lift (getitem asset (KStr "name"));;
    local_file <- lift (join_asset save_path asset_name);;
    progress progress_callback 0.1 ("Downloading " ++ py_str P asset_name ++ "...");;
    ret (download_url, asset_name, local_file).

(** lines 53 to 67: the asset is streamed into the file *)
Definition transfer (repo : string) (progress_callback : option callback)
    (download_url asset_name : json) (local_file : string) : M files string :=
  r <- requests_get P (py_str P download_url) None true;;
  raise_for_status r;;
  total <- declared_length P r;;
  open_wb local_file;;
  write_chunks progress_callback (py_str P asset_name) local_file total 0
    (body_chunks r);;
  stream_end r;;
  progress progress_callback 1.0 (repo ++ " release downloaded successfully.");;
  ret local_file.

(** the [try] block (lines 34 to 67) *)
Definition download_latest_release_body (owner repo save_path : string)
    (progress_callback : option callback) : M files string :=
  asset <- locate_asset owner repo save_path progress_callback;;
  transfer repo progress_callback (fst (fst asset)) (snd (fst asset)) (snd asset).

(** The result is [Some local_file], or [None] for Python's [None]. *)
Definition download_latest_release (owner repo save_path : string)
    (progress_callback : option callback) : M files (option string) :=
  try_except
    (local_file <- download_latest_release_body owner repo save_path progress_callback;;
     ret (Some local_file))
    (fun e =>
       progress progress_callback 1.0
         ("Failed to download release: " ++ exn_str P e);;
       ret None).

End Fetcher.
End Release.

(** ** download_github_repo *)

Module Branch.

(** The destination as the three calls of the source observe it. *)
Record tree_view := {
  (* [os.listdir(path)]: the names in the directory, in listing order *)
  listdir : string -> result (list string);
  (* [os.path.isdir(path)] *)
  isdir : string -> bool;
  (* [os.walk(path)]: the triples (root, directory names, file names) *)
  walk : string -> list (string * list string * list string)
}.

(** [zipfile.ZipFile(buffer).extractall(path)]: what is on the disk
    afterwards, and the error that stopped the extraction, if any. *)
Record archive_io := {
  extractall : bytes -> string -> tree_view -> tree_view * option exn
}.

(** The dictionary that the function returns. *)
Abbreviation record := (gmap string string).

Section Fetcher.
Context (P : platform) (A : archive_io).

(** the [for] loop of lines 91 to 96: the chunks are added to [buffer] *)
Fixpoint read_chunks (progress_callback : option callback) (repo_name : string)
    (total downloaded : Z) (buffer : bytes) (chunks : list bytes)
  : M tree_view bytes :=
  match chunks with
  | [] => ret buffer
  | chunk :: rest =>
      match chunk with
      | [] => read_chunks progress_callback repo_name total downloaded buffer rest
      | _ :: _ =>
          let buffer := (buffer ++ chunk)%list in
          let downloaded := (downloaded + Z.of_nat (List.length chunk))%Z in
          (if (0 <? total)%Z
           then progress progress_callback
                  (Qmin 0.8 (inject_Z downloaded / inject_Z total * 0.8))
                  ("Downloading " ++ repo_name ++ "...")
           else ret tt);;
          read_chunks progress_callback repo_name total downloaded buffer rest
      end
  end.

(** [repo_url.split('github.com/')[-1]] in the archive address (line 79) *)
Definition zip_url_of (repo_url branch : string) : string :=
  "https://github.com/" ++ PyStr.last_piece (PyStr.split "github.com/" repo_url)
  ++ "/archive/refs/heads/" ++ branch ++ ".zip".

(** lines 77 to 96: the archive is fetched into memory *)
Definition download_phase (repo_url : string) (progress_callback : option callback)
  : M tree_view (string * bytes) :=
  let repo_name := get_repo_name repo_url in
  branch <- get_default_branch P repo_url;;
  let branch := py_str P branch in
  let zip_url := zip_url_of repo_url branch in
  progress progress_callback 0.05
    ("Connecting to " ++ repo_name ++ " (" ++ branch ++ ")...");;
  response <- requests_get P zip_url None true;;
  raise_for_status response;;
  total <- declared_length P response;;
  buffer <- read_chunks progress_callback repo_name total 0 [] (body_chunks response);;
  Release.stream_end response;;
  ret (repo_name, buffer).

(** lines 101 to 103 *)
Definition extract (buffer : bytes) (save_path : string) : M tree_view unit :=
  fun w =>
    let '(d, err) := extractall A buffer save_path (disk w) in
    (match err with Some e => Raise e | None => Ok tt end,
     {| net_log := net_log w; reports := reports w; disk := d |}).

(** the disk as it is now, for the calls that only look at it *)
Definition the_disk : M tree_view tree_view := fun w => (Ok (disk w), w).

(** [os.listdir(save_path)] *)
Definition os_listdir (path : string) : M tree_view (list string) :=
  fun w => (listdir (disk w) path, w).

(** the [for] loop of lines 106 to 109, with its [break] *)
Fixpoint find_extracted (d : tree_view) (save_path repo_name : string)
    (items : list string) : option string :=
  match items with
  | [] => None
  | item :: rest =>
      if isdir d (path_join P save_path item)
         && PyStr.contains (py_lower P repo_name) (py_lower P item)
      then Some (path_join P save_path item)
      else find_extracted d save_path repo_name rest
  end.

(** [if not extracted_folder: extracted_folder = save_path]; [None] and the
    empty string are the two false values that the variable can hold *)
Definition or_save_path (extracted_folder : option string) (save_path : string)
  : string :=
  match extracted_folder with
  | Some folder => if String.eqb folder "" then save_path else folder
  | None => save_path
  end.

(** ["installerready.exe" in [f.lower() for f in files]] *)
Definition has_installer (names : list string) : bool :=
  existsb (String.eqb "installerready.exe") (List.map (py_lower P) names).

(** the [for] loop of lines 119 to 122, with its [break] *)
Definition exe_found (d : tree_view) (extracted_folder : string) : bool :=
  existsb (fun '(_, _, names) => has_installer names) (walk d extracted_folder).

(** the dictionary of lines 124 to 128 *)
Definition found_record (found : bool) (extracted_folder repo_name : string)
  : record :=
  <["status" := if found then "ready" else "no_installer"]>
    (<["path" := extracted_folder]>
    (<["repo_name" := repo_name]> ∅)).

(** the dictionary of line 133 *)
Definition error_record (text : string) : record :=
  <["status" := "error"]> (<["error" := text]> ∅).

(** lines 98 to 128: extraction, the extracted folder, the installer *)
Definition extract_phase (save_path : string) (progress_callback : option callback)
    (repo_name : string) (buffer : bytes) : M tree_view record :=
  progress progress_callback 0.85 ("Extracting " ++ repo_name ++ "...");;
  extract buffer save_path;;
  items <- os_listdir save_path;;
  d <- the_disk;;
  let extracted_folder :=
    or_save_path (find_extracted d save_path repo_name items) save_path in
  progress progress_callback 1.0 (repo_name ++ " downloaded successfully.");;
  d <- the_disk;;
  let found := exe_found d extracted_folder in
  ret (found_record found extracted_folder repo_name).

(** the [try] block (lines 77 to 128) *)
Definition download_github_repo_body (repo_url save_path : string)
    (progress_callback : option callback) : M tree_view record :=
  fetched <- download_phase repo_url progress_callback;;
  extract_phase save_path progress_callback (fst fetched) (snd fetched).

Definition download_github_repo (repo_url save_path : string)
    (progress_callback : option callback) : M tree_view record :=
  try_except
    (download_github_repo_body repo_url save_path progress_callback)
    (fun e =>
       progress progress_callback 1.0
         ("Failed to download " ++ repo_url ++ ": " ++ exn_str P e);;
       ret (error_record (exn_str P e))).

End Fetcher.
End Branch.

(** ** A disk made of directories and files

    An instance of [Branch.tree_view]: a tree of named entries.  Paths are
    those that the code and [os.walk] build with [os.path.join]; a path
    stands for the first entry, in the order of the walk, that it reaches. *)

Module Disk.

Inductive node :=
| File (content : bytes)
| Dir (entries : list (string * node)).

Definition is_dir (n : node) : bool :=
  match n with
  | Dir _ => true
  | File _ => false
  end.

Definition dir_names (entries : list (string * node)) : list string :=
  List.map fst (List.filter (fun e => is_dir (snd e)) entries).

Definition file_names (entries : list (string * node)) : list string :=
  List.map fst (List.filter (fun e => negb (is_dir (snd e))) entries).

Section Tree.
Variable join : string -> string -> string.

(** [os.walk(root)] on the directory [n], top down *)
Fixpoint walk_node (root : string) (n : node)
  : list (string * list string * list string) :=
  match n with
  | File _ => []
  | Dir entries =>
      (root, dir_names entries, file_names entries)
      :: (fix below (es : list (string * node)) :=
            match es with
            | [] => []
            | (name, child) :: rest =>
                (walk_node (join root name) child ++ below rest)%list
            end) entries
  end.

(** the entry at [path], looking from the entry [n] whose path is [here] *)
Fixpoint find_node (path here : string) (n : node) : option node :=
  if String.eqb here path then Some n
  else
    match n with
    | File _ => None
    | Dir entries =>
        (fix among (es : list (string * node)) :=
           match es with
           | [] => None
           | (name, child) :: rest =>
               match find_node path (join here name) child with
               | Some found => Some found
               | None => among rest
               end
           end) entries
    end.

(** the disk that holds the tree [top] at the path [mount] *)
Definition view (mount : string) (top : node) : Branch.tree_view :=
  {| Branch.listdir := fun path =>
       match find_node path mount top with
       | Some (Dir entries) => Ok (List.map fst entries)
       | Some (File _) => Raise (Raised "NotADirectoryError" path)
       | None => Raise (Raised "FileNotFoundError" path)
       end;
     Branch.isdir := fun path =>
       match find_node path mount top with
       | Some n => is_dir n
       | None => false
       end;
     Branch.walk := fun path =>
       match find_node path mount top with
       | Some n => walk_node path n
       | None => []
       end |}.

End Tree.

(** [posixpath.join] for two components *)
Definition posix_join (a b : string) : string :=
  if PyStr.startswith "/" b then b
  else if String.eqb a "" then b
  else if PyStr.startswith "/" (String.rev a) then a ++ b
  else a ++ "/" ++ b.

End Disk.

(** ** A scripted platform, for running the functions on examples *)

Module Script.

(** [int(s)] for the header values of the examples, which are strings of
    decimal digits; any other string is answered with a [ValueError] *)
Fixpoint digits (acc : Z) (s : string) : option Z :=
  match s with
  | EmptyString => Some acc
  | String c s' =>
      let n := nat_of_ascii c in
      if ((48 <=? n)%nat && (n <=? 57)%nat)%bool
      then digits (10 * acc + Z.of_nat (n - 48))%Z s'
      else None
  end.

Definition int_of (s : string) : result Z :=
  match s with
  | EmptyString => Raise (Raised "ValueError" "invalid literal for int()")
  | _ => match digits 0 s with
         | Some z => Ok z
         | None => Raise (Raised "ValueError" "invalid literal for int()")
         end
  end.

(** lower case of an ASCII letter: A-Z go to a-z, the rest is unchanged *)
Definition lower_ascii (c : ascii) : ascii :=
  let n := nat_of_ascii c in
  if ((65 <=? n)%nat && (n <=? 90)%nat)%bool then ascii_of_nat (n + 32) else c.

(** [s.lower()] on ASCII text, the text of the examples *)
Fixpoint lower (s : string) : string :=
  match s with
  | EmptyString => EmptyString
  | String c s' => String (lower_ascii c) (lower s')
  end.

(** the [n]-th request gets the [n]-th answer of [answers]; when the
    answers run out the connection fails *)
Definition platform_of (answers : list (result response)) : platform :=
  {| http_get := fun n _ =>
       List.nth n answers (Raise (Raised "ConnectionError" "connection refused"));
     py_int := int_of;
     py_repr := fun _ => "None";
     interp_text := fun _ => "invalid access";
     path_join := Disk.posix_join;
     py_lower := lower |}.

Definition answer (status : Z) (len : option string) (body : result json)
    (chunks : list bytes) (broken : option exn) : response :=
  {| status_code := status;
     status_error :=
       if ((400 <=? status) && (status <? 600))%Z
       then Some (Raised "HTTPError" "Client Error") else None;
     content_length := len;
     json_body := body;
     body_chunks := chunks;
     body_error := broken |}.

Definition empty_world {D} (d : D) : world D :=
  {| net_log := []; reports := []; disk := d |}.

End Script.

(** * Vocabulary of the properties *)

Section Vocabulary.
Context {D : Type}.

(** [m] never raises *)
Definition returns {A} (m : M D A) : Prop :=
  forall w, exists a w', m w = (Ok a, w').

(** [m] adds reports that all satisfy [Pr], and removes none *)
Definition emits {A} (Pr : report -> Prop) (m : M D A) : Prop :=
  forall w, exists new,
    reports (snd (m w)) = (reports w ++ new)%list /\ Forall Pr new.

(** [m] leaves the component [f] of the world as it was *)
Definition preserves {X A} (f : world D -> X) (m : M D A) : Prop :=
  forall w, f (snd (m w)) = f w.

(** [m] sends no report *)
Definition silent {A} (m : M D A) : Prop := preserves reports m.

(** when [m] returns, its reports are some that satisfy [Pr], followed by
    the reports [last] *)
Definition ok_ends {A} (Pr : report -> Prop) (last : list report) (m : M D A)
  : Prop :=
  forall w a w', m w = (Ok a, w') ->
    exists pre, reports w' = (reports w ++ pre ++ last)%list /\ Forall Pr pre.

(** [m] sends no request *)
Definition offline {A} (m : M D A) : Prop := preserves net_log m.

End Vocabulary.

(** what [progress] leaves in the report log: the report, if there is a
    callback to receive it *)
Definition delivered (cb : option callback) (r : report) : list report :=
  match cb with
  | Some _ => [r]
  | None => []
  end.

(** what the guarded call [if progress_callback: progress_callback(f, msg)]
    raises after the reports [seen]: nothing without a callback, else what
    the callback decides *)
Definition callback_raises (cb : option callback) (seen : list report)
    (f : Q) (msg : string) : option exn :=
  match cb with
  | Some c => cb_raises c seen f msg
  | None => None
  end.

(** the outcome of an [except] clause that calls the callback and then
    returns [a] *)
Definition after_callback {A} (raised : option exn) (a : A) : result A :=
  match raised with
  | Some e => Raise e
  | None => Ok a
  end.

Definition in_unit_interval (r : report) : Prop := (0 <= fraction r <= 1)%Q.

Definition at_most (bound : Q) (r : report) : Prop := (fraction r <= bound)%Q.

(** a report of the download phase of the branch fetcher *)
Definition download_report (r : report) : Prop :=
  in_unit_interval r /\ at_most 0.8 r.

(** the report of the [except] clause of [download_github_repo] *)
Definition failure_report (P : platform) (repo_url : string) (e : exn) : report :=
  {| fraction := 1.0;
     message := "Failed to download " ++ repo_url ++ ": " ++ exn_str P e |}.

(** the request that [get_default_branch] sends for the groups of a match *)
Definition metadata_request (groups : list string) : request :=
  {| req_url := "https://api.github.com/repos/" ++ List.nth 0 groups EmptyString
                ++ "/" ++ List.nth 1 groups EmptyString;
     req_timeout := Some 10%Z;
     req_stream := false |}.

(** the request of line 53 *)
Definition asset_request (P : platform) (download_url : json) : request :=
  {| req_url := py_str P download_url; req_timeout := None; req_stream := true |}.

(** the request of line 84 *)
Definition archive_request (zip_url : string) : request :=
  {| req_url := zip_url; req_timeout := None; req_stream := true |}.

(** some file of the walk has a name that [str.lower] turns into
    "installerready.exe" *)
Definition walk_has_installer (P : platform) (d : Branch.tree_view)
    (folder : string) : Prop :=
  exists root dirs names name,
    In (root, dirs, names) (Branch.walk d folder)
    /\ In name names
    /\ py_lower P name = "installerready.exe".


(** no character of [s] is a slash *)
Fixpoint no_slash (s : string) : Prop :=
  match s with
  | EmptyString => True
  | String a s' => a <> "/"%char /\ no_slash s'
  end.

(** [sep] occurs in [s] *)
Definition occurs (sep s : string) : Prop := exists b t, s = b ++ sep ++ t.

(** [before ++ sep ++ tail] cuts [s] at the last occurrence of [sep] *)
Definition last_occurrence (sep s before tail : string) : Prop :=
  s = before ++ sep ++ tail
  /\ forall before' tail',
       s = before' ++ sep ++ tail' ->
       (String.length before' <= String.length before)%nat.

(** ** A direct reading of the two patterns *)

(** the longest prefix of [s] that has no slash, and what follows it *)
Fixpoint segment (s : string) : string * string :=
  match s with
  | EmptyString => (EmptyString, EmptyString)
  | String a s' =>
      if Ascii.eqb a "/" then (EmptyString, s)
      else let '(seg, rest) := segment s' in (String a seg, rest)
  end.

(** [s] without its prefix [p], when it starts with [p] *)
Fixpoint strip_prefix (p s : string) : option string :=
  match p, s with
  | EmptyString, _ => Some s
  | String a p', String b s' => if Ascii.eqb b a then strip_prefix p' s' else None
  | String _ _, EmptyString => None
  end.

(** an owner segment, a slash and a repository segment at the start of [s] *)
Definition owner_and_repo (s : string) : option (string * string) :=
  let '(owner, rest) := segment s in
  match owner, rest with
  | String _ _, String _ rest' =>
      let '(repo, _) := segment rest' in
      match repo with
      | String _ _ => Some (owner, repo)
      | EmptyString => None
      end
  | _, _ => None
  end.

(** "github.com/", an owner, a slash and a repository at the start of [s] *)
Definition address_here (s : string) : option (string * string) :=
  match strip_prefix "github.com/" s with
  | Some t => owner_and_repo t
  | None => None
  end.

(** the first place of [s], from the left, where an address starts *)
Fixpoint find_address (s : string) : option (string * string) :=
  match address_here s with
  | Some found => Some found
  | None =>
      match s with
      | String _ s' => find_address s'
      | EmptyString => None
      end
  end.

(** the open group after the characters of [seg] were added to it *)
Definition pushes (seg : string) (cur : option string) : option string :=
  match cur with
  | Some acc => Some (String.rev_app seg acc)
  | None => None
  end.

(** the rest of a pattern that cannot start on a character other than a
    slash *)
Definition needs_slash (q : list PyRe.item) : Prop :=
  forall cur done a s,
    a <> "/"%char -> PyRe.match_here q cur done (String a s) = None.

(** the request of line 38 *)
Definition latest_request (owner repo : string) : request :=
  {| req_url := "https://api.github.com/repos/" ++ owner ++ "/" ++ repo
                ++ "/releases/latest";
     req_timeout := Some 10%Z;
     req_stream := false |}.

(** the sizes reached after each non-empty chunk, starting from [downloaded] *)
Fixpoint running_totals (downloaded : Z) (chunks : list bytes) : list Z :=
  match chunks with
  | [] => []
  | chunk :: rest =>
      match chunk with
      | [] => running_totals downloaded rest
      | _ :: _ =>
          let downloaded := (downloaded + Z.of_nat (List.length chunk))%Z in
          downloaded :: running_totals downloaded rest
      end
  end.

(** the reports of a transfer loop: none when the declared length is not
    positive, else one for each size reached *)
Definition loop_reports (cb : option callback) (fraction_at : Z -> Q)
    (msg : string) (total : Z) (sizes : list Z) : list report :=
  if (0 <? total)%Z
  then flat_map (fun n => delivered cb {| fraction := fraction_at n; message := msg |})
         sizes
  else [].

(** the fraction of the second report is not below that of the first *)
Definition not_below (a b : report) : Prop := (fraction a <= fraction b)%Q.

(** [chunk] is not empty: the test [if chunk:] *)
Definition has_bytes (chunk : bytes) : bool :=
  match chunk with
  | [] => false
  | _ :: _ => true
  end.

(** the number of reports of a transfer loop: one for each chunk that is
    not empty, when the declared length is positive and there is a
    callback; none otherwise *)
Definition loop_report_count (cb : option callback) (total : Z)
    (chunks : list bytes) : nat :=
  match cb with
  | Some _ =>
      if (0 <? total)%Z then List.length (List.filter has_bytes chunks) else 0
  | None => 0
  end.

(** the report carries the message [msg] *)
Definition says (msg : string) (r : report) : Prop := message r = msg.

(** * Scenarios for the examples *)

(** a disk on which every file can be opened *)
Definition no_file_errors : Release.file_io :=
  {| Release.open_error := fun _ _ => None |}.

(** an extraction that changes nothing *)
Definition keep_disk : Branch.archive_io :=
  {| Branch.extractall := fun _ _ d => (d, None) |}.

(** an extraction that puts the tree [top] at the destination *)
Definition unpack (top : Disk.node) : Branch.archive_io :=
  {| Branch.extractall := fun _ save_path _ =>
       (Disk.view Disk.posix_join save_path top, None) |}.

(** the empty directory "dest", nothing requested or reported yet *)
Definition empty_dest : world Branch.tree_view :=
  Script.empty_world (Disk.view Disk.posix_join "dest" (Disk.Dir [])).

(** a release with one asset, setup.exe *)
Definition sample_release : json :=
  JObj [("assets",
         JArr [JObj [("browser_download_url", JStr "https://example.org/setup.exe");
                     ("name", JStr "setup.exe")]])].

(** a body of three bytes in two chunks *)
Definition two_chunks : list bytes :=
  [[Byte.x4d; Byte.x5a]; [Byte.x90]].


(** the answers to the metadata request and to the archive request *)
Definition archive_answers : list (result response) :=
  [Ok (Script.answer 200 None (Ok (JObj [("default_branch", JStr "main")])) [] None);
   Ok (Script.answer 200 None (Ok JNull) two_chunks None)].

(** the archive of the specification: it holds sub/dir/InstallerReady.EXE *)
Definition with_installer : Disk.node :=
  Disk.Dir
    [("hello-main",
      Disk.Dir
        [("README.md", Disk.File []);
         ("sub", Disk.Dir [("dir", Disk.Dir [("InstallerReady.EXE", Disk.File [])])])])].


(** a release that lists two assets *)
Definition two_assets : json :=
  JObj [("tag_name", JStr "v1.0");
        ("assets",
         JArr [JObj [("name", JStr "setup.exe");
                     ("browser_download_url", JStr "https://example.org/setup.exe")];
               JObj [("name", JStr "setup.tar.gz");
                     ("browser_download_url", JStr "https://example.org/setup.tar.gz")]])].

(** * Properties *)

(** ** Facts about strings *)

Section Strings.
#[local] Arguments String.append : simpl nomatch.

Lemma string_app_assoc (a b c : string) : (a ++ b) ++ c = a ++ b ++ c.
Proof. induction a as [|x a IH]; simpl; [reflexivity | rewrite IH; reflexivity]. Qed.

Lemma string_app_nil_r (a : string) : a ++ "" = a.
Proof. induction a as [|x a IH]; simpl; [reflexivity | rewrite IH; reflexivity]. Qed.

Lemma string_length_app (a b : string) :
  String.length (a ++ b) = (String.length a + String.length b)%nat.
Proof. induction a as [|x a IH]; simpl; [reflexivity | rewrite IH; reflexivity]. Qed.

Lemma string_app_inv_head (a b c : string) : a ++ b = a ++ c -> b = c.
Proof. induction a as [|x a IH]; simpl; intros H; [exact H | injection H as H; auto]. Qed.

(** two ways of cutting one string: one cut comes first *)
Lemma string_app_eq_inv (a x b y : string) :
  a ++ x = b ++ y ->
  (exists u, b = a ++ u /\ x = u ++ y) \/ (exists u, a = b ++ u /\ y = u ++ x).
Proof.
  revert b. induction a as [|c a IH]; intros b H; simpl in H.
  - left. exists b. auto.
  - destruct b as [|d b]; simpl in H.
    + right. exists (String c a). auto.
    + injection H as -> H. destruct (IH b H) as [[u [-> ->]] | [u [-> ->]]].
      * left. exists u. auto.
      * right. exists u. auto.
Qed.

Lemma rev_app_app (a b c : string) : String.rev_app a b ++ c = String.rev_app a (b ++ c).
Proof. revert b. induction a as [|x a IH]; intros b; simpl; [reflexivity | apply IH]. Qed.

Lemma rev_cons_app (x : ascii) (cur s : string) :
  String.rev (String x cur) ++ s = String.rev cur ++ String x s.
Proof. unfold String.rev. simpl. rewrite !rev_app_app. reflexivity. Qed.

Lemma startswith_spec (p s : string) :
  PyStr.startswith p s = true <-> exists t, s = p ++ t.
Proof.
  revert s. induction p as [|a p IH]; intros s; simpl.
  - split; [intros _; exists s; reflexivity | reflexivity].
  - destruct s as [|b s]; [split; [discriminate | intros [t H]; discriminate H] |].
    destruct (Ascii.eqb_spec a b) as [<- | Hne].
    + rewrite IH. split; intros [t H]; exists t; [rewrite H; reflexivity |].
      injection H as H. exact H.
    + split; [discriminate | intros [t H]]. injection H as <- _. congruence.
Qed.

Lemma occurs_cons sep a s :
  PyStr.startswith sep (String a s) = false -> occurs sep (String a s) -> occurs sep s.
Proof.
  intros Hno (b & t & H). destruct b as [|x b]; simpl in H.
  - assert (PyStr.startswith sep (String a s) = true) by (apply startswith_spec; eauto).
    congruence.
  - injection H as _ ->. exists b, t. reflexivity.
Qed.

Lemma split_from_skip sep cur u t :
  PyStr.split_from sep (String.length u) cur (u ++ t) = PyStr.split_from sep 0 cur t.
Proof. induction u as [|x u IH]; simpl; [reflexivity | exact IH]. Qed.

Lemma split_from_match c sep cur t :
  PyStr.split_from (String c sep) 0 cur (String c sep ++ t)
  = String.rev cur :: PyStr.split_from (String c sep) 0 "" t.
Proof.
  assert (H : PyStr.startswith (String c sep) (String c sep ++ t) = true)
    by (apply startswith_spec; eauto).
  change (String c sep ++ t) with (String c (sep ++ t)) in *.
  cbn [PyStr.split_from]. rewrite H.
  cbn [String.length]. rewrite Nat.sub_1_r. cbn [Nat.pred].
  rewrite split_from_skip. reflexivity.
Qed.

Lemma split_from_not_nil sep s : forall k cur, PyStr.split_from sep k cur s <> [].
Proof.
  induction s as [|a s IH]; intros k cur; simpl; [discriminate |].
  destruct k; [| apply IH].
  destruct (PyStr.startswith sep (String a s)); [discriminate | apply IH].
Qed.

Lemma last_piece_cons x l : l <> [] -> PyStr.last_piece (x :: l) = PyStr.last_piece l.
Proof. destruct l; [congruence | reflexivity]. Qed.

(** the last piece of a split: all of the string when the separator does
    not occur, else what follows an occurrence and contains no other *)
Lemma split_last_piece c sep n :
  forall s cur, (String.length s <= n)%nat ->
    let t := PyStr.last_piece (PyStr.split_from (String c sep) 0 cur s) in
    (t = String.rev cur ++ s /\ ~ occurs (String c sep) s)
    \/ (exists b, s = b ++ String c sep ++ t /\ ~ occurs (String c sep) t).
Proof.
  induction n as [|n IH]; intros s cur Hlen.
  - destruct s; [| simpl in Hlen; lia]. left. simpl. rewrite string_app_nil_r.
    split; [reflexivity |]. intros (b & t & H).
    destruct b; discriminate H.
  - destruct s as [|a s].
    { left. simpl. rewrite string_app_nil_r.
      split; [reflexivity |]. intros (b & t & H). destruct b; discriminate H. }
    destruct (PyStr.startswith (String c sep) (String a s)) eqn:Hs.
    + apply startswith_spec in Hs as [t0 Ht0]. rewrite Ht0.
      rewrite split_from_match, last_piece_cons by apply split_from_not_nil.
      assert (Hl : (String.length t0 <= n)%nat).
      { apply (f_equal String.length) in Ht0. rewrite string_length_app in Ht0.
        simpl in Ht0, Hlen. lia. }
      destruct (IH t0 "" Hl) as [[Ht Hno] | [b [Hb Hno]]].
      * right. exists "". simpl in Ht. rewrite Ht. split; [reflexivity | exact Hno].
      * right. exists (String c sep ++ b). split; [| exact Hno].
        rewrite Hb at 1. rewrite !string_app_assoc. reflexivity.
    + cbn [PyStr.split_from]. rewrite Hs.
      assert (Hl : (String.length s <= n)%nat) by (simpl in Hlen; lia).
      destruct (IH s (String a cur) Hl) as [[Ht Hno] | [b [Hb Hno]]].
      * left. split; [rewrite Ht; apply rev_cons_app |].
        intros Hocc. apply Hno. eapply occurs_cons; eassumption.
      * right. exists (String a b). split; [| exact Hno].
        simpl. f_equal. exact Hb.
Qed.

Lemma split_without_separator s :
  ~ occurs "github.com/" s ->
  PyStr.last_piece (PyStr.split "github.com/" s) = s.
Proof.
  intros Hno. unfold PyStr.split.
  destruct (split_last_piece "g" "ithub.com/" (String.length s) s "" (le_n _))
    as [[Ht _] | [b [Hb _]]].
  - exact Ht.
  - exfalso. apply Hno. eexists _, _. exact Hb.
Qed.

(** "github.com/" does not overlap itself: no end of it is a start of it *)
Lemma separator_has_no_border (u v t tail : string) :
  "github.com/" = u ++ v -> u <> "" -> v <> "" ->
  v ++ t = "github.com/" ++ tail -> False.
Proof.
  intros H Hu Hv H2.
  destruct u as [|a u]; [congruence |].
  simpl in H. injection H as _ H.
  do 10 (destruct u as [|? u]; simpl in H;
         [subst v; simpl in H2; discriminate H2 | injection H as _ H]).
  destruct u; simpl in H; [congruence | discriminate H].
Qed.

Lemma split_at_last_occurrence s before tail :
  last_occurrence "github.com/" s before tail ->
  PyStr.last_piece (PyStr.split "github.com/" s) = tail.
Proof.
  intros [Hs Hmax]. unfold PyStr.split.
  destruct (split_last_piece "g" "ithub.com/" (String.length s) s "" (le_n _))
    as [[_ Hno] | [b [Hb Hno]]].
  { exfalso. apply Hno. exists before, tail. exact Hs. }
  set (t := PyStr.last_piece (PyStr.split_from "github.com/" 0 "" s)) in *.
  pose proof (Hmax b t Hb) as Hle.
  rewrite Hs in Hb.
  destruct (string_app_eq_inv _ _ _ _ Hb) as [[u [Hu Hx]] | [u [Hu Hx]]].
  - (* b = before ++ u *)
    assert (u = "").
    { apply (f_equal String.length) in Hu. rewrite string_length_app in Hu.
      destruct u; [reflexivity | simpl in Hu; lia]. }
    subst u. simpl in Hx. congruence.
  - (* before = b ++ u *)
    destruct (string_app_eq_inv _ _ _ _ Hx) as [[v [Hv Hy]] | [v [Hv Hy]]].
    + (* u = "github.com/" ++ v: an occurrence inside t *)
      exfalso. apply Hno. exists v, tail. exact Hy.
    + (* "github.com/" = u ++ v *)
      destruct u as [|a u].
      { simpl in Hx. congruence. }
      destruct v as [|a' v].
      { exfalso. apply Hno. exists "", tail. simpl in Hy. simpl. congruence. }
      exfalso. eapply (separator_has_no_border (String a u) (String a' v));
        [exact Hv | discriminate | discriminate | symmetry; exact Hy].
Qed.

End Strings.

(** ** Reasoning about computations *)

Section Logic.
Context {D : Type}.

Lemma bind_ok {A B} (m : M D A) (k : A -> M D B) w b w' :
  bind m k w = (Ok b, w') ->
  exists a w1, m w = (Ok a, w1) /\ k a w1 = (Ok b, w').
Proof.
  unfold bind. destruct (m w) as [[a|e] w1]; intros H.
  - exists a, w1. split; [reflexivity | exact H].
  - discriminate H.
Qed.

Lemma bind_raise {A B} (m : M D A) (k : A -> M D B) w e w' :
  bind m k w = (Raise e, w') ->
  m w = (Raise e, w') \/ exists a w1, m w = (Ok a, w1) /\ k a w1 = (Raise e, w').
Proof.
  unfold bind. destruct (m w) as [[a|e1] w1]; intros H.
  - right. exists a, w1. split; [reflexivity | exact H].
  - left. injection H as -> ->. reflexivity.
Qed.

Lemma silent_emits {A} Pr (m : M D A) : silent m -> emits Pr m.
Proof.
  intros H w. exists []. rewrite H, app_nil_r. split; [reflexivity | constructor].
Qed.

Lemma emits_bind {A B} Pr (m : M D A) (k : A -> M D B) :
  emits Pr m -> (forall a, emits Pr (k a)) -> emits Pr (bind m k).
Proof.
  intros Hm Hk w. unfold bind.
  destruct (Hm w) as [n1 [E1 F1]].
  destruct (m w) as [[a|e] w1]; simpl in *.
  - destruct (Hk a w1) as [n2 [E2 F2]].
    exists (n1 ++ n2)%list. rewrite E2, E1, app_assoc.
    split; [reflexivity | apply Forall_app; split; assumption].
  - exists n1. split; assumption.
Qed.

Lemma emits_try {A} Pr (m : M D A) (h : exn -> M D A) :
  emits Pr m -> (forall e, emits Pr (h e)) -> emits Pr (try_except m h).
Proof.
  intros Hm Hh w. unfold try_except.
  destruct (Hm w) as [n1 [E1 F1]].
  destruct (m w) as [[a|e] w1]; simpl in *.
  - exists n1. split; assumption.
  - destruct (Hh e w1) as [n2 [E2 F2]].
    exists (n1 ++ n2)%list. rewrite E2, E1, app_assoc.
    split; [reflexivity | apply Forall_app; split; assumption].
Qed.

Lemma silent_ret {A} (a : A) : silent (ret a : M D A).
Proof. intros w. reflexivity. Qed.

Lemma silent_raise {A} e : silent (raise e : M D A).
Proof. intros w. reflexivity. Qed.

Lemma silent_lift {A} (r : result A) : silent (lift r : M D A).
Proof. intros w. reflexivity. Qed.

Lemma silent_requests_get P url timeout stream :
  silent (requests_get P url timeout stream : M D response).
Proof. intros w. reflexivity. Qed.

Lemma silent_raise_for_status r : silent (raise_for_status r : M D unit).
Proof. intros w. unfold raise_for_status. destruct (status_error r); reflexivity. Qed.

Lemma silent_declared_length P r : silent (declared_length P r : M D Z).
Proof. intros w. unfold declared_length. destruct (content_length r); reflexivity. Qed.

Lemma silent_stream_end r : silent (Release.stream_end r : M D unit).
Proof. intros w. unfold Release.stream_end. destruct (body_error r); reflexivity. Qed.

Lemma emits_progress Pr cb f msg :
  Pr {| fraction := f; message := msg |} -> emits Pr (progress cb f msg : M D unit).
Proof.
  intros H w. destruct cb as [cb|]; simpl.
  - exists [{| fraction := f; message := msg |}].
    split; [reflexivity | repeat constructor; exact H].
  - exists []. rewrite app_nil_r. split; [reflexivity | constructor].
Qed.

(** the world after [progress], whether the callback returns or raises *)
Lemma progress_world cb f msg (w : world D) :
  snd (progress cb f msg w) =
  {| net_log := net_log w;
     reports := (reports w ++ delivered cb {| fraction := f; message := msg |})%list;
     disk := disk w |}.
Proof.
  destruct cb as [c|]; simpl; [reflexivity |].
  rewrite app_nil_r. destruct w; reflexivity.
Qed.

#[export] Instance observer_none : Observer None.
Proof. intros c seen f msg H. discriminate H. Qed.

#[export] Instance observer_callback : Observer (Some Callback).
Proof. intros c seen f msg H. injection H as <-. reflexivity. Qed.

Lemma progress_run cb `{!Observer cb} f msg (w : world D) :
  progress cb f msg w =
  (Ok tt,
   {| net_log := net_log w;
      reports := (reports w ++ delivered cb {| fraction := f; message := msg |})%list;
      disk := disk w |}).
Proof.
  destruct cb as [c|]; simpl.
  - unfold call. rewrite (observer_returns c _ _ _ eq_refl). reflexivity.
  - unfold ret. rewrite app_nil_r. destruct w; reflexivity.
Qed.

(** when [progress] returns, the world is the same one *)
Lemma progress_ok cb f msg (w w1 : world D) u :
  progress cb f msg w = (Ok u, w1) ->
  w1 = {| net_log := net_log w;
          reports := (reports w ++ delivered cb {| fraction := f; message := msg |})%list;
          disk := disk w |}.
Proof. intros H. rewrite <- progress_world, H. reflexivity. Qed.

(** a callback that raises: the call is recorded, the exception goes on *)
Lemma progress_raises c f msg e (w : world D) :
  cb_raises c (reports w) f msg = Some e ->
  progress (Some c) f msg w =
  (Raise e,
   {| net_log := net_log w;
      reports := (reports w ++ [{| fraction := f; message := msg |}])%list;
      disk := disk w |}).
Proof. intros H. simpl. unfold call. rewrite H. reflexivity. Qed.

Lemma returns_try {A} (m : M D A) (h : exn -> M D A) :
  (forall e, returns (h e)) -> returns (try_except m h).
Proof.
  intros Hh w. unfold try_except. destruct (m w) as [[a|e] w1].
  - exists a, w1. reflexivity.
  - apply Hh.
Qed.

Lemma returns_progress_ret {A} cb `{!Observer cb} f msg (a : A) :
  returns (progress cb f msg;; ret a : M D A).
Proof.
  intros w. unfold bind. rewrite progress_run by exact _. eexists _, _. reflexivity.
Qed.

End Logic.

Create HintDb emits.
#[export] Hint Resolve silent_ret silent_raise silent_lift silent_requests_get
  silent_raise_for_status silent_declared_length silent_stream_end : emits.
#[export] Hint Resolve silent_emits : emits.

(** ** Progress fractions *)

Lemma ratio_nonneg (downloaded total : Z) :
  (0 <= downloaded)%Z -> (0 < total)%Z ->
  (0 <= inject_Z downloaded / inject_Z total)%Q.
Proof.
  intros Hd Ht. apply Qle_shift_div_l.
  - change 0%Q with (inject_Z 0). rewrite <- Zlt_Qlt. exact Ht.
  - rewrite Qmult_0_l. change 0%Q with (inject_Z 0). rewrite <- Zle_Qle. exact Hd.
Qed.

Lemma clamped_to_one (downloaded total : Z) msg :
  (0 <= downloaded)%Z -> (0 < total)%Z ->
  in_unit_interval
    {| fraction := Qmin 1.0 (inject_Z downloaded / inject_Z total); message := msg |}.
Proof.
  intros Hd Ht. unfold in_unit_interval; simpl. split.
  - apply Q.min_glb; [discriminate | apply ratio_nonneg; assumption].
  - eapply Qle_trans; [apply Q.le_min_l | discriminate].
Qed.

Lemma clamped_to_four_fifths (downloaded total : Z) msg :
  (0 <= downloaded)%Z -> (0 < total)%Z ->
  in_unit_interval
    {| fraction := Qmin 0.8 (inject_Z downloaded / inject_Z total * 0.8);
       message := msg |}
  /\ at_most 0.8
    {| fraction := Qmin 0.8 (inject_Z downloaded / inject_Z total * 0.8);
       message := msg |}.
Proof.
  intros Hd Ht. unfold in_unit_interval, at_most; simpl. repeat split.
  - apply Q.min_glb; [discriminate |].
    apply Qmult_le_0_compat; [apply ratio_nonneg; assumption | discriminate].
  - eapply Qle_trans; [apply Q.le_min_l | discriminate].
  - apply Q.le_min_l.
Qed.

Lemma constant_in_unit_interval (f : Q) msg :
  Qle_bool 0 f = true -> Qle_bool f 1 = true ->
  in_unit_interval {| fraction := f; message := msg |}.
Proof.
  intros H0 H1. split; simpl; apply Qle_bool_iff; assumption.
Qed.

#[export] Hint Extern 2 (emits in_unit_interval (progress _ _ _)) =>
  apply emits_progress, constant_in_unit_interval; reflexivity : emits.

Section OnSuccess.
Context {D : Type}.

Lemma ok_ends_bind {A B} Pr last (m : M D A) (k : A -> M D B) :
  emits Pr m -> (forall a, ok_ends Pr last (k a)) -> ok_ends Pr last (bind m k).
Proof.
  intros Hm Hk w b w' H.
  apply bind_ok in H as (a & w1 & H1 & H2).
  destruct (Hm w) as [n1 [E1 F1]]. rewrite H1 in E1; simpl in E1.
  destruct (Hk a w1 b w' H2) as [pre [E2 F2]].
  exists (n1 ++ pre)%list. split.
  - rewrite E2, E1, <- !app_assoc. reflexivity.
  - apply Forall_app; split; assumption.
Qed.

Lemma ok_ends_raise {A} Pr last e : ok_ends Pr last (raise e : M D A).
Proof. intros w a w' H. discriminate H. Qed.

Lemma ok_ends_progress_ret {A} Pr cb f msg (a : A) :
  ok_ends Pr (delivered cb {| fraction := f; message := msg |})
    (progress cb f msg;; ret a : M D A).
Proof.
  intros w a' w' H. apply bind_ok in H as (u & w1 & Hp & H).
  apply progress_ok in Hp as ->. injection H as _ <-.
  exists []. split; [reflexivity | constructor].
Qed.

End OnSuccess.

(** ** The release fetcher: its reports *)

Section ReleaseReports.
Context (P : platform) (F : Release.file_io).

Lemma silent_open_wb path : silent (Release.open_wb F path).
Proof.
  intros w. unfold Release.open_wb. destruct (Release.open_error F path (disk w)); reflexivity.
Qed.

Lemma silent_file_write path chunk : silent (Release.file_write path chunk).
Proof. intros w. reflexivity. Qed.

Lemma emits_write_chunks cb asset_name local_file total chunks :
  forall downloaded, (0 <= downloaded)%Z ->
  emits in_unit_interval
    (Release.write_chunks cb asset_name local_file total downloaded chunks).
Proof.
  induction chunks as [|chunk rest IH]; intros downloaded Hd; simpl.
  - auto with emits.
  - destruct chunk as [|b chunk']; [apply IH; exact Hd |].
    apply emits_bind; [apply silent_emits, silent_file_write | intros _].
    apply emits_bind.
    + destruct (0 <? total)%Z eqn:Ht; [| auto with emits].
      apply emits_progress, clamped_to_one; [| apply Z.ltb_lt; exact Ht].
      pose proof (Nat2Z.is_nonneg (List.length (b :: chunk'))). lia.
    + intros _. apply IH.
      pose proof (Nat2Z.is_nonneg (List.length (b :: chunk'))). lia.
Qed.

Lemma emits_locate_asset owner repo save_path cb :
  emits in_unit_interval (Release.locate_asset P owner repo save_path cb).
Proof.
  unfold Release.locate_asset.
  repeat (apply emits_bind; [solve [auto with emits] | intros ?]).
  destruct (negb (truthy _)); [auto with emits |].
  repeat (apply emits_bind; [solve [auto with emits] | intros ?]).
  auto with emits.
Qed.

Lemma emits_release_body owner repo save_path cb :
  emits in_unit_interval
    (Release.download_latest_release_body P F owner repo save_path cb).
Proof.
  unfold Release.download_latest_release_body, Release.transfer.
  apply emits_bind; [apply emits_locate_asset | intros asset].
  repeat (apply emits_bind; [solve [auto with emits] | intros ?]).
  apply emits_bind; [apply silent_emits, silent_open_wb | intros _].
  apply emits_bind; [apply emits_write_chunks; lia | intros _].
  repeat (apply emits_bind; [solve [auto with emits] | intros ?]).
  auto with emits.
Qed.

Lemma ok_ends_release_body owner repo save_path cb :
  ok_ends in_unit_interval
    (delivered cb {| fraction := 1.0;
                     message := repo ++ " release downloaded successfully." |})
    (Release.download_latest_release_body P F owner repo save_path cb).
Proof.
  unfold Release.download_latest_release_body, Release.transfer.
  apply ok_ends_bind; [apply emits_locate_asset | intros asset].
  repeat (apply ok_ends_bind; [solve [auto with emits] | intros ?]).
  apply ok_ends_bind; [apply silent_emits, silent_open_wb | intros _].
  apply ok_ends_bind; [apply emits_write_chunks; lia | intros _].
  apply ok_ends_bind; [solve [auto with emits] | intros ?].
  apply ok_ends_progress_ret.
Qed.

End ReleaseReports.

(** ** The resolver sends no report and never raises *)

Section Silent.
Context {D : Type}.

Lemma silent_bind {A B} (m : M D A) (k : A -> M D B) :
  silent m -> (forall a, silent (k a)) -> silent (bind m k).
Proof.
  intros Hm Hk w. unfold bind. specialize (Hm w).
  destruct (m w) as [[a|e] w1]; simpl in *; [| exact Hm].
  rewrite Hk. exact Hm.
Qed.

Lemma silent_try {A} (m : M D A) (h : exn -> M D A) :
  silent m -> (forall e, silent (h e)) -> silent (try_except m h).
Proof.
  intros Hm Hh w. unfold try_except. specialize (Hm w).
  destruct (m w) as [[a|e] w1]; simpl in *; [exact Hm |].
  rewrite Hh. exact Hm.
Qed.

Lemma silent_get_default_branch P repo_url :
  silent (get_default_branch P repo_url : M D json).
Proof.
  unfold get_default_branch, get_default_branch_body.
  apply silent_try; [| intros e; apply silent_ret].
  destruct (PyRe.search _ _); [| apply silent_ret].
  apply silent_bind; [apply silent_requests_get | intros r].
  destruct (status_code r =? 200)%Z; [| apply silent_ret].
  apply silent_bind; [apply silent_lift | intros d; apply silent_lift].
Qed.

Lemma returns_get_default_branch P repo_url :
  returns (get_default_branch P repo_url : M D json).
Proof.
  apply returns_try. intros e w. exists (JStr "main"), w. reflexivity.
Qed.

End Silent.

#[export] Hint Resolve silent_get_default_branch : emits.

(** ** The branch fetcher: its reports *)

Section BranchReports.
Context (P : platform) (A : Branch.archive_io).

Lemma emits_read_chunks cb repo_name total chunks :
  forall downloaded buffer, (0 <= downloaded)%Z ->
  emits download_report
    (Branch.read_chunks cb repo_name total downloaded buffer chunks).
Proof.
  induction chunks as [|chunk rest IH]; intros downloaded buffer Hd; simpl.
  - auto with emits.
  - destruct chunk as [|b chunk']; [apply IH; exact Hd |].
    apply emits_bind.
    + destruct (0 <? total)%Z eqn:Ht; [| auto with emits].
      apply emits_progress, clamped_to_four_fifths; [| apply Z.ltb_lt; exact Ht].
      pose proof (Nat2Z.is_nonneg (List.length (b :: chunk'))). lia.
    + intros _. apply IH.
      pose proof (Nat2Z.is_nonneg (List.length (b :: chunk'))). lia.
Qed.

Lemma emits_download_phase repo_url cb :
  emits download_report (Branch.download_phase P repo_url cb).
Proof.
  unfold Branch.download_phase.
  apply emits_bind; [solve [auto with emits] | intros branch].
  apply emits_bind.
  { apply emits_progress. split.
    - apply constant_in_unit_interval; reflexivity.
    - unfold at_most; simpl. discriminate. }
  intros _.
  repeat (apply emits_bind; [solve [auto with emits] | intros ?]).
  apply emits_bind; [apply emits_read_chunks; lia | intros buffer].
  apply emits_bind; auto with emits.
Qed.

Lemma emits_download_phase_unit repo_url cb :
  emits in_unit_interval (Branch.download_phase P repo_url cb).
Proof.
  intros w. destruct (emits_download_phase repo_url cb w) as [new [E Hnew]].
  exists new. split; [exact E |].
  eapply Forall_impl; [exact Hnew |]. intros r [H _]. exact H.
Qed.

Lemma silent_extract buffer save_path : silent (Branch.extract A buffer save_path).
Proof.
  intros w. unfold Branch.extract.
  destruct (Branch.extractall A buffer save_path (disk w)) as [d [e|]]; reflexivity.
Qed.

Lemma silent_os_listdir path : silent (Branch.os_listdir path).
Proof. intros w. reflexivity. Qed.

Lemma silent_the_disk : silent Branch.the_disk.
Proof. intros w. reflexivity. Qed.

Lemma emits_extract_phase save_path cb repo_name buffer :
  emits in_unit_interval (Branch.extract_phase P A save_path cb repo_name buffer).
Proof.
  unfold Branch.extract_phase.
  apply emits_bind; [solve [auto with emits] | intros _].
  apply emits_bind; [apply silent_emits, silent_extract | intros _].
  apply emits_bind; [apply silent_emits, silent_os_listdir | intros items].
  apply emits_bind; [apply silent_emits, silent_the_disk | intros d].
  apply emits_bind; [solve [auto with emits] | intros _].
  apply emits_bind; [apply silent_emits, silent_the_disk | intros d'].
  auto with emits.
Qed.

Lemma emits_branch_body repo_url save_path cb :
  emits in_unit_interval (Branch.download_github_repo_body P A repo_url save_path cb).
Proof.
  unfold Branch.download_github_repo_body.
  apply emits_bind; [apply emits_download_phase_unit | intros fetched].
  apply emits_extract_phase.
Qed.

(** when lines 98 to 128 return, their reports are the one of 0.85 and
    then the one of 1.0 *)
Lemma extract_phase_ok_reports save_path cb repo_name buffer
    (w w' : world Branch.tree_view) res :
  Branch.extract_phase P A save_path cb repo_name buffer w = (Ok res, w') ->
  reports w'
  = (reports w
     ++ delivered cb {| fraction := 0.85;
                        message := "Extracting " ++ repo_name ++ "..." |}
     ++ delivered cb {| fraction := 1.0;
                        message := repo_name ++ " downloaded successfully." |})%list.
Proof.
  unfold Branch.extract_phase. intros H.
  apply bind_ok in H as (? & wa & Hp & H). apply progress_ok in Hp as ->.
  apply bind_ok in H as (? & wb & He & H).
  unfold Branch.extract in He. simpl in He.
  destruct (Branch.extractall A buffer save_path (disk w)) as [d [e|]];
    [discriminate He |].
  injection He as _ <-.
  apply bind_ok in H as (items & wc & Hl & H).
  unfold Branch.os_listdir in Hl. simpl in Hl.
  destruct (Branch.listdir d save_path) as [items'|e]; [| discriminate Hl].
  injection Hl as _ <-.
  apply bind_ok in H as (d1 & wd & Hd & H).
  unfold Branch.the_disk in Hd. injection Hd as _ <-. simpl in H.
  apply bind_ok in H as (? & we & Hp & H). apply progress_ok in Hp as ->.
  apply bind_ok in H as (d2 & wf & Hd & H).
  unfold Branch.the_disk in Hd. injection Hd as _ <-. simpl in H.
  unfold ret in H. injection H as _ <-. simpl.
  rewrite <- app_assoc. reflexivity.
Qed.

(** lines 98 to 128, whatever happens there: the reports, the disk and the
    dictionary returned *)
Lemma extract_phase_run save_path cb `{!Observer cb} repo_name buffer w :
  exists r w',
    Branch.extract_phase P A save_path cb repo_name buffer w = (r, w')
    /\ net_log w' = net_log w
    /\ disk w' = fst (Branch.extractall A buffer save_path (disk w))
    /\ reports w' =
       (reports w
        ++ delivered cb {| fraction := 0.85;
                           message := "Extracting " ++ repo_name ++ "..." |}
        ++ match r with
           | Ok _ => delivered cb {| fraction := 1.0;
                                     message := repo_name ++ " downloaded successfully." |}
           | Raise _ => []
           end)%list
    /\ forall res, r = Ok res ->
       exists items,
         Branch.listdir (disk w') save_path = Ok items
         /\ let folder :=
              Branch.or_save_path
                (Branch.find_extracted P (disk w') save_path repo_name items)
                save_path in
            res = Branch.found_record (Branch.exe_found P (disk w') folder)
                    folder repo_name.
Proof.
  unfold Branch.extract_phase, bind at 1. rewrite progress_run by exact _.
  unfold bind at 1, Branch.extract; simpl.
  destruct (Branch.extractall A buffer save_path (disk w)) as [d [e|]].
  { eexists _, _. split; [reflexivity |]. simpl. rewrite app_nil_r.
    repeat split; auto. intros res H; discriminate H. }
  unfold bind at 1, Branch.os_listdir; simpl.
  destruct (Branch.listdir d save_path) as [items|e] eqn:Hl.
  2:{ eexists _, _. split; [reflexivity |]. simpl. rewrite app_nil_r.
      repeat split; auto. intros res H; discriminate H. }
  unfold bind at 1, Branch.the_disk at 1; simpl.
  unfold bind at 1. rewrite progress_run by exact _.
  unfold bind, Branch.the_disk, ret; simpl.
  eexists _, _. split; [reflexivity |]. simpl. rewrite <- app_assoc.
  repeat split; auto. intros res H. injection H as <-.
  exists items. split; [exact Hl | reflexivity].
Qed.

End BranchReports.

(** ** The dictionaries returned by the branch fetcher *)

Lemma found_record_status found folder repo_name :
  Branch.found_record found folder repo_name !! "status"
  = Some (if found then "ready" else "no_installer").
Proof. unfold Branch.found_record. apply lookup_insert_eq. Qed.

Lemma found_record_path found folder repo_name :
  Branch.found_record found folder repo_name !! "path" = Some folder.
Proof.
  unfold Branch.found_record.
  rewrite lookup_insert_ne by discriminate. apply lookup_insert_eq.
Qed.

Lemma found_record_repo_name found folder repo_name :
  Branch.found_record found folder repo_name !! "repo_name" = Some repo_name.
Proof.
  unfold Branch.found_record.
  rewrite !lookup_insert_ne by discriminate. apply lookup_insert_eq.
Qed.

Lemma error_record_status text :
  Branch.error_record text !! "status" = Some "error".
Proof. unfold Branch.error_record. apply lookup_insert_eq. Qed.

Lemma error_record_error text :
  Branch.error_record text !! "error" = Some text.
Proof.
  unfold Branch.error_record.
  rewrite lookup_insert_ne by discriminate. apply lookup_insert_eq.
Qed.

(** ** Every run of the branch fetcher *)

Section BranchRuns.
Context (P : platform) (A : Branch.archive_io).

(** A run either fails while the archive is fetched, or it reaches the
    extraction; [w1] is the world when the download phase ends. *)
Lemma download_github_repo_run repo_url save_path cb `{!Observer cb} w :
  exists r1 w1 res w',
    Branch.download_phase P repo_url cb w = (r1, w1)
    /\ Branch.download_github_repo P A repo_url save_path cb w = (Ok res, w')
    /\ net_log w' = net_log w1
    /\ match r1 with
       | Raise e =>
           res = Branch.error_record (exn_str P e)
           /\ disk w' = disk w1
           /\ reports w' = (reports w1 ++ delivered cb (failure_report P repo_url e))%list
       | Ok fetched =>
           disk w' = fst (Branch.extractall A (snd fetched) save_path (disk w1))
           /\ exists msg,
             reports w' =
               (reports w1
                ++ delivered cb {| fraction := 0.85;
                                   message := "Extracting " ++ fst fetched ++ "..." |}
                ++ delivered cb {| fraction := 1.0; message := msg |})%list
             /\ ((exists e, res = Branch.error_record (exn_str P e))
                 \/ exists items,
                      Branch.listdir (disk w') save_path = Ok items
                      /\ let folder :=
                           Branch.or_save_path
                             (Branch.find_extracted P (disk w') save_path
                                (fst fetched) items) save_path in
                         res = Branch.found_record
                                 (Branch.exe_found P (disk w') folder) folder
                                 (fst fetched))
       end.
Proof.
  unfold Branch.download_github_repo, Branch.download_github_repo_body,
    try_except, bind at 1.
  destruct (Branch.download_phase P repo_url cb w) as [[fetched|e] w1].
  - destruct (extract_phase_run P A save_path cb (fst fetched) (snd fetched) w1)
      as (r & w2 & Hrun & Hlog & Hdisk & Hrep & Hres).
    rewrite Hrun. destruct r as [res|e].
    + exists (Ok fetched), w1, res, w2.
      repeat split; auto. eexists. split; [exact Hrep |].
      right. apply Hres. reflexivity.
    + unfold bind. rewrite progress_run by exact _. unfold ret.
      eexists (Ok fetched), w1, _, _. split; [reflexivity |].
      split; [reflexivity |]. simpl. repeat split; auto.
      eexists. split.
      * rewrite Hrep, app_nil_r, <- app_assoc. reflexivity.
      * left. eexists. reflexivity.
  - unfold bind. rewrite progress_run by exact _. unfold ret.
    eexists (Raise e), w1, _, _. split; [reflexivity |].
    split; [reflexivity |]. simpl. repeat split; auto.
Qed.

End BranchRuns.

(** ** What the download phase leaves of the world *)

Section Preserved.
Context {D : Type} {X : Type} (f : world D -> X).

Lemma preserves_bind {A B} (m : M D A) (k : A -> M D B) :
  preserves f m -> (forall a, preserves f (k a)) -> preserves f (bind m k).
Proof.
  intros Hm Hk w. unfold bind. specialize (Hm w).
  destruct (m w) as [[a|e] w1]; simpl in *; [| exact Hm].
  rewrite Hk. exact Hm.
Qed.

Lemma preserves_try {A} (m : M D A) (h : exn -> M D A) :
  preserves f m -> (forall e, preserves f (h e)) -> preserves f (try_except m h).
Proof.
  intros Hm Hh w. unfold try_except. specialize (Hm w).
  destruct (m w) as [[a|e] w1]; simpl in *; [exact Hm |].
  rewrite Hh. exact Hm.
Qed.

Lemma preserves_ret {A} (a : A) : preserves f (ret a : M D A).
Proof. intros w. reflexivity. Qed.

Lemma preserves_lift {A} (r : result A) : preserves f (lift r : M D A).
Proof. intros w. reflexivity. Qed.

Lemma preserves_raise_for_status r : preserves f (raise_for_status r : M D unit).
Proof. intros w. unfold raise_for_status. destruct (status_error r); reflexivity. Qed.

Lemma preserves_declared_length P r : preserves f (declared_length P r : M D Z).
Proof. intros w. unfold declared_length. destruct (content_length r); reflexivity. Qed.

Lemma preserves_stream_end r : preserves f (Release.stream_end r : M D unit).
Proof. intros w. unfold Release.stream_end. destruct (body_error r); reflexivity. Qed.

End Preserved.

Lemma offline_progress {D} cb q msg : offline (progress cb q msg : M D unit).
Proof. intros w. rewrite progress_world. reflexivity. Qed.

Lemma progress_keeps_disk {D} cb q msg : preserves disk (progress cb q msg : M D unit).
Proof. intros w. rewrite progress_world. reflexivity. Qed.

Lemma preserves_read_chunks {X} (f : world Branch.tree_view -> X)
    cb repo_name total chunks :
  (forall q msg, preserves f (progress cb q msg)) ->
  forall downloaded buffer,
    preserves f (Branch.read_chunks cb repo_name total downloaded buffer chunks).
Proof.
  intros Hp. induction chunks as [|chunk rest IH]; intros downloaded buffer; simpl.
  - apply preserves_ret.
  - destruct chunk as [|b chunk']; [apply IH |].
    apply preserves_bind; [| intros _; apply IH].
    destruct (0 <? total)%Z; [apply Hp | apply preserves_ret].
Qed.

Lemma get_default_branch_keeps_disk {D} P repo_url :
  preserves disk (get_default_branch P repo_url : M D json).
Proof.
  unfold get_default_branch, get_default_branch_body.
  apply preserves_try; [| intros e; apply preserves_ret].
  destruct (PyRe.search _ _); [| apply preserves_ret].
  apply preserves_bind; [intros w; reflexivity | intros r].
  destruct (status_code r =? 200)%Z; [| apply preserves_ret].
  apply preserves_bind; [apply preserves_lift | intros d; apply preserves_lift].
Qed.

(** the download phase leaves the disk alone, whatever the callback does *)
Lemma download_phase_keeps_disk P repo_url cb :
  preserves disk (Branch.download_phase P repo_url cb).
Proof.
  unfold Branch.download_phase.
  apply preserves_bind; [apply get_default_branch_keeps_disk | intros branch].
  apply preserves_bind; [apply progress_keeps_disk | intros _].
  apply preserves_bind; [intros w; reflexivity | intros r].
  apply preserves_bind; [apply preserves_raise_for_status | intros _].
  apply preserves_bind; [apply preserves_declared_length | intros total].
  apply preserves_bind;
    [apply preserves_read_chunks; intros; apply progress_keeps_disk | intros buffer].
  apply preserves_bind; [apply preserves_stream_end | intros _; apply preserves_ret].
Qed.

(** lines 98 to 128 when they return: the disk is the one that the
    extraction left, and the record tells what is on it *)
Lemma extract_phase_found P A save_path cb repo_name buffer
    (w w' : world Branch.tree_view) res :
  Branch.extract_phase P A save_path cb repo_name buffer w = (Ok res, w') ->
  disk w' = fst (Branch.extractall A buffer save_path (disk w))
  /\ exists items,
       Branch.listdir (disk w') save_path = Ok items
       /\ let folder :=
            Branch.or_save_path
              (Branch.find_extracted P (disk w') save_path repo_name items)
              save_path in
          res = Branch.found_record (Branch.exe_found P (disk w') folder)
                  folder repo_name.
Proof.
  unfold Branch.extract_phase. intros H.
  apply bind_ok in H as (? & wa & Hp & H). apply progress_ok in Hp as ->.
  apply bind_ok in H as (? & wb & He & H).
  unfold Branch.extract in He. simpl in He.
  destruct (Branch.extractall A buffer save_path (disk w)) as [d [e|]];
    [discriminate He |].
  injection He as _ <-.
  apply bind_ok in H as (items & wc & Hl & H).
  unfold Branch.os_listdir in Hl. simpl in Hl.
  destruct (Branch.listdir d save_path) as [items'|e] eqn:Hld; [| discriminate Hl].
  injection Hl as -> <-.
  apply bind_ok in H as (d1 & wd & Hd & H).
  unfold Branch.the_disk in Hd. injection Hd as <- <-. simpl in H.
  apply bind_ok in H as (? & we & Hp & H). apply progress_ok in Hp as ->.
  apply bind_ok in H as (d2 & wf & Hd & H).
  unfold Branch.the_disk in Hd. injection Hd as <- <-. simpl in H.
  unfold ret in H. injection H as <- <-. simpl.
  split; [reflexivity |]. exists items. split; [exact Hld | reflexivity].
Qed.

(** the archive is requested once, after the branch is resolved, and the
    download phase does nothing else to the network or to the disk *)
Lemma download_phase_world P repo_url cb `{!Observer cb} (w : world Branch.tree_view) :
  exists branch w0 r1 w1,
    get_default_branch P repo_url w = (Ok branch, w0)
    /\ Branch.download_phase P repo_url cb w = (r1, w1)
    /\ net_log w1
       = (net_log w0
          ++ [archive_request (Branch.zip_url_of repo_url (py_str P branch))])%list
    /\ disk w1 = disk w.
Proof.
  destruct (returns_get_default_branch P repo_url w) as (branch & w0 & Hb).
  pose proof (get_default_branch_keeps_disk P repo_url w) as Hd0.
  rewrite Hb in Hd0; simpl in Hd0.
  destruct (Branch.download_phase P repo_url cb w) as [r1 w1] eqn:Hdl.
  exists branch, w0, r1, w1. split; [exact Hb |]. split; [reflexivity |].
  unfold Branch.download_phase in Hdl. unfold bind at 1 in Hdl. rewrite Hb in Hdl.
  unfold bind at 1 in Hdl. rewrite progress_run in Hdl by exact _.
  unfold bind at 1, requests_get at 1 in Hdl. simpl net_log in Hdl. simpl disk in Hdl.
  fold (archive_request (Branch.zip_url_of repo_url (py_str P branch))) in Hdl.
  destruct (http_get P _ _) as [response|e].
  2:{ injection Hdl as <- <-. split; [reflexivity | exact Hd0]. }
  match type of Hdl with
  | ?m ?w2 = _ =>
      assert (Hrest : forall X (f : world Branch.tree_view -> X),
                (forall q msg, preserves f (progress cb q msg)) ->
                f w1 = f w2)
  end.
  { intros X f Hp.
    match type of Hdl with
    | ?m ?w2 = _ =>
        assert (Hm : preserves f m);
          [| specialize (Hm w2); rewrite Hdl in Hm; exact Hm]
    end.
    repeat (apply preserves_bind; [| intros ?]);
      auto using preserves_raise_for_status, preserves_declared_length,
        preserves_read_chunks, preserves_stream_end, preserves_ret. }
  rewrite (Hrest _ net_log), (Hrest _ disk).
  - split; [reflexivity | exact Hd0].
  - intros q msg. apply progress_keeps_disk.
  - intros q msg. apply offline_progress.
Qed.

(** * The claims *)

(** ** C1: exceptions do not escape the fetchers *)

(** the [except] clauses: the callback is called, if there is one, and the
    value [a] is returned unless that call raises *)
Lemma except_clause_run {D A} cb f msg (a : A) (w : world D) :
  (progress cb f msg;; ret a) w
  = (after_callback (callback_raises cb (reports w) f msg) a,
     {| net_log := net_log w;
        reports := (reports w ++ delivered cb {| fraction := f; message := msg |})%list;
        disk := disk w |}).
Proof.
  destruct cb as [c|]; unfold bind; simpl.
  - unfold call. destruct (cb_raises c (reports w) f msg); reflexivity.
  - unfold ret. rewrite app_nil_r. destruct w; reflexivity.
Qed.

(** C1, as stated, fails, in two ways.  The callback is called in the
    [except] clause, outside any [try]: with a callback that raises, the
    connection being refused, the exception of the callback escapes from
    [download_latest_release] and from [download_github_repo].  And without
    a callback (the default of the parameter) [download_latest_release]
    returns [None] and no report was emitted at all, so none of 1.0 with a
    failure message: the guard [if progress_callback:] skips it. *)
Lemma callback_exception_escapes :
  let P := Script.platform_of [] in
  let w := Script.empty_world (∅ : gmap string bytes) in
  let boom := Raised "RuntimeError" "the window is closed" in
  fst (Release.download_latest_release P no_file_errors "octocat" "hello" "dest"
         (Some (always_raises boom)) w) = Raise boom
  /\ fst (Branch.download_github_repo P keep_disk "https://github.com/octocat/hello"
            "dest" (Some (always_raises boom)) empty_dest) = Raise boom
  /\ (let run := Release.download_latest_release P no_file_errors "octocat" "hello"
                   "dest" None w in
      (exists e w1,
         Release.download_latest_release_body P no_file_errors "octocat" "hello"
           "dest" None w = (Raise e, w1))
      /\ fst run = Ok None
      /\ reports (snd run) = []).
Proof.
  repeat split.
  eexists _, _. vm_compute. reflexivity.
Qed.

(** C1, amended: an exception raised in the [try] block of either fetcher
    does not escape the call, unless the callback raises when the [except]
    clause calls it.  When the block raises [e], the callback, if one was
    supplied, is called with 1.0 and the failure message (without a
    callback no report is emitted); if that call returns,
    [download_latest_release] returns [None] and [download_github_repo]
    returns a record whose status is "error" and whose "error" is the text
    of [e]; if that call raises, its exception is what the fetcher raises.
    With a callback that returns from every call both fetchers return. *)
Theorem fetchers_capture_exceptions
    (P : platform) (F : Release.file_io) (A : Branch.archive_io)
    (owner repo repo_url save_path : string) (cb : option callback)
    (w : world (gmap string bytes)) (v : world Branch.tree_view) :
  ((Observer cb ->
    exists res w',
      Release.download_latest_release P F owner repo save_path cb w = (Ok res, w'))
   /\ forall e w1,
      Release.download_latest_release_body P F owner repo save_path cb w
      = (Raise e, w1) ->
      let msg := "Failed to download release: " ++ exn_str P e in
      Release.download_latest_release P F owner repo save_path cb w
      = (after_callback (callback_raises cb (reports w1) 1.0 msg) None,
         {| net_log := net_log w1;
            reports :=
              (reports w1 ++ delivered cb {| fraction := 1.0; message := msg |})%list;
            disk := disk w1 |}))
  /\
  ((Observer cb ->
    exists res v',
      Branch.download_github_repo P A repo_url save_path cb v = (Ok res, v'))
   /\ forall e v1,
      Branch.download_github_repo_body P A repo_url save_path cb v
      = (Raise e, v1) ->
      let msg := "Failed to download " ++ repo_url ++ ": " ++ exn_str P e in
      exists res,
        res !! "status" = Some "error"
        /\ res !! "error" = Some (exn_str P e)
        /\ Branch.download_github_repo P A repo_url save_path cb v
           = (after_callback (callback_raises cb (reports v1) 1.0 msg) res,
              {| net_log := net_log v1;
                 reports :=
                   (reports v1
                    ++ delivered cb {| fraction := 1.0; message := msg |})%list;
                 disk := disk v1 |})).
Proof.
  split; split.
  - intros Hcb. apply returns_try. intros e. apply returns_progress_ret; exact _.
  - intros e w1 H msg. unfold Release.download_latest_release, try_except, bind at 1.
    rewrite H. apply except_clause_run.
  - intros Hcb. apply returns_try. intros e. apply returns_progress_ret; exact _.
  - intros e v1 H msg. exists (Branch.error_record (exn_str P e)).
    split; [apply error_record_status |].
    split; [apply error_record_error |].
    unfold Branch.download_github_repo, try_except. rewrite H.
    apply except_clause_run.
Qed.

(** the connection is refused while a callback listens: the run ends with
    the failure report *)
Lemma fetchers_capture_exceptions_witness :
  let P := Script.platform_of [] in
  let w := Script.empty_world (∅ : gmap string bytes) in
  (exists res w',
     Release.download_latest_release P no_file_errors "octocat" "hello" "dest"
       (Some Callback) w = (Ok res, w'))
  /\ exists e w1,
    Release.download_latest_release_body P no_file_errors "octocat" "hello" "dest"
      (Some Callback) w = (Raise e, w1)
    /\ Release.download_latest_release P no_file_errors "octocat" "hello" "dest"
         (Some Callback) w
       = (Ok None,
          {| net_log := net_log w1;
             reports :=
               (reports w1
                ++ [{| fraction := 1.0;
                       message := "Failed to download release: connection refused" |}])%list;
             disk := disk w1 |}).
Proof.
  intros P w.
  pose proof (proj1 (fetchers_capture_exceptions P no_file_errors
    {| Branch.extractall := fun _ _ d => (d, None) |}
    "octocat" "hello" "" "dest" (Some Callback) w
    (Script.empty_world (Disk.view Disk.posix_join "dest" (Disk.Dir []))))) as [Ht H].
  split; [apply Ht, observer_callback |].
  set (e := Raised "ConnectionError" "connection refused").
  set (w1 :=
    {| net_log :=
         [{| req_url := "https://api.github.com/repos/octocat/hello/releases/latest";
             req_timeout := Some 10%Z; req_stream := false |}];
       reports :=
         [{| fraction := 0.05; message := "Checking latest hello release..." |}];
       disk := (∅ : gmap string bytes) |}).
  assert (Hbody : Release.download_latest_release_body P no_file_errors "octocat"
                    "hello" "dest" (Some Callback) w = (Raise e, w1))
    by (vm_compute; reflexivity).
  exists e, w1. split; [exact Hbody | exact (H e w1 Hbody)].
Defined.

(** ** C8: get_default_branch is total *)

(** C8: [get_default_branch] always returns a value.  For a URL that the
    owner/repo pattern does not match the value is "main" and the world is
    unchanged: no request was sent.  Whenever the body raises, and whenever
    the response has a status other than 200, the value is "main". *)
Theorem get_default_branch_total {D : Type} (P : platform) (repo_url : string)
    (w : world D) :
  (exists branch w', get_default_branch P repo_url w = (Ok branch, w'))
  /\ (PyRe.search PyRe.owner_repo_pattern repo_url = None ->
      get_default_branch P repo_url w = (Ok (JStr "main"), w))
  /\ (forall e w1,
        get_default_branch_body P repo_url w = (Raise e, w1) ->
        get_default_branch P repo_url w = (Ok (JStr "main"), w1))
  /\ (forall groups response,
        PyRe.search PyRe.owner_repo_pattern repo_url = Some groups ->
        http_get P (List.length (net_log w)) (metadata_request groups) = Ok response ->
        status_code response <> 200%Z ->
        fst (get_default_branch P repo_url w) = Ok (JStr "main")).
Proof.
  repeat split.
  - apply returns_get_default_branch.
  - intros H. unfold get_default_branch, try_except, get_default_branch_body.
    rewrite H. reflexivity.
  - intros e w1 H. unfold get_default_branch, try_except. rewrite H. reflexivity.
  - intros groups response Hs Hg Hc.
    unfold get_default_branch, try_except, get_default_branch_body.
    rewrite Hs. unfold bind, requests_get. fold (metadata_request groups).
    rewrite Hg. apply Z.eqb_neq in Hc. rewrite Hc. reflexivity.
Qed.

(** a URL on another host; a refused connection; a 404 *)
Lemma get_default_branch_total_witness :
  get_default_branch (Script.platform_of []) "https://example.org/a/b"
    (Script.empty_world tt)
  = (Ok (JStr "main"), Script.empty_world tt)
  /\ fst (get_default_branch (Script.platform_of []) "https://github.com/a/b"
            (Script.empty_world tt)) = Ok (JStr "main")
  /\ fst (get_default_branch
            (Script.platform_of
               [Ok (Script.answer 404 None
                      (Ok (JObj [("default_branch", JStr "trunk")])) [] None)])
            "https://github.com/a/b" (Script.empty_world tt)) = Ok (JStr "main").
Proof.
  split; [| split].
  - apply (proj1 (proj2 (get_default_branch_total (Script.platform_of [])
             "https://example.org/a/b" (Script.empty_world tt)))).
    reflexivity.
  - pose proof (proj1 (proj2 (proj2 (get_default_branch_total
      (Script.platform_of []) "https://github.com/a/b" (Script.empty_world tt))))) as H.
    erewrite H; [reflexivity |]. vm_compute. reflexivity.
  - eapply (proj2 (proj2 (proj2 (get_default_branch_total _
             "https://github.com/a/b" (Script.empty_world tt))))).
    + reflexivity.
    + reflexivity.
    + discriminate.
Defined.

(** ** C3: the records that download_github_repo returns *)

(** C3: every value that [download_github_repo] returns is a record whose
    "status" is "ready", "no_installer" or "error"; with "ready" and
    "no_installer" the record has the fields "path" and "repo_name", with
    "error" it has the field "error".  With a callback that returns from
    every call, or with none, the function always returns such a record. *)
Theorem download_github_repo_record
    (P : platform) (A : Branch.archive_io) (repo_url save_path : string)
    (cb : option callback) (w : world Branch.tree_view) :
  (Observer cb ->
   exists (res : gmap string string) w',
     Branch.download_github_repo P A repo_url save_path cb w = (Ok res, w'))
  /\ forall (res : gmap string string) w',
       Branch.download_github_repo P A repo_url save_path cb w = (Ok res, w') ->
       ((res !! "status" = Some "ready" \/ res !! "status" = Some "no_installer")
        /\ is_Some (res !! "path") /\ is_Some (res !! "repo_name"))
       \/ (res !! "status" = Some "error" /\ is_Some (res !! "error")).
Proof.
  split.
  - intros Hcb. apply returns_try. intros e. apply returns_progress_ret; exact _.
  - intros res w' Hrun.
    unfold Branch.download_github_repo, try_except in Hrun.
    destruct (Branch.download_github_repo_body P A repo_url save_path cb w)
      as [[r|e] wb] eqn:Hbody.
    + injection Hrun as -> ->. left.
      unfold Branch.download_github_repo_body in Hbody.
      apply bind_ok in Hbody as (fetched & w1 & _ & Hex).
      apply extract_phase_found in Hex as (_ & items & _ & Hres).
      simpl in Hres. rewrite Hres.
      rewrite found_record_status, found_record_path, found_record_repo_name.
      split; [destruct (Branch.exe_found _ _ _); auto | eauto].
    + apply bind_ok in Hrun as (? & ? & _ & Hrun). unfold ret in Hrun.
      injection Hrun as <- _. right.
      rewrite error_record_status, error_record_error. eauto.
Qed.

(** the archive of the examples arrives and is unpacked: the record is
    "ready" *)
Lemma download_github_repo_record_witness :
  exists res w',
    Branch.download_github_repo (Script.platform_of archive_answers)
      (unpack with_installer) "https://github.com/octocat/hello" "dest"
      (Some Callback) empty_dest = (Ok res, w')
    /\ (((res !! "status" = Some "ready" \/ res !! "status" = Some "no_installer")
         /\ is_Some (res !! "path") /\ is_Some (res !! "repo_name"))
        \/ (res !! "status" = Some "error" /\ is_Some (res !! "error"))).
Proof.
  destruct (download_github_repo_record (Script.platform_of archive_answers)
              (unpack with_installer) "https://github.com/octocat/hello" "dest"
              (Some Callback) empty_dest) as [Hreturns Hrecord].
  destruct (Hreturns observer_callback) as (res & w' & Hrun).
  exists res, w'. split; [exact Hrun | exact (Hrecord res w' Hrun)].
Defined.

(** ** C6: the fractions passed to the callback *)

Lemma delivered_in_unit_interval cb f msg :
  Qle_bool 0 f = true -> Qle_bool f 1 = true ->
  Forall in_unit_interval (delivered cb {| fraction := f; message := msg |}).
Proof.
  intros H0 H1. destruct cb; simpl; repeat constructor;
    simpl; apply Qle_bool_iff; assumption.
Qed.

Lemma release_reports (P : platform) (F : Release.file_io)
    (owner repo save_path : string) (cb : option callback)
    (w : world (gmap string bytes)) :
  exists pre msg,
    reports (snd (Release.download_latest_release P F owner repo save_path cb w))
    = (reports w ++ pre ++ delivered cb {| fraction := 1.0; message := msg |})%list
    /\ Forall in_unit_interval pre.
Proof.
  unfold Release.download_latest_release, try_except, bind at 1.
  destruct (Release.download_latest_release_body P F owner repo save_path cb w)
    as [[local_file|e] w1] eqn:Hbody.
  - destruct (ok_ends_release_body P F owner repo save_path cb _ _ _ Hbody)
      as [pre [E Hpre]].
    exists pre. eexists. split; [exact E | exact Hpre].
  - destruct (emits_release_body P F owner repo save_path cb w) as [pre [E Hpre]].
    rewrite Hbody in E; simpl in E.
    rewrite except_clause_run. exists pre. eexists. simpl.
    rewrite E, <- app_assoc. split; [reflexivity | exact Hpre].
Qed.

Lemma branch_reports (P : platform) (A : Branch.archive_io)
    (repo_url save_path : string) (cb : option callback)
    (v : world Branch.tree_view) :
  exists pre msg,
    reports (snd (Branch.download_github_repo P A repo_url save_path cb v))
    = (reports v ++ pre ++ delivered cb {| fraction := 1.0; message := msg |})%list
    /\ Forall in_unit_interval pre.
Proof.
  unfold Branch.download_github_repo, try_except.
  destruct (Branch.download_github_repo_body P A repo_url save_path cb v)
    as [[res|e] v1] eqn:Hbody.
  - unfold Branch.download_github_repo_body in Hbody.
    apply bind_ok in Hbody as (fetched & v0 & Hdl & Hex).
    destruct (emits_download_phase_unit P repo_url cb v) as [dl [E Hdl']].
    rewrite Hdl in E; simpl in E.
    apply extract_phase_ok_reports in Hex.
    eexists (dl ++ delivered cb _)%list. eexists. simpl. split.
    + rewrite Hex, E, <- !app_assoc. reflexivity.
    + apply Forall_app. split; [exact Hdl' |].
      apply delivered_in_unit_interval; reflexivity.
  - destruct (emits_branch_body P A repo_url save_path cb v) as [pre [E Hpre]].
    rewrite Hbody in E; simpl in E.
    rewrite except_clause_run. exists pre. eexists. simpl.
    rewrite E, <- app_assoc. split; [reflexivity | exact Hpre].
Qed.

(** C6: in every call of either fetcher, whatever the callback does, the
    fractions passed to the callback lie in [0, 1], and if a callback was
    supplied it has been invoked with the fraction 1.0 by the end of the
    call -- whatever length the response declared, so also when it declared
    0 or none.  With a callback that returns from every call, or with none,
    every call completes. *)
Theorem progress_fractions
    (P : platform) (F : Release.file_io) (A : Branch.archive_io)
    (owner repo repo_url save_path : string) (cb : option callback)
    (w : world (gmap string bytes)) (v : world Branch.tree_view) :
  ((Observer cb ->
    exists res w',
      Release.download_latest_release P F owner repo save_path cb w = (Ok res, w'))
   /\ exists new,
        reports (snd (Release.download_latest_release P F owner repo save_path cb w))
        = (reports w ++ new)%list
        /\ Forall in_unit_interval new
        /\ (is_Some cb -> exists msg, In {| fraction := 1.0; message := msg |} new))
  /\
  ((Observer cb ->
    exists res v',
      Branch.download_github_repo P A repo_url save_path cb v = (Ok res, v'))
   /\ exists new,
        reports (snd (Branch.download_github_repo P A repo_url save_path cb v))
        = (reports v ++ new)%list
        /\ Forall in_unit_interval new
        /\ (is_Some cb -> exists msg, In {| fraction := 1.0; message := msg |} new)).
Proof.
  split; split.
  - intros Hcb. apply returns_try. intros e. apply returns_progress_ret; exact _.
  - destruct (release_reports P F owner repo save_path cb w)
      as (pre & msg & E & Hpre).
    exists (pre ++ delivered cb {| fraction := 1.0; message := msg |})%list.
    split; [exact E |]. split.
    + apply Forall_app. split; [exact Hpre |].
      apply delivered_in_unit_interval; reflexivity.
    + intros [c ->]. exists msg. apply in_or_app. right. left. reflexivity.
  - intros Hcb. apply returns_try. intros e. apply returns_progress_ret; exact _.
  - destruct (branch_reports P A repo_url save_path cb v)
      as (pre & msg & E & Hpre).
    exists (pre ++ delivered cb {| fraction := 1.0; message := msg |})%list.
    split; [exact E |]. split.
    + apply Forall_app. split; [exact Hpre |].
      apply delivered_in_unit_interval; reflexivity.
    + intros [c ->]. exists msg. apply in_or_app. right. left. reflexivity.
Qed.

Lemma progress_fractions_witness :
  exists res w' new msg,
    Release.download_latest_release
      (Script.platform_of
         [Ok (Script.answer 200 None (Ok sample_release) [] None);
          Ok (Script.answer 200 None (Ok JNull) two_chunks None)])
      no_file_errors "octocat" "hello" "dest" (Some Callback)
      (Script.empty_world ∅) = (Ok res, w')
    /\ reports w' = new
    /\ In {| fraction := 1.0; message := msg |} new.
Proof.
  destruct (proj1 (progress_fractions
    (Script.platform_of
       [Ok (Script.answer 200 None (Ok sample_release) [] None);
        Ok (Script.answer 200 None (Ok JNull) two_chunks None)])
    no_file_errors {| Branch.extractall := fun _ _ d => (d, None) |}
    "octocat" "hello" "" "dest" (Some Callback) (Script.empty_world ∅)
    (Script.empty_world (Disk.view Disk.posix_join "dest" (Disk.Dir [])))))
    as [Hreturns (new & Hrep & _ & H1)].
  destruct (Hreturns observer_callback) as (res & w' & Hrun).
  destruct (H1 (ex_intro _ Callback eq_refl)) as [msg Hmsg].
  rewrite Hrun in Hrep. simpl in Hrep.
  exists res, w', new, msg. split; [exact Hrun |]. split; [exact Hrep | exact Hmsg].
Defined.

(** ** C7: the download phase, then "extracting", then the end *)




(** ** C4: the installer is looked for in the walk of the extracted folder *)

Lemma has_installer_spec P names :
  Branch.has_installer P names = true <->
  exists name, In name names /\ py_lower P name = "installerready.exe".
Proof.
  unfold Branch.has_installer. rewrite existsb_exists. split.
  - intros (x & Hin & Heq). apply in_map_iff in Hin as (name & <- & Hname).
    apply String.eqb_eq in Heq. eauto.
  - intros (name & Hname & Heq). exists (py_lower P name). split.
    + apply in_map. exact Hname.
    + apply String.eqb_eq. symmetry. exact Heq.
Qed.

Lemma exe_found_spec P d folder :
  Branch.exe_found P d folder = true <-> walk_has_installer P d folder.
Proof.
  unfold Branch.exe_found, walk_has_installer. rewrite existsb_exists. split.
  - intros ([[root dirs] names] & Hin & Hhas).
    apply has_installer_spec in Hhas as (name & Hname & Heq).
    exists root, dirs, names, name. auto.
  - intros (root & dirs & names & name & Hin & Hname & Heq).
    exists (root, dirs, names). split; [exact Hin |].
    apply has_installer_spec. eauto.
Qed.

Lemma download_phase_name P repo_url cb (w : world Branch.tree_view) fetched w1 :
  Branch.download_phase P repo_url cb w = (Ok fetched, w1) ->
  fst fetched = get_repo_name repo_url.
Proof.
  unfold Branch.download_phase. intros H.
  repeat (apply bind_ok in H as (? & ? & _ & H)).
  injection H as <- _. reflexivity.
Qed.

(** a run that does not end in "error": the disk is the one that the
    extraction left, and the record tells what is on it *)
Lemma download_github_repo_found P A repo_url save_path cb w res w' :
  Branch.download_github_repo P A repo_url save_path cb w = (Ok res, w') ->
  res !! "status" <> Some "error" ->
  exists buffer items,
    disk w' = fst (Branch.extractall A buffer save_path (disk w))
    /\ Branch.listdir (disk w') save_path = Ok items
    /\ let folder :=
         Branch.or_save_path
           (Branch.find_extracted P (disk w') save_path (get_repo_name repo_url) items)
           save_path in
       res = Branch.found_record (Branch.exe_found P (disk w') folder) folder
               (get_repo_name repo_url).
Proof.
  intros Hrun Hne.
  unfold Branch.download_github_repo, try_except in Hrun.
  destruct (Branch.download_github_repo_body P A repo_url save_path cb w)
    as [[r|e] wb] eqn:Hbody.
  - injection Hrun as -> ->.
    unfold Branch.download_github_repo_body in Hbody.
    apply bind_ok in Hbody as (fetched & w1 & Hdl & Hex).
    pose proof (download_phase_keeps_disk P repo_url cb w) as Hdisk1.
    rewrite Hdl in Hdisk1. simpl in Hdisk1.
    apply extract_phase_found in Hex as (Hdisk & items & Hl & Hres).
    rewrite (download_phase_name _ _ _ _ _ _ Hdl) in Hres.
    exists (snd fetched), items. rewrite <- Hdisk1.
    split; [exact Hdisk |]. split; [exact Hl | exact Hres].
  - apply bind_ok in Hrun as (? & ? & _ & Hrun). unfold ret in Hrun.
    injection Hrun as <- _. exfalso. apply Hne, error_record_status.
Qed.

(** C4: when [download_github_repo] gets through the extraction (its status
    is not "error"), the disk is the one that the extraction left, and the
    status is "ready" if and only if the walk of the extracted folder has a
    file whose name, put in lower case by [str.lower], is
    "installerready.exe"; it is "no_installer" if and only if the walk has
    no such file.  This holds whatever the callback does. *)
Theorem installer_detection
    (P : platform) (A : Branch.archive_io) (repo_url save_path : string)
    (cb : option callback) (w w' : world Branch.tree_view)
    (res : gmap string string) :
  Branch.download_github_repo P A repo_url save_path cb w = (Ok res, w') ->
  res !! "status" <> Some "error" ->
  exists buffer folder,
    disk w' = fst (Branch.extractall A buffer save_path (disk w))
    /\ res !! "path" = Some folder
    /\ (res !! "status" = Some "ready" <-> walk_has_installer P (disk w') folder)
    /\ (res !! "status" = Some "no_installer" <-> ~ walk_has_installer P (disk w') folder).
Proof.
  intros Hrun Hne.
  destruct (download_github_repo_found _ _ _ _ _ _ _ _ Hrun Hne)
    as (buffer & items & Hdisk & _ & Hres).
  simpl in Hres. exists buffer. eexists. split; [exact Hdisk |].
  rewrite Hres at 1. split; [apply found_record_path |].
  rewrite Hres, found_record_status, <- exe_found_spec.
  destruct (Branch.exe_found _ _ _); split; split; intros H;
    try reflexivity; try discriminate H; try congruence.
Qed.

Lemma installer_detection_witness :
  exists res w',
    Branch.download_github_repo (Script.platform_of archive_answers)
      (unpack with_installer) "https://github.com/octocat/hello" "dest" None
      empty_dest = (Ok res, w')
    /\ res !! "path" = Some "dest/hello-main"
    /\ res !! "status" = Some "ready".
Proof.
  destruct (Branch.download_github_repo (Script.platform_of archive_answers)
      (unpack with_installer) "https://github.com/octocat/hello" "dest" None
      empty_dest) as [[res|e] w'] eqn:Hrun.
  2:{ vm_compute in Hrun. discriminate Hrun. }
  pose proof Hrun as Hval. vm_compute in Hval. injection Hval as Hres Hw.
  assert (Hne : res !! "status" <> Some "error").
  { rewrite <- Hres. vm_compute. discriminate. }
  destruct (installer_detection _ _ _ _ _ _ _ _ Hrun Hne)
    as (buffer & folder & _ & Hpath & Hready & _).
  assert (Hfolder : folder = "dest/hello-main").
  { rewrite <- Hres in Hpath. vm_compute in Hpath. congruence. }
  subst folder.
  exists res, w'. split; [reflexivity |]. split; [exact Hpath |].
  apply Hready.
  exists "dest/hello-main/sub/dir", [], ["InstallerReady.EXE"], "InstallerReady.EXE".
  rewrite <- Hw. vm_compute. auto.
Defined.

(** ** C5: the extracted folder *)






(** ** C2: the repository name *)

(** *** The pattern on a well-formed address *)

Section Pattern.
#[local] Arguments String.append : simpl nomatch.

(** the two equations of [[^c]+] *)
Lemma plus_not_empty c p cur done :
  PyRe.match_here (PyRe.PlusNot c :: p) cur done "" = None.
Proof. reflexivity. Qed.

Lemma plus_not_cons c p cur done a s :
  PyRe.match_here (PyRe.PlusNot c :: p) cur done (String a s)
  = if Ascii.eqb a c then None
    else match PyRe.match_here (PyRe.PlusNot c :: p) (PyRe.push a cur) done s with
         | Some groups => Some groups
         | None => PyRe.match_here p (PyRe.push a cur) done s
         end.
Proof. reflexivity. Qed.

(** [[^/]+/] outside a group takes a whole segment and its slash *)
Lemma owner_segment p done owner t :
  owner <> "" -> no_slash owner ->
  PyRe.match_here (PyRe.PlusNot "/" :: PyRe.Lit "/" :: p) None done
    (owner ++ String "/" t)
  = PyRe.match_here p None done t.
Proof.
  induction owner as [|a owner IH]; intros Hne Hs; [congruence |].
  destruct Hs as [Ha Hs].
  change (String a owner ++ String "/" t) with (String a (owner ++ String "/" t)).
  rewrite plus_not_cons.
  destruct (Ascii.eqb a "/") eqn:E; [apply Ascii.eqb_eq in E; congruence |].
  change (PyRe.push a None) with (@None string).
  destruct owner as [|b owner].
  - reflexivity.
  - rewrite IH by (auto; discriminate).
    destruct (PyRe.match_here p None done t); [reflexivity |].
    destruct Hs as [Hb _]. simpl.
    destruct (Ascii.eqb b "/") eqn:E'; [apply Ascii.eqb_eq in E'; congruence |].
    reflexivity.
Qed.

Lemma rev_app_rev_app (a b c : string) :
  String.rev_app (String.rev_app a b) c = String.rev_app b (a ++ c).
Proof.
  revert b c. induction a as [|x a IH]; intros b c; simpl; [reflexivity |].
  rewrite IH. reflexivity.
Qed.

(** [([^/]+)] at the end of the pattern captures a whole segment *)
Lemma repo_segment done repo rest acc :
  repo <> "" -> no_slash repo ->
  rest = "" \/ (exists r, rest = String "/" r) ->
  PyRe.match_here [PyRe.PlusNot "/"; PyRe.Close] (Some acc) done (repo ++ rest)
  = Some (List.rev (String.rev (String.rev_app repo acc) :: done)).
Proof.
  intros Hne Hs Hrest. revert acc Hne Hs.
  induction repo as [|a repo IH]; intros acc Hne Hs; [congruence |].
  destruct Hs as [Ha Hs].
  change (String a repo ++ rest) with (String a (repo ++ rest)).
  rewrite plus_not_cons.
  destruct (Ascii.eqb a "/") eqn:E; [apply Ascii.eqb_eq in E; congruence |].
  change (PyRe.push a (Some acc)) with (Some (String a acc)).
  destruct repo as [|b repo].
  - simpl. destruct Hrest as [-> | [r ->]]; reflexivity.
  - rewrite IH by (auto; discriminate). reflexivity.
Qed.

Lemma string_rev_rev (s : string) : String.rev (String.rev s) = s.
Proof.
  unfold String.rev. rewrite rev_app_rev_app. simpl.
  induction s as [|x s IH]; simpl; [reflexivity | f_equal; exact IH].
Qed.

Lemma search_skip p a s :
  PyRe.match_here p None [] (String a s) = None ->
  PyRe.search p (String a s) = PyRe.search p s.
Proof. intros H. simpl. rewrite H. reflexivity. Qed.

Lemma search_here p s groups :
  PyRe.match_here p None [] s = Some groups -> PyRe.search p s = Some groups.
Proof. intros H. destruct s; simpl; rewrite H; reflexivity. Qed.

Lemma string_app_cons a (s t : string) : String a s ++ t = String a (s ++ t).
Proof. reflexivity. Qed.

Lemma string_app_nil_l (t : string) : "" ++ t = t.
Proof. reflexivity. Qed.

(** On "https://github.com/<owner>/<repo>", followed by nothing or by a
    slash and more, the name is the segment <repo> with every ".git"
    removed. *)
Lemma get_repo_name_https owner repo rest :
  owner <> "" -> no_slash owner -> repo <> "" -> no_slash repo ->
  rest = "" \/ (exists r, rest = String "/" r) ->
  get_repo_name ("https://github.com/" ++ owner ++ "/" ++ repo ++ rest)
  = PyStr.replace ".git" "" repo.
Proof.
  intros Ho Hso Hr Hsr Hrest. unfold get_repo_name.
  assert (Hs : PyRe.search PyRe.repo_pattern
                 ("https://github.com/" ++ owner ++ "/" ++ repo ++ rest)
               = Some [repo]).
  { rewrite !string_app_cons, !string_app_nil_l.
    do 8 (rewrite search_skip by reflexivity).
    apply search_here.
    change (PyRe.match_here
              [PyRe.PlusNot "/"; PyRe.Lit "/"; PyRe.Open; PyRe.PlusNot "/"; PyRe.Close]
              None [] (owner ++ String "/" (repo ++ rest)) = Some [repo]).
    rewrite owner_segment by assumption.
    change (PyRe.match_here [PyRe.PlusNot "/"; PyRe.Close] (Some "") [] (repo ++ rest)
            = Some [repo]).
    rewrite repo_segment by assumption.
    change (Some [String.rev (String.rev repo)] = Some [repo]).
    rewrite string_rev_rev. reflexivity. }
  rewrite Hs. reflexivity.
Qed.

End Pattern.

(** *** Where [replace] does what a suffix removal would do *)

Section Replace.
#[local] Arguments String.append : simpl nomatch.

Lemma replace_from_skip old new u t :
  PyStr.replace_from old new (String.length u) (u ++ t) = PyStr.replace_from old new 0 t.
Proof. induction u as [|x u IH]; simpl; [reflexivity | exact IH]. Qed.

Lemma replace_from_match c old new t :
  PyStr.replace_from (String c old) new 0 (String c old ++ t)
  = new ++ PyStr.replace_from (String c old) new 0 t.
Proof.
  assert (H : PyStr.startswith (String c old) (String c old ++ t) = true)
    by (apply startswith_spec; eauto).
  change (String c old ++ t) with (String c (old ++ t)) in *.
  cbn [PyStr.replace_from]. rewrite H.
  cbn [String.length]. rewrite Nat.sub_1_r. cbn [Nat.pred].
  rewrite replace_from_skip. reflexivity.
Qed.

Lemma occurs_tail sep a s : occurs sep s -> occurs sep (String a s).
Proof. intros (b & t & ->). exists (String a b), t. reflexivity. Qed.

Lemma occurs_head sep s : PyStr.startswith sep s = true -> occurs sep s.
Proof. intros H. apply startswith_spec in H as [t ->]. exists "", t. reflexivity. Qed.

(** a string without [old] is left as it is *)
Lemma replace_without_occurrence old new s :
  ~ occurs old s -> PyStr.replace old new s = s.
Proof.
  unfold PyStr.replace. induction s as [|a s IH]; intros Hno; [reflexivity |].
  cbn [PyStr.replace_from].
  destruct (PyStr.startswith old (String a s)) eqn:Hs.
  - exfalso. apply Hno, occurs_head, Hs.
  - rewrite IH; [reflexivity |]. intros H. apply Hno, occurs_tail, H.
Qed.

(** ".git" does not start inside a name and end in the ".git" after it *)
Lemma dot_git_not_astride name :
  name <> "" -> ~ occurs ".git" name ->
  PyStr.startswith ".git" (name ++ ".git") = false.
Proof.
  intros Hne Hno. destruct (PyStr.startswith ".git" (name ++ ".git")) eqn:Hs;
    [| reflexivity].
  exfalso. apply startswith_spec in Hs as [t Ht].
  destruct name as [|a name]; [congruence |].
  simpl in Ht. injection Ht as -> Ht.
  destruct name as [|b name]; [discriminate Ht |].
  simpl in Ht. injection Ht as -> Ht.
  destruct name as [|c name]; [discriminate Ht |].
  simpl in Ht. injection Ht as -> Ht.
  destruct name as [|d name]; [discriminate Ht |].
  simpl in Ht. injection Ht as -> Ht.
  apply Hno. exists "", name. reflexivity.
Qed.

(** a trailing ".git" is removed from a name that has no other *)
Lemma replace_trailing_dot_git name :
  ~ occurs ".git" name -> PyStr.replace ".git" "" (name ++ ".git") = name.
Proof.
  unfold PyStr.replace. induction name as [|a name IH]; intros Hno; [reflexivity |].
  change (String a name ++ ".git") with (String a (name ++ ".git")).
  cbn [PyStr.replace_from].
  change (String a (name ++ ".git")) with (String a name ++ ".git") at 1.
  rewrite dot_git_not_astride by (auto; discriminate).
  rewrite IH; [reflexivity |]. intros H. apply Hno, occurs_tail, H.
Qed.

Lemma no_slash_app a b : no_slash a -> no_slash b -> no_slash (a ++ b).
Proof. induction a as [|x a IH]; simpl; [auto | intros [Hx Ha] Hb; auto]. Qed.

(** the clone address of a repository whose name holds no ".git" *)
Lemma get_repo_name_clone owner name :
  owner <> "" -> no_slash owner -> no_slash name -> ~ occurs ".git" name ->
  get_repo_name ("https://github.com/" ++ owner ++ "/" ++ name ++ ".git") = name.
Proof.
  intros Ho Hso Hsn Hno.
  replace (name ++ ".git") with ((name ++ ".git") ++ "") by apply string_app_nil_r.
  rewrite get_repo_name_https; auto.
  - apply replace_trailing_dot_git, Hno.
  - destruct name; discriminate.
  - apply no_slash_app; [exact Hsn |]. simpl. repeat split; discriminate.
Qed.

(** the address of a repository whose name holds no ".git" *)
Lemma get_repo_name_plain owner name :
  owner <> "" -> no_slash owner -> name <> "" -> no_slash name ->
  ~ occurs ".git" name ->
  get_repo_name ("https://github.com/" ++ owner ++ "/" ++ name) = name.
Proof.
  intros Ho Hso Hn Hsn Hno.
  replace name with (name ++ "") at 1 by apply string_app_nil_r.
  rewrite get_repo_name_https; auto.
  apply replace_without_occurrence, Hno.
Qed.

End Replace.

(** *** The claim *)

Lemma get_repo_name_placeholder repo_url :
  PyRe.search PyRe.repo_pattern repo_url = None ->
  get_repo_name repo_url = "downloaded_repo".
Proof. unfold get_repo_name. intros ->. reflexivity. Qed.

Lemma get_repo_name_match repo_url groups :
  PyRe.search PyRe.repo_pattern repo_url = Some groups ->
  get_repo_name repo_url = PyStr.replace ".git" "" (group1 groups).
Proof. unfold get_repo_name. intros ->. reflexivity. Qed.

Example get_repo_name_clone_url :
  get_repo_name "https://github.com/octocat/hello.git" = "hello".
Proof. reflexivity. Qed.

(** C2 does not hold of the code: [replace(".git", "")] removes every
    occurrence of ".git", not a trailing one only.  The repository
    octocat.github.io gets the name octocathub.io, and the name derived for
    the segment a.g.gitit is a.git, which ends in ".git". *)
Theorem get_repo_name_removes_every_dot_git :
  get_repo_name "https://github.com/octocat/octocat.github.io" = "octocathub.io"
  /\ get_repo_name "https://github.com/octocat/a.g.gitit" = "a.git".
Proof. split; reflexivity. Qed.

(** ** C10: a transfer that breaks leaves the partial file *)

Section PartialFile.
Context (P : platform) (F : Release.file_io).


Lemma locate_asset_file owner repo save_path cb w download_url asset_name local_file w1 :
  Release.locate_asset P owner repo save_path cb w
  = (Ok (download_url, asset_name, local_file), w1) ->
  local_file = path_join P save_path (py_str P asset_name).
Proof.
  unfold Release.locate_asset. intros H.
  repeat (apply bind_ok in H as (? & ? & _ & H)).
  destruct (negb (truthy _)); [discriminate H |].
  do 3 (apply bind_ok in H as (? & ? & _ & H)).
  apply bind_ok in H as (name & ? & _ & H).
  apply bind_ok in H as (file & ? & Hjoin & H).
  apply bind_ok in H as (? & ? & _ & H).
  injection H as _ <- <- _.
  unfold lift, Release.join_asset in Hjoin.
  destruct name; try discriminate Hjoin.
  injection Hjoin as <- _. reflexivity.
Qed.


End PartialFile.


(** ** C9: the address of the archive *)

(** *** The requests of the branch fetcher *)

(** the archive request is the last request of the call *)
Lemma download_github_repo_requests P A repo_url save_path cb `{!Observer cb} w :
  exists branch w0,
    get_default_branch P repo_url w = (Ok branch, w0)
    /\ net_log (snd (Branch.download_github_repo P A repo_url save_path cb w))
       = (net_log w0
          ++ [archive_request (Branch.zip_url_of repo_url (py_str P branch))])%list.
Proof.
  destruct (download_phase_world P repo_url cb w)
    as (branch & w0 & r1 & w1 & Hb & Hdl & Hlog1 & _).
  exists branch, w0. split; [exact Hb |].
  destruct (download_github_repo_run P A repo_url save_path cb w)
    as (r1' & w1' & res & w' & Hdl' & Hrun & Hlog & _).
  rewrite Hdl in Hdl'. injection Hdl' as <- <-.
  rewrite Hrun. simpl. rewrite Hlog. exact Hlog1.
Qed.

(** C9: the archive is requested at "https://github.com/", then the part of
    [repo_url] that follows its last occurrence of "github.com/", as it is
    written there, then "/archive/refs/heads/", the branch that
    [get_default_branch] returned, and ".zip".  The address is made from the
    input string, not from the groups of the pattern.
    The callback, if one was given, returns from every call ([Observer]). *)
Theorem archive_url_from_input
    (P : platform) (A : Branch.archive_io) (repo_url save_path : string)
    (cb : option callback) `{!Observer cb} (w : world Branch.tree_view) (before tail : string) :
  last_occurrence "github.com/" repo_url before tail ->
  exists branch w0,
    get_default_branch P repo_url w = (Ok branch, w0)
    /\ net_log (snd (Branch.download_github_repo P A repo_url save_path cb w))
       = (net_log w0
          ++ [{| req_url := "https://github.com/" ++ tail ++ "/archive/refs/heads/"
                            ++ py_str P branch ++ ".zip";
                 req_timeout := None;
                 req_stream := true |}])%list.
Proof.
  intros Hlast.
  destruct (download_github_repo_requests P A repo_url save_path cb w)
    as (branch & w0 & Hb & Hlog).
  exists branch, w0. split; [exact Hb |].
  rewrite Hlog. unfold archive_request, Branch.zip_url_of.
  rewrite (split_at_last_occurrence _ _ _ Hlast). reflexivity.
Qed.

Section ArchiveExample.
#[local] Arguments String.append : simpl nomatch.

(** in "https://github.com/Owner/Repo/" the separator occurs once, after
    "https://" *)
Lemma trailing_slash_last_occurrence :
  last_occurrence "github.com/" "https://github.com/Owner/Repo/" "https://" "Owner/Repo/".
Proof.
  split; [reflexivity |].
  intros b t H.
  repeat (destruct b as [|? b];
          [simpl in *; first [discriminate H | lia]
          | simpl in H; injection H as _ H]).
  destruct b; simpl in H; discriminate H.
Qed.

(** the trailing slash of the input is kept in the address of the archive,
    while the metadata request is made from the groups of the pattern *)
Lemma archive_url_from_input_witness :
  net_log
    (snd (Branch.download_github_repo (Script.platform_of archive_answers) keep_disk
            "https://github.com/Owner/Repo/" "dest" None empty_dest))
  = [{| req_url := "https://api.github.com/repos/Owner/Repo";
        req_timeout := Some 10%Z; req_stream := false |};
     {| req_url := "https://github.com/Owner/Repo//archive/refs/heads/main.zip";
        req_timeout := None; req_stream := true |}].
Proof.
  destruct (archive_url_from_input (Script.platform_of archive_answers) keep_disk
              "https://github.com/Owner/Repo/" "dest" None empty_dest
              "https://" "Owner/Repo/" trailing_slash_last_occurrence)
    as (branch & w0 & Hb & Hlog).
  vm_compute in Hb. injection Hb as <- <-.
  rewrite Hlog. reflexivity.
Defined.

End ArchiveExample.

(** * Further properties of the code *)

(** ** The patterns read as a parser *)

Section PatternParser.
#[local] Arguments String.append : simpl nomatch.

Lemma pushes_cons a seg cur : pushes (String a seg) cur = pushes seg (PyRe.push a cur).
Proof. destruct cur; reflexivity. Qed.

Lemma segment_no_slash s : no_slash (fst (segment s)).
Proof.
  induction s as [|a s IH]; simpl; [exact I |].
  destruct (Ascii.eqb a "/") eqn:E; simpl; [exact I |].
  destruct (segment s) as [seg rest]. simpl in *. split; [| exact IH].
  intros ->. discriminate E.
Qed.

Lemma segment_app s : s = fst (segment s) ++ snd (segment s).
Proof.
  induction s as [|a s IH]; simpl; [reflexivity |].
  destruct (Ascii.eqb a "/"); [reflexivity |].
  destruct (segment s) as [seg rest]. simpl in *. rewrite IH at 1. reflexivity.
Qed.

Lemma segment_rest s : snd (segment s) = "" \/ exists r, snd (segment s) = String "/" r.
Proof.
  induction s as [|a s IH]; simpl; [auto |].
  destruct (Ascii.eqb a "/") eqn:E.
  - apply Ascii.eqb_eq in E. subst a. simpl. eauto.
  - destruct (segment s) as [seg rest]. exact IH.
Qed.

(** [[^/]+] before a part that needs a slash takes the whole segment *)
Lemma plus_then q cur done s :
  needs_slash q ->
  PyRe.match_here (PyRe.PlusNot "/" :: q) cur done s
  = match fst (segment s) with
    | EmptyString => None
    | String _ _ => PyRe.match_here q (pushes (fst (segment s)) cur) done (snd (segment s))
    end.
Proof.
  intros Hq. revert cur. induction s as [|a s IH]; intros cur; [reflexivity |].
  rewrite plus_not_cons. simpl segment.
  destruct (Ascii.eqb a "/") eqn:E; [reflexivity |].
  rewrite IH. destruct (segment s) as [seg rest] eqn:Hseg. simpl fst; simpl snd.
  rewrite pushes_cons.
  destruct seg as [|b seg].
  - (* the segment ends here *)
    pose proof (segment_app s) as Happ. rewrite Hseg in Happ. simpl in Happ.
    rewrite <- Happ. destruct cur; reflexivity.
  - destruct (PyRe.match_here q _ done rest) eqn:Hm; [reflexivity |].
    destruct s as [|b' s'].
    + discriminate Hseg.
    + simpl in Hseg. destruct (Ascii.eqb b' "/") eqn:E'; [discriminate Hseg |].
      apply Hq. intros ->. discriminate E'.
Qed.

(** [([^/]+)] at the end of the pattern takes the whole segment *)
Lemma plus_last cur done s :
  PyRe.match_here [PyRe.PlusNot "/"; PyRe.Close] cur done s
  = match fst (segment s) with
    | EmptyString => None
    | String _ _ =>
        Some (List.rev (String.rev (default "" (pushes (fst (segment s)) cur)) :: done))
    end.
Proof.
  revert cur. induction s as [|a s IH]; intros cur; [reflexivity |].
  rewrite plus_not_cons. simpl segment.
  destruct (Ascii.eqb a "/") eqn:E; [reflexivity |].
  rewrite IH. destruct (segment s) as [seg rest]. simpl fst.
  rewrite pushes_cons.
  destruct seg as [|b seg]; [| reflexivity].
  destruct cur; reflexivity.
Qed.

Lemma lit_needs_slash q : needs_slash (PyRe.Lit "/" :: q).
Proof.
  intros cur done a s Ha. simpl.
  destruct (Ascii.eqb a "/") eqn:E; [| reflexivity].
  apply Ascii.eqb_eq in E. congruence.
Qed.

Lemma close_lit_needs_slash q : needs_slash (PyRe.Close :: PyRe.Lit "/" :: q).
Proof.
  intros cur done a s Ha.
  change (PyRe.match_here (PyRe.Lit "/" :: q) None
            (String.rev (default "" cur) :: done) (String a s) = None).
  apply lit_needs_slash, Ha.
Qed.

Lemma rev_rev_app seg : String.rev (String.rev_app seg "") = seg.
Proof. apply string_rev_rev. Qed.

(** the part of the second pattern that follows "github.com/" *)
Lemma owner_repo_groups s :
  PyRe.match_here
    [PyRe.Open; PyRe.PlusNot "/"; PyRe.Close; PyRe.Lit "/";
     PyRe.Open; PyRe.PlusNot "/"; PyRe.Close] None [] s
  = match owner_and_repo s with
    | Some (owner, repo) => Some [owner; repo]
    | None => None
    end.
Proof.
  change (PyRe.match_here
            [PyRe.Open; PyRe.PlusNot "/"; PyRe.Close; PyRe.Lit "/";
             PyRe.Open; PyRe.PlusNot "/"; PyRe.Close] None [] s)
    with (PyRe.match_here
            [PyRe.PlusNot "/"; PyRe.Close; PyRe.Lit "/";
             PyRe.Open; PyRe.PlusNot "/"; PyRe.Close] (Some "") [] s).
  rewrite plus_then by apply close_lit_needs_slash.
  unfold owner_and_repo.
  pose proof (segment_rest s) as Hrest.
  destruct (segment s) as [owner rest]. simpl fst in *; simpl snd in *.
  destruct owner as [|a owner]; [reflexivity |].
  destruct Hrest as [-> | [r ->]]; [reflexivity |].
  match goal with
  | |- ?lhs = _ =>
      change lhs with
        (PyRe.match_here [PyRe.PlusNot "/"; PyRe.Close] (Some "")
           [String.rev (String.rev_app (String a owner) "")] r)
  end.
  rewrite plus_last, rev_rev_app.
  destruct (segment r) as [repo rest']. simpl fst.
  destruct repo as [|b repo]; [reflexivity |].
  change (Some [String a owner; String.rev (String.rev_app (String b repo) "")]
          = Some [String a owner; String b repo]).
  rewrite rev_rev_app. reflexivity.
Qed.

(** the part of the first pattern that follows "github.com/" *)
Lemma repo_group s :
  PyRe.match_here
    [PyRe.PlusNot "/"; PyRe.Lit "/"; PyRe.Open; PyRe.PlusNot "/"; PyRe.Close]
    None [] s
  = match owner_and_repo s with
    | Some (owner, repo) => Some [repo]
    | None => None
    end.
Proof.
  rewrite plus_then by apply lit_needs_slash.
  unfold owner_and_repo.
  pose proof (segment_rest s) as Hrest.
  destruct (segment s) as [owner rest]. simpl fst in *; simpl snd in *.
  destruct owner as [|a owner]; [reflexivity |].
  destruct Hrest as [-> | [r ->]]; [reflexivity |].
  match goal with
  | |- ?lhs = _ =>
      change lhs with
        (PyRe.match_here [PyRe.PlusNot "/"; PyRe.Close] (Some "") [] r)
  end.
  rewrite plus_last.
  destruct (segment r) as [repo rest']. simpl fst.
  destruct repo as [|b repo]; [reflexivity |].
  change (Some [String.rev (String.rev_app (String b repo) "")] = Some [String b repo]).
  rewrite rev_rev_app. reflexivity.
Qed.

Lemma lit_prefix p q done s :
  PyRe.match_here (PyRe.lit p ++ q) None done s
  = match strip_prefix p s with
    | Some t => PyRe.match_here q None done t
    | None => None
    end.
Proof.
  revert s. induction p as [|a p IH]; intros s; [reflexivity |].
  destruct s as [|b s]; [reflexivity |].
  simpl. destruct (Ascii.eqb b a); [apply IH | reflexivity].
Qed.

Lemma owner_repo_pattern_here s :
  PyRe.match_here PyRe.owner_repo_pattern None [] s
  = match address_here s with
    | Some (owner, repo) => Some [owner; repo]
    | None => None
    end.
Proof.
  unfold PyRe.owner_repo_pattern, address_here. rewrite lit_prefix.
  destruct (strip_prefix "github.com/" s); [apply owner_repo_groups | reflexivity].
Qed.

Lemma repo_pattern_here s :
  PyRe.match_here PyRe.repo_pattern None [] s
  = match address_here s with
    | Some (owner, repo) => Some [repo]
    | None => None
    end.
Proof.
  unfold PyRe.repo_pattern, address_here. rewrite lit_prefix.
  destruct (strip_prefix "github.com/" s); [apply repo_group | reflexivity].
Qed.

(** [re.search] with the pattern of [get_default_branch] *)
Lemma search_owner_repo s :
  PyRe.search PyRe.owner_repo_pattern s
  = match find_address s with
    | Some (owner, repo) => Some [owner; repo]
    | None => None
    end.
Proof.
  induction s as [|a s IH].
  - reflexivity.
  - cbn [PyRe.search find_address]. rewrite owner_repo_pattern_here.
    destruct (address_here (String a s)) as [[owner repo]|]; [reflexivity | exact IH].
Qed.

(** [re.search] with the pattern of [get_repo_name] *)
Lemma search_repo s :
  PyRe.search PyRe.repo_pattern s
  = match find_address s with
    | Some (owner, repo) => Some [repo]
    | None => None
    end.
Proof.
  induction s as [|a s IH].
  - reflexivity.
  - cbn [PyRe.search find_address]. rewrite repo_pattern_here.
    destruct (address_here (String a s)) as [[owner repo]|]; [reflexivity | exact IH].
Qed.

End PatternParser.

(** ** What the patterns match *)

Section Addresses.
#[local] Arguments String.append : simpl nomatch.

Lemma strip_prefix_spec p s t : strip_prefix p s = Some t <-> s = p ++ t.
Proof.
  revert s. induction p as [|a p IH]; intros s; simpl.
  - split; [intros [= ->]; reflexivity | intros ->; reflexivity].
  - destruct s as [|b s]; [split; discriminate |].
    destruct (Ascii.eqb b a) eqn:E.
    + apply Ascii.eqb_eq in E. subst b. rewrite IH.
      split; [intros ->; reflexivity | intros [= ->]; reflexivity].
    + split; [discriminate |]. intros [= -> _].
      rewrite Ascii.eqb_refl in E. discriminate E.
Qed.

Lemma owner_and_repo_sound s owner repo :
  owner_and_repo s = Some (owner, repo) ->
  exists rest,
    s = owner ++ "/" ++ repo ++ rest
    /\ owner <> "" /\ repo <> "" /\ no_slash owner /\ no_slash repo
    /\ (rest = "" \/ exists x, rest = String "/" x).
Proof.
  unfold owner_and_repo. intros H.
  pose proof (segment_app s) as Hs. pose proof (segment_no_slash s) as Hn.
  pose proof (segment_rest s) as Hr.
  destruct (segment s) as [o rest1]. simpl in Hs, Hn, Hr.
  destruct o as [|a o]; [discriminate H |].
  destruct Hr as [-> | [r1 ->]]; [discriminate H |].
  pose proof (segment_app r1) as Hs2. pose proof (segment_no_slash r1) as Hn2.
  pose proof (segment_rest r1) as Hr2.
  destruct (segment r1) as [r rest2]. simpl in Hs2, Hn2, Hr2.
  destruct r as [|b r]; [discriminate H |].
  injection H as <- <-. exists rest2.
  split; [rewrite Hs, Hs2; reflexivity |].
  repeat split; try discriminate; try apply Hn; try apply Hn2. exact Hr2.
Qed.

Lemma find_address_sound s owner repo :
  find_address s = Some (owner, repo) ->
  exists before rest,
    s = before ++ "github.com/" ++ owner ++ "/" ++ repo ++ rest
    /\ owner <> "" /\ repo <> "" /\ no_slash owner /\ no_slash repo
    /\ (rest = "" \/ exists x, rest = String "/" x).
Proof.
  assert (Hhere : forall s, address_here s = Some (owner, repo) ->
            exists rest,
              s = "github.com/" ++ owner ++ "/" ++ repo ++ rest
              /\ owner <> "" /\ repo <> "" /\ no_slash owner /\ no_slash repo
              /\ (rest = "" \/ exists x, rest = String "/" x)).
  { intros s0 H. unfold address_here in H.
    destruct (strip_prefix "github.com/" s0) as [t|] eqn:Ht; [| discriminate H].
    apply strip_prefix_spec in Ht.
    destruct (owner_and_repo_sound _ _ _ H) as (rest & Hs & Hrest).
    exists rest. split; [| exact Hrest]. rewrite Ht, Hs. reflexivity. }
  induction s as [|a s IH]; intros H.
  - cbn [find_address] in H.
    destruct (address_here "") eqn:Ha; [| discriminate H].
    injection H as ->. destruct (Hhere _ Ha) as (rest & Hs & Hrest).
    exists "", rest. auto.
  - cbn [find_address] in H.
    destruct (address_here (String a s)) eqn:Ha.
    + injection H as ->. destruct (Hhere _ Ha) as (rest & Hs & Hrest).
      exists "", rest. auto.
    + destruct (IH H) as (before & rest & Hs & Hrest).
      exists (String a before), rest. split; [| exact Hrest].
      rewrite Hs. reflexivity.
Qed.

Lemma segment_of_app owner t :
  no_slash owner -> segment (owner ++ String "/" t) = (owner, String "/" t).
Proof.
  induction owner as [|a owner IH]; intros Hn; [reflexivity |].
  destruct Hn as [Ha Hn].
  change (String a owner ++ String "/" t) with (String a (owner ++ String "/" t)).
  cbn [segment]. destruct (Ascii.eqb a "/") eqn:E.
  - apply Ascii.eqb_eq in E. congruence.
  - rewrite IH by exact Hn. reflexivity.
Qed.

(** a segment without slash is read to its end *)
Lemma segment_all s : no_slash s -> segment s = (s, "").
Proof.
  induction s as [|a s IH]; intros Hn; [reflexivity |].
  destruct Hn as [Ha Hn]. cbn [segment].
  destruct (Ascii.eqb a "/") eqn:E.
  - apply Ascii.eqb_eq in E. congruence.
  - rewrite IH by exact Hn. reflexivity.
Qed.

(** an address at the start of [s] is the one that [address_here] reads *)
Lemma address_here_complete s owner repo rest :
  s = "github.com/" ++ owner ++ "/" ++ repo ++ rest ->
  owner <> "" -> repo <> "" -> no_slash owner -> no_slash repo ->
  rest = "" \/ (exists x, rest = String "/" x) ->
  address_here s = Some (owner, repo).
Proof.
  intros -> Ho Hr Hso Hsr Hrest. unfold address_here.
  assert (Hp : strip_prefix "github.com/"
                 ("github.com/" ++ owner ++ "/" ++ repo ++ rest)
               = Some (owner ++ String "/" (repo ++ rest)))
    by (apply strip_prefix_spec; reflexivity).
  rewrite Hp. unfold owner_and_repo. rewrite segment_of_app by exact Hso.
  assert (Hseg : segment (repo ++ rest) = (repo, rest)).
  { destruct Hrest as [-> | [x ->]].
    - rewrite string_app_nil_r. apply segment_all, Hsr.
    - apply segment_of_app, Hsr. }
  rewrite Hseg. destruct owner; [congruence |]. destruct repo; [congruence |].
  reflexivity.
Qed.

(** [find_address] stops at the first place where an address starts *)
Lemma find_address_first s found :
  find_address s = Some found ->
  exists before tail,
    s = before ++ tail
    /\ address_here tail = Some found
    /\ forall before' tail',
         s = before' ++ tail' ->
         (String.length before' < String.length before)%nat ->
         address_here tail' = None.
Proof.
  induction s as [|a s IH]; intros H.
  - cbn [find_address] in H. destruct (address_here "") eqn:Ha; [| discriminate H].
    exists "", "". split; [reflexivity |]. split; [congruence |].
    intros b' t' _ Hlt. simpl in Hlt. lia.
  - cbn [find_address] in H.
    destruct (address_here (String a s)) eqn:Ha.
    + exists "", (String a s). split; [reflexivity |]. split; [congruence |].
      intros b' t' _ Hlt. simpl in Hlt. lia.
    + destruct (IH H) as (before & tail & Hs & Ht & Hfirst).
      exists (String a before), tail. split; [rewrite Hs; reflexivity |].
      split; [exact Ht |].
      intros b' t' Hb Hlt. destruct b' as [|c b'].
      * simpl in Hb. subst t'. exact Ha.
      * simpl in Hb. injection Hb as <- Hb.
        apply (Hfirst b' t' Hb). simpl in Hlt. lia.
Qed.

(** two ways of cutting a string at the same place are the same *)
Lemma string_app_same_length (a x b y : string) :
  a ++ x = b ++ y -> String.length a = String.length b -> a = b /\ x = y.
Proof.
  revert b. induction a as [|c a IH]; intros b H Hl; destruct b as [|d b];
    try discriminate Hl.
  - split; [reflexivity | exact H].
  - simpl in H. injection H as -> H. simpl in Hl. injection Hl as Hl.
    destruct (IH b H Hl) as [-> ->]. split; reflexivity.
Qed.

Lemma find_address_after before s :
  is_Some (address_here s) -> is_Some (find_address (before ++ s)).
Proof.
  intros Hs. induction before as [|a before IH].
  - change ("" ++ s) with s. destruct s; cbn [find_address];
      destruct Hs as [x ->]; eauto.
  - change (String a before ++ s) with (String a (before ++ s)).
    cbn [find_address].
    destruct (address_here (String a (before ++ s))); [eauto | exact IH].
Qed.

Lemma find_address_complete before owner a t :
  owner <> "" -> no_slash owner -> a <> "/"%char ->
  is_Some (find_address (before ++ "github.com/" ++ owner ++ "/" ++ String a t)).
Proof.
  intros Ho Hn Ha. apply find_address_after.
  unfold address_here.
  assert (Hp : strip_prefix "github.com/"
                 ("github.com/" ++ owner ++ "/" ++ String a t)
               = Some (owner ++ String "/" (String a t)))
    by (apply strip_prefix_spec; reflexivity).
  rewrite Hp. unfold owner_and_repo. rewrite segment_of_app by exact Hn.
  destruct owner as [|b owner]; [congruence |].
  cbn [segment]. destruct (Ascii.eqb a "/") eqn:E.
  - apply Ascii.eqb_eq in E. congruence.
  - destruct (segment t) as [seg rest]. eauto.
Qed.

End Addresses.

(** X1: whenever the pattern of [get_default_branch] matches, its two groups
    are the owner and the repository of the first place of the address,
    from the left, where "github.com/" is followed by a segment that is not
    empty, a slash and another such segment (a segment has no slash and runs
    to the next slash or to the end); the pattern of [get_repo_name] then
    matches too, and its group is that repository.  No such place starts
    earlier, and the two segments at that place are the groups. *)
Theorem pattern_groups_are_segments (repo_url : string) (groups : list string) :
  PyRe.search PyRe.owner_repo_pattern repo_url = Some groups ->
  exists before owner repo rest,
    groups = [owner; repo]
    /\ PyRe.search PyRe.repo_pattern repo_url = Some [repo]
    /\ repo_url = before ++ "github.com/" ++ owner ++ "/" ++ repo ++ rest
    /\ owner <> "" /\ repo <> "" /\ no_slash owner /\ no_slash repo
    /\ (rest = "" \/ exists x, rest = String "/" x)
    /\ forall before' owner' repo' rest',
         repo_url = before' ++ "github.com/" ++ owner' ++ "/" ++ repo' ++ rest' ->
         owner' <> "" -> repo' <> "" -> no_slash owner' -> no_slash repo' ->
         (rest' = "" \/ exists x, rest' = String "/" x) ->
         (String.length before <= String.length before')%nat
         /\ (String.length before' = String.length before ->
             owner' = owner /\ repo' = repo).
Proof.
  rewrite search_owner_repo, search_repo. intros H.
  destruct (find_address repo_url) as [[owner repo]|] eqn:Hf; [| discriminate H].
  injection H as <-.
  destruct (find_address_first _ _ Hf) as (before & tail & Hs & Ht & Hfirst).
  assert (Hcut : exists rest,
            tail = "github.com/" ++ owner ++ "/" ++ repo ++ rest
            /\ owner <> "" /\ repo <> "" /\ no_slash owner /\ no_slash repo
            /\ (rest = "" \/ exists x, rest = String "/" x)).
  { pose proof Ht as Ht'. unfold address_here in Ht'.
    destruct (strip_prefix "github.com/" tail) as [t|] eqn:Hp; [| discriminate Ht'].
    apply strip_prefix_spec in Hp.
    destruct (owner_and_repo_sound _ _ _ Ht') as (rest & Ht1 & Hrest).
    exists rest. split; [rewrite Hp, Ht1; reflexivity | exact Hrest]. }
  destruct Hcut as (rest & Hcut & Hrest).
  exists before, owner, repo, rest. split; [reflexivity |]. split; [reflexivity |].
  split; [rewrite Hs, Hcut; reflexivity |].
  destruct Hrest as (Ho & Hr & Hso & Hsr & Hend).
  repeat (split; [assumption |]).
  intros before' owner' repo' rest' Hs' Ho' Hr' Hso' Hsr' Hend'.
  pose proof (address_here_complete _ owner' repo' rest' eq_refl Ho' Hr' Hso' Hsr' Hend')
    as Hhere'.
  split.
  - destruct (Nat.le_gt_cases (String.length before) (String.length before'))
      as [Hle | Hlt]; [exact Hle |].
    rewrite (Hfirst _ _ Hs' Hlt) in Hhere'. discriminate Hhere'.
  - intros Hlen. rewrite Hs in Hs'.
    destruct (string_app_same_length _ _ _ _ Hs' (eq_sym Hlen)) as [_ Htail].
    rewrite <- Htail, Ht in Hhere'. injection Hhere' as <- <-. split; reflexivity.
Qed.

(** the address holds "github.com/" twice: the groups are read at the first *)
Lemma pattern_groups_are_segments_witness :
  exists before rest,
    "https://github.com/a/b/github.com/c/d"
    = before ++ "github.com/" ++ "a" ++ "/" ++ "b" ++ rest
    /\ (String.length before <= 8)%nat.
Proof.
  destruct (pattern_groups_are_segments
              "https://github.com/a/b/github.com/c/d" ["a"; "b"] eq_refl)
    as (before & owner & repo & rest & Hg & _ & Hs & _ & _ & _ & _ & _ & Hfirst).
  injection Hg as <- <-. exists before, rest. split; [exact Hs |].
  destruct (Hfirst "https://" "a" "b" "/github.com/c/d" eq_refl) as [Hle _].
  - discriminate.
  - discriminate.
  - simpl. split; [discriminate | exact I].
  - simpl. split; [discriminate | exact I].
  - right. eexists. reflexivity.
  - exact Hle.
Defined.

(** X2: an address that holds "github.com/", a non-empty owner without a
    slash, a slash and one more character that is not a slash is matched by
    both patterns: [get_repo_name] does not fall back to its placeholder
    branch and [get_default_branch] goes on to the metadata request. *)
Theorem patterns_match_repository_addresses
    (before owner t : string) (a : ascii) :
  owner <> "" -> no_slash owner -> a <> "/"%char ->
  let repo_url := before ++ "github.com/" ++ owner ++ "/" ++ String a t in
  exists owner' repo',
    PyRe.search PyRe.owner_repo_pattern repo_url = Some [owner'; repo']
    /\ PyRe.search PyRe.repo_pattern repo_url = Some [repo'].
Proof.
  intros Ho Hn Ha repo_url.
  destruct (find_address_complete before owner a t Ho Hn Ha) as [[o r] Hf].
  exists o, r. rewrite search_owner_repo, search_repo.
  unfold repo_url. rewrite Hf. auto.
Qed.

Lemma patterns_match_repository_addresses_witness :
  exists owner' repo',
    PyRe.search PyRe.owner_repo_pattern "git@github.com/octocat/hello"
    = Some [owner'; repo']
    /\ PyRe.search PyRe.repo_pattern "git@github.com/octocat/hello" = Some [repo'].
Proof.
  apply (patterns_match_repository_addresses "git@" "octocat" "ello" "h").
  - discriminate.
  - simpl. repeat split; discriminate.
  - discriminate.
Defined.

(** ** The resolver and the name read the same address *)

Lemma get_default_branch_request {D} P repo_url groups (w : world D) :
  PyRe.search PyRe.owner_repo_pattern repo_url = Some groups ->
  exists branch,
    get_default_branch P repo_url w
    = (Ok branch,
       {| net_log := (net_log w ++ [metadata_request groups])%list;
          reports := reports w;
          disk := disk w |}).
Proof.
  intros Hs. unfold get_default_branch, try_except, get_default_branch_body.
  rewrite Hs. unfold bind, requests_get, lift, ret. fold (metadata_request groups).
  destruct (http_get P _ _) as [response|e]; [| eexists; reflexivity].
  destruct (status_code response =? 200)%Z; [| eexists; reflexivity].
  destruct (json_body response) as [data|e]; [| eexists; reflexivity].
  destruct (dict_get data "default_branch" (JStr "main")); eexists; reflexivity.
Qed.

(** X3: [get_repo_name] and [get_default_branch] read the same address.
    Either neither pattern matches, the name is the placeholder and the
    branch is "main" with no request sent; or both match at the same place,
    the name is the repository group with every ".git" removed, and one
    metadata request is sent, for the owner group and the repository group
    as written in the address (its ".git" included). *)
Theorem name_and_branch_read_one_address {D : Type}
    (P : platform) (repo_url : string) (w : world D) :
  (PyRe.search PyRe.repo_pattern repo_url = None
   /\ get_repo_name repo_url = "downloaded_repo"
   /\ get_default_branch P repo_url w = (Ok (JStr "main"), w))
  \/
  (exists owner repo,
     PyRe.search PyRe.owner_repo_pattern repo_url = Some [owner; repo]
     /\ get_repo_name repo_url = PyStr.replace ".git" "" repo
     /\ net_log (snd (get_default_branch P repo_url w))
        = (net_log w
           ++ [{| req_url := "https://api.github.com/repos/" ++ owner ++ "/" ++ repo;
                  req_timeout := Some 10%Z;
                  req_stream := false |}])%list).
Proof.
  destruct (find_address repo_url) as [[owner repo]|] eqn:Hf.
  - right. exists owner, repo.
    assert (H2 : PyRe.search PyRe.owner_repo_pattern repo_url = Some [owner; repo])
      by (rewrite search_owner_repo, Hf; reflexivity).
    split; [exact H2 |]. split.
    + unfold get_repo_name. rewrite search_repo, Hf. reflexivity.
    + destruct (get_default_branch_request P repo_url [owner; repo] w H2)
        as [branch ->]. reflexivity.
  - left.
    assert (H1 : PyRe.search PyRe.repo_pattern repo_url = None)
      by (rewrite search_repo, Hf; reflexivity).
    split; [exact H1 |]. split.
    + unfold get_repo_name. rewrite H1. reflexivity.
    + unfold get_default_branch, try_except, get_default_branch_body.
      rewrite search_owner_repo, Hf. reflexivity.
Qed.

(** X4: when the address matches, the response has status 200 and its body
    decodes to an object, [get_default_branch] returns the value stored
    under "default_branch", or "main" when the object has no such key; it
    has sent exactly one request, with a timeout of 10 seconds. *)
Theorem default_branch_from_metadata {D : Type}
    (P : platform) (repo_url : string) (w : world D)
    (groups : list string) (response : response)
    (fields : list (string * json)) :
  PyRe.search PyRe.owner_repo_pattern repo_url = Some groups ->
  http_get P (List.length (net_log w)) (metadata_request groups) = Ok response ->
  status_code response = 200%Z ->
  json_body response = Ok (JObj fields) ->
  get_default_branch P repo_url w
  = (Ok (default (JStr "main") (lookup_field "default_branch" fields)),
     {| net_log := (net_log w ++ [metadata_request groups])%list;
        reports := reports w;
        disk := disk w |}).
Proof.
  intros Hs Hg Hc Hj.
  unfold get_default_branch, try_except, get_default_branch_body.
  rewrite Hs. unfold bind at 1, requests_get. fold (metadata_request groups).
  rewrite Hg, Hc. change (200 =? 200)%Z with true. cbv iota.
  unfold bind, lift. rewrite Hj. reflexivity.
Qed.

Lemma default_branch_from_metadata_witness :
  fst (get_default_branch
         (Script.platform_of
            [Ok (Script.answer 200 None
                   (Ok (JObj [("name", JStr "hello"); ("default_branch", JStr "trunk")]))
                   [] None)])
         "https://github.com/octocat/hello" (Script.empty_world tt))
  = Ok (JStr "trunk")
  /\ fst (get_default_branch
            (Script.platform_of
               [Ok (Script.answer 200 None (Ok (JObj [("name", JStr "hello")])) [] None)])
            "https://github.com/octocat/hello" (Script.empty_world tt))
     = Ok (JStr "main").
Proof.
  split.
  - rewrite (default_branch_from_metadata
               (Script.platform_of
                  [Ok (Script.answer 200 None
                         (Ok (JObj [("name", JStr "hello");
                                    ("default_branch", JStr "trunk")]))
                         [] None)])
               "https://github.com/octocat/hello"
               (Script.empty_world tt) ["octocat"; "hello"]
               (Script.answer 200 None
                  (Ok (JObj [("name", JStr "hello"); ("default_branch", JStr "trunk")]))
                  [] None)
               [("name", JStr "hello"); ("default_branch", JStr "trunk")]
               eq_refl eq_refl eq_refl eq_refl).
    reflexivity.
  - rewrite (default_branch_from_metadata
               (Script.platform_of
                  [Ok (Script.answer 200 None (Ok (JObj [("name", JStr "hello")]))
                         [] None)])
               "https://github.com/octocat/hello"
               (Script.empty_world tt) ["octocat"; "hello"]
               (Script.answer 200 None (Ok (JObj [("name", JStr "hello")])) [] None)
               [("name", JStr "hello")]
               eq_refl eq_refl eq_refl eq_refl).
    reflexivity.
Defined.

(** ** The release fetcher: choosing the asset *)

Section LocateAsset.
Context (P : platform) (F : Release.file_io).

(** lines 34 to 51 send one request and leave the disk alone *)
Lemma locate_asset_world owner repo save_path cb `{!Observer cb} (w : world (gmap string bytes)) :
  exists r w1,
    Release.locate_asset P owner repo save_path cb w = (r, w1)
    /\ net_log w1 = (net_log w ++ [latest_request owner repo])%list
    /\ disk w1 = disk w.
Proof.
  destruct (Release.locate_asset P owner repo save_path cb w) as [r w1] eqn:Hrun.
  exists r, w1. split; [reflexivity |].
  unfold Release.locate_asset in Hrun. unfold bind at 1 in Hrun.
  rewrite progress_run in Hrun by exact _.
  unfold bind at 1, requests_get at 1 in Hrun. simpl net_log in Hrun.
  simpl disk in Hrun. fold (latest_request owner repo) in Hrun.
  destruct (http_get P _ _) as [response|e].
  2:{ injection Hrun as <- <-. split; reflexivity. }
  match type of Hrun with
  | ?m ?w2 = _ =>
      assert (Hrest : forall X (f : world (gmap string bytes) -> X),
                (forall q msg, preserves f (progress cb q msg)) -> f w1 = f w2)
  end.
  { intros X f Hp.
    match type of Hrun with
    | ?m ?w2 = _ =>
        assert (Hm : preserves f m);
          [| specialize (Hm w2); rewrite Hrun in Hm; exact Hm]
    end.
    repeat (apply preserves_bind; [solve [auto using preserves_raise_for_status,
                                            preserves_lift] | intros ?]).
    destruct (negb (truthy _)); [intros w0; reflexivity |].
    repeat (apply preserves_bind; [solve [auto using preserves_lift] | intros ?]).
    apply preserves_ret. }
  rewrite (Hrest _ net_log), (Hrest _ disk).
  - split; reflexivity.
  - intros q msg. apply progress_keeps_disk.
  - intros q msg. apply offline_progress.
Qed.

End LocateAsset.

(** X5: when the metadata of the latest release arrives and decodes to an
    object whose "assets" are missing, null or empty, the call returns
    [None] after one request, writes nothing, and the report of the failure
    (to a callback, if any) reads "Failed to download release: No release
    assets found."
    The callback, if one was given, returns from every call ([Observer]). *)
Theorem release_without_assets
    (P : platform) (F : Release.file_io) (owner repo save_path : string)
    (cb : option callback) `{!Observer cb} (w : world (gmap string bytes))
    (response : response) (release assets : json) :
  http_get P (List.length (net_log w)) (latest_request owner repo) = Ok response ->
  status_error response = None ->
  json_body response = Ok release ->
  dict_get release "assets" JNull = Ok assets ->
  truthy assets = false ->
  Release.download_latest_release P F owner repo save_path cb w
  = (Ok None,
     {| net_log := (net_log w ++ [latest_request owner repo])%list;
        reports :=
          (reports w
           ++ delivered cb {| fraction := 0.05;
                              message := "Checking latest " ++ repo ++ " release..." |}
           ++ delivered cb
                {| fraction := 1.0;
                   message := "Failed to download release: No release assets found." |})%list;
        disk := disk w |}).
Proof.
  intros Hg Hs Hj Ha Ht.
  unfold Release.download_latest_release, Release.download_latest_release_body,
    Release.locate_asset, try_except.
  unfold bind at 1. unfold bind at 1. unfold bind at 1. rewrite progress_run by exact _.
  unfold bind at 1, requests_get at 1. simpl net_log. simpl disk. simpl reports.
  fold (latest_request owner repo). rewrite Hg.
  unfold bind at 1, raise_for_status. rewrite Hs. unfold ret at 1.
  unfold bind at 1, lift at 1. rewrite Hj.
  unfold bind at 1, lift at 1. rewrite Ha, Ht. cbv [negb raise].
  unfold bind. rewrite progress_run by exact _. unfold ret. simpl.
  rewrite <- app_assoc. reflexivity.
Qed.

Lemma release_without_assets_witness :
  fst (Release.download_latest_release
         (Script.platform_of
            [Ok (Script.answer 200 None
                   (Ok (JObj [("tag_name", JStr "v1.0"); ("assets", JArr [])])) [] None)])
         no_file_errors "octocat" "hello" "dest" (Some Callback)
         (Script.empty_world ∅)) = Ok None.
Proof.
  rewrite (release_without_assets
             (Script.platform_of
                [Ok (Script.answer 200 None
                       (Ok (JObj [("tag_name", JStr "v1.0"); ("assets", JArr [])]))
                       [] None)])
             no_file_errors "octocat" "hello" "dest" (Some Callback)
             (Script.empty_world ∅)
             (Script.answer 200 None
                (Ok (JObj [("tag_name", JStr "v1.0"); ("assets", JArr [])])) [] None)
             (JObj [("tag_name", JStr "v1.0"); ("assets", JArr [])]) (JArr [])
             eq_refl eq_refl eq_refl eq_refl eq_refl).
  reflexivity.
Defined.

(** X6: whenever the asset cannot be chosen (the metadata request fails, the
    body is not what the code indexes into, a key is missing, the name is
    not a string), the call returns [None] having sent exactly one request
    and having written nothing: the download request is never made.
    The callback, if one was given, returns from every call ([Observer]). *)
Theorem release_not_located
    (P : platform) (F : Release.file_io) (owner repo save_path : string)
    (cb : option callback) `{!Observer cb} (w w1 : world (gmap string bytes)) (e : exn) :
  Release.locate_asset P owner repo save_path cb w = (Raise e, w1) ->
  exists w',
    Release.download_latest_release P F owner repo save_path cb w = (Ok None, w')
    /\ net_log w' = (net_log w ++ [latest_request owner repo])%list
    /\ disk w' = disk w.
Proof.
  intros Hloc.
  destruct (locate_asset_world P owner repo save_path cb w)
    as (r & w1' & Hrun & Hlog & Hdisk).
  rewrite Hloc in Hrun. injection Hrun as <- <-.
  unfold Release.download_latest_release, Release.download_latest_release_body,
    try_except.
  unfold bind at 1. unfold bind at 1. rewrite Hloc.
  unfold bind. rewrite progress_run by exact _. unfold ret.
  eexists. split; [reflexivity |]. simpl. auto.
Qed.

(** the first asset has no "name" *)
Lemma release_not_located_witness :
  exists w',
    Release.download_latest_release
      (Script.platform_of
         [Ok (Script.answer 200 None
                (Ok (JObj [("assets",
                            JArr [JObj [("browser_download_url",
                                         JStr "https://example.org/setup.exe")]])]))
                [] None)])
      no_file_errors "octocat" "hello" "dest" None (Script.empty_world ∅)
    = (Ok None, w')
    /\ net_log w' = [latest_request "octocat" "hello"]
    /\ disk w' = ∅.
Proof.
  eapply (release_not_located _ no_file_errors "octocat" "hello" "dest" None
            (Script.empty_world ∅)).
  vm_compute. reflexivity.
Defined.

(** X7: the asset downloaded is the first one of the list, whatever follows
    it: with a release object whose "assets" is a list that starts with an
    object holding "browser_download_url" and a string "name", lines 34 to
    51 yield that address, that name and the path
    [os.path.join(save_path, name)], after the reports 0.05 and 0.1.
    The callback, if one was given, returns from every call ([Observer]). *)
Theorem first_asset_is_chosen
    (P : platform) (owner repo save_path : string) (cb : option callback) `{!Observer cb}
    (w : world (gmap string bytes)) (response : response)
    (fields first : list (string * json)) (others : list json)
    (download_url : json) (name : string) :
  http_get P (List.length (net_log w)) (latest_request owner repo) = Ok response ->
  status_error response = None ->
  json_body response = Ok (JObj fields) ->
  lookup_field "assets" fields = Some (JArr (JObj first :: others)) ->
  lookup_field "browser_download_url" first = Some download_url ->
  lookup_field "name" first = Some (JStr name) ->
  Release.locate_asset P owner repo save_path cb w
  = (Ok (download_url, JStr name, path_join P save_path name),
     {| net_log := (net_log w ++ [latest_request owner repo])%list;
        reports :=
          (reports w
           ++ delivered cb {| fraction := 0.05;
                              message := "Checking latest " ++ repo ++ " release..." |}
           ++ delivered cb {| fraction := 0.1;
                              message := "Downloading " ++ name ++ "..." |})%list;
        disk := disk w |}).
Proof.
  intros Hg Hs Hj Ha Hu Hn.
  unfold Release.locate_asset.
  unfold bind at 1. rewrite progress_run by exact _.
  unfold bind at 1, requests_get at 1. simpl net_log. simpl disk. simpl reports.
  fold (latest_request owner repo). rewrite Hg.
  unfold bind at 1, raise_for_status. rewrite Hs. unfold ret at 1.
  unfold bind at 1, lift at 1. rewrite Hj.
  unfold bind at 1, lift at 1. unfold dict_get. rewrite Ha.
  change (negb (truthy (default JNull (Some (JArr (JObj first :: others)))))) with false.
  cbv iota.
  unfold bind at 1, lift at 1. unfold getitem at 1. rewrite Ha.
  unfold bind at 1, lift at 1.
  assert (Hfirst : getitem (JArr (JObj first :: others)) (KInt 0) = Ok (JObj first)).
  { unfold getitem, index_of.
    replace (0 <? Z.of_nat (List.length (JObj first :: others)))%Z with true
      by (symmetry; apply Z.ltb_lt; simpl List.length; lia).
    reflexivity. }
  rewrite Hfirst.
  unfold bind at 1, lift at 1. unfold getitem at 1. rewrite Hu.
  unfold bind at 1, lift at 1. unfold getitem at 1. rewrite Hn.
  unfold bind at 1, lift at 1. unfold Release.join_asset.
  unfold bind. rewrite progress_run by exact _. unfold ret. simpl.
  rewrite <- app_assoc. reflexivity.
Qed.

Lemma first_asset_is_chosen_witness :
  fst (Release.locate_asset
         (Script.platform_of [Ok (Script.answer 200 None (Ok two_assets) [] None)])
         "octocat" "hello" "dest" None (Script.empty_world ∅))
  = Ok (JStr "https://example.org/setup.exe", JStr "setup.exe", "dest/setup.exe").
Proof.
  rewrite (first_asset_is_chosen
             (Script.platform_of [Ok (Script.answer 200 None (Ok two_assets) [] None)])
             "octocat" "hello" "dest" None (Script.empty_world ∅)
             (Script.answer 200 None (Ok two_assets) [] None)
             [("tag_name", JStr "v1.0");
              ("assets",
               JArr [JObj [("name", JStr "setup.exe");
                           ("browser_download_url", JStr "https://example.org/setup.exe")];
                     JObj [("name", JStr "setup.tar.gz");
                           ("browser_download_url",
                            JStr "https://example.org/setup.tar.gz")]])]
             [("name", JStr "setup.exe");
              ("browser_download_url", JStr "https://example.org/setup.exe")]
             [JObj [("name", JStr "setup.tar.gz");
                    ("browser_download_url", JStr "https://example.org/setup.tar.gz")]]
             (JStr "https://example.org/setup.exe") "setup.exe"
             eq_refl eq_refl eq_refl eq_refl eq_refl eq_refl).
  reflexivity.
Defined.

(** ** The release fetcher: the transfer *)

Section Transfer.
Context (P : platform) (F : Release.file_io).

(** the loop of lines 58 to 63 appends the chunks to the file and does
    nothing else to the disk or to the network *)
Lemma write_chunks_world cb `{!Observer cb} asset_name local_file total chunks :
  forall downloaded (w : world (gmap string bytes)) content,
    disk w !! local_file = Some content ->
    exists n w',
      Release.write_chunks cb asset_name local_file total downloaded chunks w
      = (Ok n, w')
      /\ disk w' = <[local_file := (content ++ concat chunks)%list]> (disk w)
      /\ net_log w' = net_log w.
Proof.
  induction chunks as [|chunk rest IH]; intros downloaded w content Hw; simpl.
  - exists downloaded, w. rewrite app_nil_r.
    split; [reflexivity |]. split; [| reflexivity].
    symmetry. apply insert_id, Hw.
  - destruct chunk as [|b chunk']; [apply IH; exact Hw |].
    unfold bind at 1, Release.file_write. unfold bind at 1.
    rewrite Hw. simpl default.
    assert (Hnext : forall w2 : world (gmap string bytes),
              disk w2 = <[local_file := (content ++ b :: chunk')%list]> (disk w) ->
              net_log w2 = net_log w ->
              forall d,
              exists n w',
                Release.write_chunks cb asset_name local_file total d rest w2
                = (Ok n, w')
                /\ disk w' = <[local_file := (content ++ (b :: chunk') ++ concat rest)%list]>
                               (disk w)
                /\ net_log w' = net_log w).
    { intros w2 Hd Hl d.
      destruct (IH d w2 (content ++ b :: chunk')%list) as (n & w' & Hrun & Hd' & Hl').
      { rewrite Hd. apply lookup_insert_eq. }
      exists n, w'. split; [exact Hrun |]. split; [| congruence].
      rewrite Hd', Hd, insert_insert_eq, <- app_assoc. reflexivity. }
    destruct (0 <? total)%Z.
    + rewrite progress_run by exact _. apply Hnext; reflexivity.
    + unfold ret. apply Hnext; reflexivity.
Qed.

(** X8: when the asset is chosen, the download request answered without an
    error status, the declared length read, the file opened and the stream
    delivered to its end, the call returns the path
    [os.path.join(save_path, asset_name)]; the file there holds exactly the
    bytes of the chunks, in order, whatever it held before; no other file
    has changed; and two requests were sent, the second one a streamed GET
    of the address of the asset without a timeout.
    The callback, if one was given, returns from every call ([Observer]). *)
Theorem release_downloaded
    (owner repo save_path : string) (cb : option callback) `{!Observer cb}
    (w w1 : world (gmap string bytes)) (download_url asset_name : json)
    (local_file : string) (r : response) (total : Z) :
  Release.locate_asset P owner repo save_path cb w
  = (Ok (download_url, asset_name, local_file), w1) ->
  http_get P (List.length (net_log w1)) (asset_request P download_url) = Ok r ->
  status_error r = None ->
  match content_length r with Some s => py_int P s | None => Ok 0%Z end = Ok total ->
  Release.open_error F local_file (disk w1) = None ->
  body_error r = None ->
  exists w',
    Release.download_latest_release P F owner repo save_path cb w
    = (Ok (Some local_file), w')
    /\ local_file = path_join P save_path (py_str P asset_name)
    /\ disk w' = <[local_file := concat (body_chunks r)]> (disk w)
    /\ net_log w'
       = (net_log w ++ [latest_request owner repo; asset_request P download_url])%list.
Proof.
  intros Hloc Hget Hstatus Hlen Hopen Hend.
  pose proof (locate_asset_file _ _ _ _ _ _ _ _ _ _ Hloc) as Hfile.
  destruct (locate_asset_world P owner repo save_path cb w)
    as (r0 & w0 & Hrun0 & Hlog0 & Hdisk0).
  rewrite Hloc in Hrun0. injection Hrun0 as <- <-.
  unfold Release.download_latest_release, try_except,
    Release.download_latest_release_body.
  unfold bind at 1. unfold bind at 1. rewrite Hloc. simpl fst; simpl snd.
  unfold Release.transfer.
  unfold bind at 1, requests_get. fold (asset_request P download_url). rewrite Hget.
  unfold bind at 1, raise_for_status. rewrite Hstatus. unfold ret at 1.
  unfold bind at 1, declared_length.
  assert (Hdecl : forall w0 : world (gmap string bytes),
            match content_length r with
            | Some s => lift (py_int P s)
            | None => ret 0%Z
            end w0 = (Ok total, w0)).
  { intros w0. destruct (content_length r); unfold lift, ret; rewrite Hlen; reflexivity. }
  rewrite Hdecl.
  unfold bind at 1, Release.open_wb. simpl disk. rewrite Hopen.
  unfold bind at 1.
  match goal with
  | |- context [Release.write_chunks ?c ?n ?f ?t ?d ?cs ?w2] =>
      destruct (write_chunks_world c n f t cs d w2 [])
        as (m & w3 & Hrun & Hdisk & Hlog);
        [simpl; apply lookup_insert_eq |]
  end.
  rewrite Hrun.
  unfold bind at 1, Release.stream_end. rewrite Hend. unfold ret at 1.
  unfold bind at 1. rewrite progress_run by exact _. unfold ret.
  eexists. split; [reflexivity |]. split; [exact Hfile |]. simpl.
  split.
  - rewrite Hdisk. simpl. rewrite insert_insert_eq, Hdisk0. reflexivity.
  - rewrite Hlog. simpl. rewrite Hlog0, <- app_assoc. reflexivity.
Qed.

End Transfer.

(** the disk already holds a file at the destination, and another file *)
Lemma release_downloaded_witness :
  exists w',
    Release.download_latest_release
      (Script.platform_of
         [Ok (Script.answer 200 None (Ok two_assets) [] None);
          Ok (Script.answer 200 (Some "3") (Ok JNull) two_chunks None)])
      no_file_errors "octocat" "hello" "dest" None
      (Script.empty_world
         (<["dest/setup.exe" := [Byte.x00; Byte.x00; Byte.x00; Byte.x00]]>
            (<["dest/notes.txt" := [Byte.x68; Byte.x69]]> ∅)))
    = (Ok (Some "dest/setup.exe"), w')
    /\ disk w' !! "dest/setup.exe" = Some [Byte.x4d; Byte.x5a; Byte.x90]
    /\ disk w' !! "dest/notes.txt" = Some [Byte.x68; Byte.x69].
Proof.
  set (P := Script.platform_of
         [Ok (Script.answer 200 None (Ok two_assets) [] None);
          Ok (Script.answer 200 (Some "3") (Ok JNull) two_chunks None)]).
  set (d := <["dest/setup.exe" := [Byte.x00; Byte.x00; Byte.x00; Byte.x00]]>
              (<["dest/notes.txt" := [Byte.x68; Byte.x69]]> (∅ : gmap string bytes))).
  destruct (release_downloaded P no_file_errors "octocat" "hello" "dest" None
              (Script.empty_world d)
              {| net_log := [latest_request "octocat" "hello"];
                 reports := []; disk := d |}
              (JStr "https://example.org/setup.exe") (JStr "setup.exe")
              "dest/setup.exe"
              (Script.answer 200 (Some "3") (Ok JNull) two_chunks None) 3%Z)
    as (w' & Hrun & _ & Hdisk & _).
  - reflexivity.
  - reflexivity.
  - reflexivity.
  - reflexivity.
  - reflexivity.
  - reflexivity.
  - exists w'. split; [exact Hrun |]. rewrite Hdisk. split.
    + apply lookup_insert_eq.
    + rewrite lookup_insert_ne by discriminate. reflexivity.
Defined.

(** ** The two transfer loops *)

Section Loops.

Lemma write_chunks_reports cb `{!Observer cb} asset_name local_file total chunks :
  forall downloaded (w : world (gmap string bytes)),
    reports (snd (Release.write_chunks cb asset_name local_file total downloaded
                    chunks w))
    = (reports w
       ++ loop_reports cb (fun n => Qmin 1.0 (inject_Z n / inject_Z total))
            ("Downloading " ++ asset_name ++ "...") total
            (running_totals downloaded chunks))%list.
Proof.
  unfold loop_reports.
  induction chunks as [|chunk rest IH]; intros downloaded w.
  - simpl. destruct (0 <? total)%Z; rewrite app_nil_r; reflexivity.
  - destruct chunk as [|b chunk']; [apply IH |].
    cbn [Release.write_chunks running_totals].
    unfold bind at 1, Release.file_write. unfold bind at 1.
    destruct (0 <? total)%Z eqn:Ht.
    + rewrite progress_run by exact _. rewrite IH. simpl reports. simpl flat_map.
      rewrite <- app_assoc. reflexivity.
    + unfold ret. rewrite IH. reflexivity.
Qed.

Lemma read_chunks_run cb `{!Observer cb} repo_name total chunks :
  forall downloaded buffer (w : world Branch.tree_view),
    Branch.read_chunks cb repo_name total downloaded buffer chunks w
    = (Ok (buffer ++ concat chunks)%list,
       {| net_log := net_log w;
          reports :=
            (reports w
             ++ loop_reports cb
                  (fun n => Qmin 0.8 (inject_Z n / inject_Z total * 0.8))
                  ("Downloading " ++ repo_name ++ "...") total
                  (running_totals downloaded chunks))%list;
          disk := disk w |}).
Proof.
  unfold loop_reports.
  induction chunks as [|chunk rest IH]; intros downloaded buffer w.
  - simpl. destruct (0 <? total)%Z; rewrite !app_nil_r; destruct w; reflexivity.
  - destruct chunk as [|b chunk']; [apply IH |].
    cbn [Branch.read_chunks running_totals concat].
    unfold bind at 1.
    destruct (0 <? total)%Z eqn:Ht.
    + rewrite progress_run by exact _. rewrite IH. simpl. rewrite <- !app_assoc. reflexivity.
    + unfold ret. rewrite IH. simpl. rewrite <- !app_assoc. reflexivity.
Qed.

End Loops.

Section LoopFacts.

Lemma running_totals_above chunks :
  forall downloaded,
    Forall (fun n => (downloaded < n)%Z) (running_totals downloaded chunks).
Proof.
  induction chunks as [|chunk rest IH]; intros downloaded; simpl; [constructor |].
  destruct chunk as [|b chunk']; [apply IH |].
  pose proof (Nat2Z.is_nonneg (List.length chunk')) as Hn.
  constructor.
  - simpl List.length. lia.
  - eapply Forall_impl; [apply IH |]. simpl. intros n Hlt.
    simpl List.length in Hlt. lia.
Qed.

Lemma running_totals_increase chunks :
  forall downloaded, StronglySorted Z.lt (running_totals downloaded chunks).
Proof.
  induction chunks as [|chunk rest IH]; intros downloaded; simpl; [constructor |].
  destruct chunk as [|b chunk']; [apply IH |].
  constructor; [apply IH | apply running_totals_above].
Qed.

Lemma running_totals_skip_empty chunks :
  forall downloaded,
    running_totals downloaded (List.filter has_bytes chunks)
    = running_totals downloaded chunks.
Proof.
  induction chunks as [|chunk rest IH]; intros downloaded; simpl; [reflexivity |].
  destruct chunk as [|b chunk']; simpl; [apply IH | rewrite IH; reflexivity].
Qed.

Lemma concat_skip_empty (chunks : list bytes) :
  concat (List.filter has_bytes chunks) = concat chunks.
Proof.
  induction chunks as [|chunk rest IH]; simpl; [reflexivity |].
  destruct chunk as [|b chunk']; simpl; [exact IH | rewrite IH; reflexivity].
Qed.

Lemma ratio_monotone (n m total : Z) :
  (n <= m)%Z -> (0 < total)%Z ->
  (inject_Z n / inject_Z total <= inject_Z m / inject_Z total)%Q.
Proof.
  intros Hnm Ht. unfold Qdiv. apply Qmult_le_compat_r.
  - rewrite <- Zle_Qle. exact Hnm.
  - apply Qlt_le_weak, Qinv_lt_0_compat.
    change 0%Q with (inject_Z 0). rewrite <- Zlt_Qlt. exact Ht.
Qed.

(** the reports of a loop never go down when the fraction grows with the
    size *)
Lemma loop_reports_sorted cb fraction_at msg total sizes :
  (forall n m, (0 < total)%Z -> (n <= m)%Z -> (fraction_at n <= fraction_at m)%Q) ->
  StronglySorted Z.lt sizes ->
  StronglySorted not_below (loop_reports cb fraction_at msg total sizes).
Proof.
  intros Hmono Hs. unfold loop_reports.
  destruct (0 <? total)%Z eqn:Ht; [| constructor].
  apply Z.ltb_lt in Ht.
  induction Hs as [|n sizes Hs IH Hall]; simpl; [constructor |].
  destruct cb as [c|]; simpl; [| exact IH].
  constructor; [exact IH |].
  clear IH Hs. induction Hall as [|m sizes Hm Hall IH]; simpl; [constructor |].
  constructor; [| exact IH].
  unfold not_below; simpl. apply Hmono; [exact Ht | lia].
Qed.

End LoopFacts.

Section LoopRuns.

(** the loop of [download_latest_release] on a file that is open, with a
    callback that returns *)
Lemma write_chunks_run cb `{!Observer cb} asset_name local_file total chunks :
  forall downloaded (w : world (gmap string bytes)) content,
    disk w !! local_file = Some content ->
    Release.write_chunks cb asset_name local_file total downloaded chunks w
    = (Ok (downloaded + Z.of_nat (List.length (concat chunks)))%Z,
       {| net_log := net_log w;
          reports :=
            (reports w
             ++ loop_reports cb (fun n => Qmin 1.0 (inject_Z n / inject_Z total))
                  ("Downloading " ++ asset_name ++ "...") total
                  (running_totals downloaded chunks))%list;
          disk := <[local_file := (content ++ concat chunks)%list]> (disk w) |}).
Proof.
  unfold loop_reports.
  induction chunks as [|chunk rest IH]; intros downloaded w content Hw.
  - simpl. rewrite Z.add_0_r, !app_nil_r, insert_id by exact Hw.
    destruct (0 <? total)%Z; rewrite ?app_nil_r; destruct w; reflexivity.
  - destruct chunk as [|b chunk']; [apply IH; exact Hw |].
    cbn [Release.write_chunks running_totals concat].
    unfold bind at 1, Release.file_write. unfold bind at 1.
    rewrite Hw. cbn [default].
    assert (Hlen : (downloaded + Z.of_nat (List.length (b :: chunk'))
                    + Z.of_nat (List.length (concat rest)))%Z
                   = (downloaded
                      + Z.of_nat (List.length ((b :: chunk') ++ concat rest)))%Z).
    { rewrite length_app, Nat2Z.inj_add. lia. }
    destruct (0 <? total)%Z eqn:Ht.
    + rewrite progress_run by exact _.
      erewrite IH by (simpl; apply lookup_insert_eq).
      simpl disk. simpl reports. simpl net_log.
      rewrite insert_insert_eq, Hlen, <- !app_assoc. reflexivity.
    + unfold ret.
      erewrite IH by (simpl; apply lookup_insert_eq).
      simpl disk. simpl reports. simpl net_log.
      rewrite insert_insert_eq, Hlen, <- !app_assoc. reflexivity.
Qed.

Lemma loop_reports_count cb fraction_at msg total downloaded chunks :
  List.length (loop_reports cb fraction_at msg total
                 (running_totals downloaded chunks))
  = loop_report_count cb total chunks.
Proof.
  unfold loop_reports, loop_report_count.
  destruct (0 <? total)%Z; [| destruct cb; reflexivity].
  revert downloaded. induction chunks as [|chunk rest IH]; intros downloaded.
  - destruct cb; reflexivity.
  - destruct chunk as [|b chunk']; [apply IH |].
    cbn [running_totals flat_map List.filter has_bytes].
    rewrite length_app, IH. destruct cb; reflexivity.
Qed.

Lemma loop_reports_say cb fraction_at msg total sizes :
  Forall (says msg) (loop_reports cb fraction_at msg total sizes).
Proof.
  unfold loop_reports. destruct (0 <? total)%Z; [| constructor].
  induction sizes as [|n sizes IH]; simpl; [constructor |].
  apply Forall_app. split; [| exact IH].
  destruct cb; repeat constructor.
Qed.

(** with any callback, the reports of the loops are the first ones of
    [loop_reports]: all of them, or those up to the call that raised *)
Lemma write_chunks_reports_start cb asset_name local_file total chunks :
  forall downloaded (w : world (gmap string bytes)),
  exists added later,
    reports (snd (Release.write_chunks cb asset_name local_file total downloaded
                    chunks w))
    = (reports w ++ added)%list
    /\ loop_reports cb (fun n => Qmin 1.0 (inject_Z n / inject_Z total))
         ("Downloading " ++ asset_name ++ "...") total
         (running_totals downloaded chunks)
       = (added ++ later)%list.
Proof.
  unfold loop_reports.
  induction chunks as [|chunk rest IH]; intros downloaded w.
  - exists [], []. simpl. rewrite app_nil_r.
    split; [reflexivity | destruct (0 <? total)%Z; reflexivity].
  - destruct chunk as [|b chunk']; [apply IH |].
    cbn [Release.write_chunks running_totals].
    unfold bind at 1, Release.file_write. unfold bind at 1.
    destruct (0 <? total)%Z eqn:Ht.
    + match goal with
      | |- context [progress cb ?q ?msg ?w1] =>
          pose proof (progress_world cb q msg w1) as Hw;
          destruct (progress cb q msg w1) as [[u|e] w2]
      end; simpl in Hw; subst w2.
      * match goal with
        | |- context [Release.write_chunks _ _ _ _ ?d _ ?w2] =>
            destruct (IH d w2) as (added & later & E & L)
        end.
        eexists (_ ++ added)%list, later. rewrite E. simpl reports.
        split; [rewrite <- app_assoc; reflexivity |].
        cbn [flat_map]. rewrite L, <- app_assoc. reflexivity.
      * eexists _, _. simpl. split; reflexivity.
    + unfold ret.
      match goal with
      | |- context [Release.write_chunks _ _ _ _ ?d _ ?w2] =>
          destruct (IH d w2) as (added & later & E & L)
      end.
      exists added, later. rewrite E. simpl. split; [reflexivity | exact L].
Qed.

Lemma read_chunks_reports_start cb repo_name total chunks :
  forall downloaded buffer (v : world Branch.tree_view),
  exists added later,
    reports (snd (Branch.read_chunks cb repo_name total downloaded buffer chunks v))
    = (reports v ++ added)%list
    /\ loop_reports cb (fun n => Qmin 0.8 (inject_Z n / inject_Z total * 0.8))
         ("Downloading " ++ repo_name ++ "...") total
         (running_totals downloaded chunks)
       = (added ++ later)%list.
Proof.
  unfold loop_reports.
  induction chunks as [|chunk rest IH]; intros downloaded buffer v.
  - exists [], []. simpl. rewrite app_nil_r.
    split; [reflexivity | destruct (0 <? total)%Z; reflexivity].
  - destruct chunk as [|b chunk']; [apply IH |].
    cbn [Branch.read_chunks running_totals].
    unfold bind at 1.
    destruct (0 <? total)%Z eqn:Ht.
    + match goal with
      | |- context [progress cb ?q ?msg ?w1] =>
          pose proof (progress_world cb q msg w1) as Hw;
          destruct (progress cb q msg w1) as [[u|e] w2]
      end; simpl in Hw; subst w2.
      * match goal with
        | |- context [Branch.read_chunks _ _ _ ?d ?buf _ ?w2] =>
            destruct (IH d buf w2) as (added & later & E & L)
        end.
        eexists (_ ++ added)%list, later. rewrite E. simpl reports.
        split; [rewrite <- app_assoc; reflexivity |].
        cbn [flat_map]. rewrite L, <- app_assoc. reflexivity.
      * eexists _, _. simpl. split; reflexivity.
    + unfold ret.
      match goal with
      | |- context [Branch.read_chunks _ _ _ ?d ?buf _ ?w2] =>
          destruct (IH d buf w2) as (added & later & E & L)
      end.
      exists added, later. rewrite E. simpl. split; [reflexivity | exact L].
Qed.

Lemma sorted_start {A} (R : A -> A -> Prop) (l later : list A) :
  StronglySorted R (l ++ later) -> StronglySorted R l.
Proof.
  induction l as [|a l IH]; simpl; intros H; [constructor |].
  inversion H as [|? ? Hs Hall]; subst. constructor; [apply IH, Hs |].
  apply Forall_app in Hall as [Hl _]. exact Hl.
Qed.

(** an empty chunk is passed over, whatever the callback does *)
Lemma write_chunks_skip_empty cb asset_name local_file total chunks :
  forall downloaded (w : world (gmap string bytes)),
    Release.write_chunks cb asset_name local_file total downloaded chunks w
    = Release.write_chunks cb asset_name local_file total downloaded
        (List.filter has_bytes chunks) w.
Proof.
  induction chunks as [|chunk rest IH]; intros downloaded w; [reflexivity |].
  destruct chunk as [|b chunk']; [apply IH |].
  cbn [List.filter has_bytes Release.write_chunks].
  unfold bind at 1 3. destruct (Release.file_write _ _ w) as [[u|e] w1]; [| reflexivity].
  unfold bind at 1 2.
  match goal with
  | |- context [if ?c then ?a else ?b] => destruct ((if c then a else b) w1) as [[u'|e] w2]
  end; [apply IH | reflexivity].
Qed.

Lemma read_chunks_skip_empty cb repo_name total chunks :
  forall downloaded buffer (v : world Branch.tree_view),
    Branch.read_chunks cb repo_name total downloaded buffer chunks v
    = Branch.read_chunks cb repo_name total downloaded buffer
        (List.filter has_bytes chunks) v.
Proof.
  induction chunks as [|chunk rest IH]; intros downloaded buffer v; [reflexivity |].
  destruct chunk as [|b chunk']; [apply IH |].
  cbn [List.filter has_bytes Branch.read_chunks].
  unfold bind at 1 2.
  match goal with
  | |- context [if ?c then ?a else ?b] => destruct ((if c then a else b) v) as [[u'|e] w2]
  end; [apply IH | reflexivity].
Qed.

End LoopRuns.

(** X9: with a callback that returns, the loop of [download_latest_release]
    (lines 58 to 63) on the open file appends the chunks to it, in order,
    and counts their bytes; the loop of [download_github_repo] (lines 91 to
    96) hands on the bytes of the chunks, in order, and touches neither the
    disk nor the network.  In both, each chunk that is not empty is
    followed by one report with the message "Downloading <name>...", when
    the declared length is positive and there is a callback; otherwise
    nothing is reported. *)
Theorem loops_take_each_chunk_once
    (cb : option callback) `{!Observer cb} (name local_file : string)
    (total downloaded : Z) (buffer content : bytes) (chunks : list bytes)
    (w : world (gmap string bytes)) (v : world Branch.tree_view) :
  disk w !! local_file = Some content ->
  (exists added,
     Release.write_chunks cb name local_file total downloaded chunks w
     = (Ok (downloaded + Z.of_nat (List.length (concat chunks)))%Z,
        {| net_log := net_log w;
           reports := (reports w ++ added)%list;
           disk := <[local_file := (content ++ concat chunks)%list]> (disk w) |})
     /\ List.length added = loop_report_count cb total chunks
     /\ Forall (says ("Downloading " ++ name ++ "...")) added)
  /\
  (exists added,
     Branch.read_chunks cb name total downloaded buffer chunks v
     = (Ok (buffer ++ concat chunks)%list,
        {| net_log := net_log v;
           reports := (reports v ++ added)%list;
           disk := disk v |})
     /\ List.length added = loop_report_count cb total chunks
     /\ Forall (says ("Downloading " ++ name ++ "...")) added).
Proof.
  intros Hw. split.
  - eexists. split.
    + exact (write_chunks_run cb name local_file total chunks downloaded w content Hw).
    + split; [apply loop_reports_count | apply loop_reports_say].
  - eexists. split.
    + exact (read_chunks_run cb name total chunks downloaded buffer v).
    + split; [apply loop_reports_count | apply loop_reports_say].
Qed.

(** a file that holds one byte, then two chunks with an empty one between
    them, and a declared length of 3 *)
Lemma loops_take_each_chunk_once_witness :
  exists added,
    Release.write_chunks (Some Callback) "setup.exe" "dest/setup.exe" 3 0
      [[Byte.x4d; Byte.x5a]; []; [Byte.x90]]
      (Script.empty_world (<["dest/setup.exe" := [Byte.x00]]> ∅))
    = (Ok 3%Z,
       {| net_log := [];
          reports := added;
          disk := <["dest/setup.exe" := [Byte.x00; Byte.x4d; Byte.x5a; Byte.x90]]> ∅ |})
    /\ List.length added = 2%nat.
Proof.
  destruct (proj1 (loops_take_each_chunk_once (Some Callback) "setup.exe"
                     "dest/setup.exe" 3 0 [] [Byte.x00]
                     [[Byte.x4d; Byte.x5a]; []; [Byte.x90]]
                     (Script.empty_world (<["dest/setup.exe" := [Byte.x00]]> ∅))
                     empty_dest (lookup_insert_eq _ _ _)))
    as (added & Hrun & Hlen & _).
  exists added. split; [| exact Hlen].
  etransitivity; [exact Hrun |].
  simpl. rewrite insert_insert_eq. reflexivity.
Defined.

(** X10: while the body is transferred the progress never goes back: in both
    loops the fractions of the reports added are in non-decreasing order,
    for every sequence of chunks, every declared length and every callback,
    also one that raises. *)
Theorem transfer_progress_never_decreases
    (cb : option callback) (name local_file : string) (total downloaded : Z)
    (buffer : bytes) (chunks : list bytes)
    (w : world (gmap string bytes)) (v : world Branch.tree_view) :
  (exists added,
     reports (snd (Release.write_chunks cb name local_file total downloaded chunks w))
     = (reports w ++ added)%list
     /\ StronglySorted not_below added)
  /\
  (exists added,
     reports (snd (Branch.read_chunks cb name total downloaded buffer chunks v))
     = (reports v ++ added)%list
     /\ StronglySorted not_below added).
Proof.
  split.
  - destruct (write_chunks_reports_start cb name local_file total chunks downloaded w)
      as (added & later & E & L).
    exists added. split; [exact E |]. apply (sorted_start _ _ later). rewrite <- L.
    apply loop_reports_sorted; [| apply running_totals_increase].
    intros n m Ht Hnm. apply Q.min_le_compat_l, ratio_monotone; assumption.
  - destruct (read_chunks_reports_start cb name total chunks downloaded buffer v)
      as (added & later & E & L).
    exists added. split; [exact E |]. apply (sorted_start _ _ later). rewrite <- L.
    apply loop_reports_sorted; [| apply running_totals_increase].
    intros n m Ht Hnm. apply Q.min_le_compat_l, Qmult_le_compat_r;
      [apply ratio_monotone; assumption | discriminate].
Qed.

(** X11: empty chunks of the stream change nothing: each loop does on a
    sequence of chunks exactly what it does on the same sequence with the
    empty chunks taken out -- the same result, the same reports, the same
    bytes in the file, the same exception if the callback raises. *)
Theorem empty_chunks_are_skipped
    (cb : option callback) (name local_file : string) (total downloaded : Z)
    (buffer : bytes) (chunks : list bytes)
    (w : world (gmap string bytes)) (v : world Branch.tree_view) :
  Release.write_chunks cb name local_file total downloaded chunks w
  = Release.write_chunks cb name local_file total downloaded
      (List.filter has_bytes chunks) w
  /\ Branch.read_chunks cb name total downloaded buffer chunks v
     = Branch.read_chunks cb name total downloaded buffer
         (List.filter has_bytes chunks) v.
Proof.
  split; [apply write_chunks_skip_empty | apply read_chunks_skip_empty].
Qed.

(** ** The branch fetcher: what reaches the disk *)

Section BranchDisk.
Context (P : platform) (A : Branch.archive_io).

(** X12: when the archive cannot be fetched (the request fails, the status
    is an error, the declared length is not a number, the stream breaks),
    nothing is extracted: the call returns an "error" record, which has no
    "path", and the disk is as it was before the call.
    The callback, if one was given, returns from every call ([Observer]). *)
Theorem failed_download_extracts_nothing
    (repo_url save_path : string) (cb : option callback) `{!Observer cb}
    (w w1 : world Branch.tree_view) (e : exn) :
  Branch.download_phase P repo_url cb w = (Raise e, w1) ->
  exists res w',
    Branch.download_github_repo P A repo_url save_path cb w = (Ok res, w')
    /\ res !! "status" = Some "error"
    /\ res !! "error" = Some (exn_str P e)
    /\ res !! "path" = None
    /\ disk w' = disk w.
Proof.
  intros Hdl.
  destruct (download_github_repo_run P A repo_url save_path cb w)
    as (r1 & w1' & res & w' & Hdl' & Hrun & _ & Hcase).
  rewrite Hdl in Hdl'. injection Hdl' as <- <-.
  destruct Hcase as (-> & Hdisk & _).
  destruct (download_phase_world P repo_url cb w)
    as (_ & _ & r1 & w1' & _ & Hdl' & _ & Hdisk1).
  rewrite Hdl in Hdl'. injection Hdl' as <- <-.
  exists (Branch.error_record (exn_str P e)), w'. split; [exact Hrun |].
  split; [apply error_record_status |]. split; [apply error_record_error |].
  split; [reflexivity | congruence].
Qed.

(** the download phase when every step of it succeeds *)
Lemma download_phase_succeeds repo_url cb `{!Observer cb} (w w0 : world Branch.tree_view)
    branch response total :
  get_default_branch P repo_url w = (Ok branch, w0) ->
  http_get P (List.length (net_log w0))
    (archive_request (Branch.zip_url_of repo_url (py_str P branch))) = Ok response ->
  status_error response = None ->
  match content_length response with Some s => py_int P s | None => Ok 0%Z end
  = Ok total ->
  body_error response = None ->
  exists w1,
    Branch.download_phase P repo_url cb w
    = (Ok (get_repo_name repo_url, concat (body_chunks response)), w1).
Proof.
  intros Hb Hget Hstatus Hlen Hend.
  unfold Branch.download_phase. unfold bind at 1. rewrite Hb.
  unfold bind at 1. rewrite progress_run by exact _.
  unfold bind at 1, requests_get at 1. simpl net_log.
  fold (archive_request (Branch.zip_url_of repo_url (py_str P branch))).
  rewrite Hget.
  unfold bind at 1, raise_for_status. rewrite Hstatus. unfold ret at 1.
  unfold bind at 1, declared_length.
  assert (Hdecl : forall v : world Branch.tree_view,
            match content_length response with
            | Some s => lift (py_int P s)
            | None => ret 0%Z
            end v = (Ok total, v)).
  { intros v. destruct (content_length response); unfold lift, ret;
      rewrite Hlen; reflexivity. }
  rewrite Hdecl.
  unfold bind at 1. rewrite read_chunks_run by exact _.
  unfold bind, Release.stream_end. rewrite Hend. unfold ret.
  eexists. reflexivity.
Qed.

(** X13: when the archive is fetched to its end, what is handed to the
    extraction is exactly the bytes of the chunks received, in order, and
    the disk after the call is the disk that the extraction left -- also
    when the extraction, or the listing after it, fails and the call returns
    an "error" record: nothing is undone.
    The callback, if one was given, returns from every call ([Observer]). *)
Theorem downloaded_bytes_are_extracted
    (repo_url save_path : string) (cb : option callback) `{!Observer cb}
    (w w0 : world Branch.tree_view) (branch : json) (response : response)
    (total : Z) :
  get_default_branch P repo_url w = (Ok branch, w0) ->
  http_get P (List.length (net_log w0))
    (archive_request (Branch.zip_url_of repo_url (py_str P branch))) = Ok response ->
  status_error response = None ->
  match content_length response with Some s => py_int P s | None => Ok 0%Z end
  = Ok total ->
  body_error response = None ->
  exists res w',
    Branch.download_github_repo P A repo_url save_path cb w = (Ok res, w')
    /\ disk w'
       = fst (Branch.extractall A (concat (body_chunks response)) save_path (disk w)).
Proof.
  intros Hb Hget Hstatus Hlen Hend.
  destruct (download_phase_succeeds repo_url cb w w0 branch response total
              Hb Hget Hstatus Hlen Hend) as [w1 Hdl].
  destruct (download_github_repo_run P A repo_url save_path cb w)
    as (r1 & w1' & res & w' & Hdl' & Hrun & _ & Hcase).
  rewrite Hdl in Hdl'. injection Hdl' as <- <-.
  destruct Hcase as (Hdisk & _).
  destruct (download_phase_world P repo_url cb w)
    as (_ & _ & r1 & w1' & _ & Hdl' & _ & Hdisk1).
  rewrite Hdl in Hdl'. injection Hdl' as <- <-.
  exists res, w'. split; [exact Hrun |].
  rewrite Hdisk, Hdisk1. reflexivity.
Qed.

(** X14: the two kinds of record do not mix.  An "error" record has neither
    "path" nor "repo_name"; any other record has no "error", and its
    "repo_name" is the name that [get_repo_name] derives from the address.
    The callback, if one was given, returns from every call ([Observer]). *)
Theorem record_fields_are_exclusive
    (repo_url save_path : string) (cb : option callback) `{!Observer cb}
    (w : world Branch.tree_view) :
  exists (res : gmap string string) w',
    Branch.download_github_repo P A repo_url save_path cb w = (Ok res, w')
    /\ ((res !! "status" = Some "error"
         /\ res !! "path" = None /\ res !! "repo_name" = None)
        \/ (res !! "status" <> Some "error"
            /\ res !! "error" = None
            /\ res !! "repo_name" = Some (get_repo_name repo_url))).
Proof.
  destruct (download_github_repo_run P A repo_url save_path cb w)
    as (r1 & w1 & res & w' & Hdl & Hrun & _ & Hcase).
  exists res, w'. split; [exact Hrun |].
  assert (Herr : forall e, res = Branch.error_record (exn_str P e) ->
            res !! "status" = Some "error"
            /\ res !! "path" = None /\ res !! "repo_name" = None).
  { intros e ->. split; [apply error_record_status |]. split; reflexivity. }
  destruct r1 as [fetched|e].
  - destruct Hcase as (_ & msg & _ & [[e He] | (items & _ & Hres)]).
    + left. eapply Herr, He.
    + right. simpl in Hres. rewrite Hres.
      rewrite found_record_status, found_record_repo_name,
        (download_phase_name _ _ _ _ _ _ Hdl).
      split; [| split; reflexivity].
      intros Heq.
      match type of Heq with
      | context [if ?found then _ else _] => destruct found
      end; discriminate Heq.
  - destruct Hcase as (He & _). left. eapply Herr, He.
Qed.

End BranchDisk.

(** the archive of the examples: the record is not an error and names the
    repository *)
Lemma record_fields_are_exclusive_witness :
  exists res w',
    Branch.download_github_repo (Script.platform_of archive_answers)
      (unpack with_installer) "https://github.com/octocat/hello" "dest"
      (Some Callback) empty_dest = (Ok res, w')
    /\ res !! "error" = None
    /\ res !! "repo_name" = Some "hello".
Proof.
  destruct (record_fields_are_exclusive (Script.platform_of archive_answers)
              (unpack with_installer) "https://github.com/octocat/hello" "dest"
              (Some Callback) empty_dest)
    as (res & w' & Hrun & Hcase).
  exists res, w'. split; [exact Hrun |].
  destruct Hcase as [(Herr & _) | (_ & Hnone & Hname)].
  - exfalso. pose proof Hrun as Hval. vm_compute in Hval.
    injection Hval as <- _. discriminate Herr.
  - split; [exact Hnone | exact Hname].
Defined.

Lemma failed_download_extracts_nothing_witness :
  exists res w',
    Branch.download_github_repo
      (Script.platform_of
         [Ok (Script.answer 200 None (Ok (JObj [])) [] None);
          Ok (Script.answer 404 None (Ok JNull) [] None)])
      (unpack with_installer) "https://github.com/octocat/hello" "dest" None empty_dest
    = (Ok res, w')
    /\ res !! "status" = Some "error"
    /\ Branch.listdir (disk w') "dest" = Ok [].
Proof.
  destruct (failed_download_extracts_nothing
              (Script.platform_of
                 [Ok (Script.answer 200 None (Ok (JObj [])) [] None);
                  Ok (Script.answer 404 None (Ok JNull) [] None)])
              (unpack with_installer) "https://github.com/octocat/hello" "dest" None
              empty_dest
              {| net_log :=
                   [metadata_request ["octocat"; "hello"];
                    archive_request
                      "https://github.com/octocat/hello/archive/refs/heads/main.zip"];
                 reports := [];
                 disk := disk empty_dest |}
              (Raised "HTTPError" "Client Error"))
    as (res & w' & Hrun & Hstatus & _ & _ & Hdisk).
  - reflexivity.
  - exists res, w'. split; [exact Hrun |]. split; [exact Hstatus |].
    rewrite Hdisk. reflexivity.
Defined.

Lemma downloaded_bytes_are_extracted_witness :
  exists res w',
    Branch.download_github_repo (Script.platform_of archive_answers)
      (unpack with_installer) "https://github.com/octocat/hello" "dest" None empty_dest
    = (Ok res, w')
    /\ Branch.listdir (disk w') "dest" = Ok ["hello-main"].
Proof.
  destruct (downloaded_bytes_are_extracted (Script.platform_of archive_answers)
              (unpack with_installer) "https://github.com/octocat/hello" "dest" None
              empty_dest
              {| net_log := [metadata_request ["octocat"; "hello"]];
                 reports := []; disk := disk empty_dest |}
              (JStr "main")
              (Script.answer 200 None (Ok JNull) two_chunks None) 0%Z)
    as (res & w' & Hrun & Hdisk).
  - reflexivity.
  - reflexivity.
  - reflexivity.
  - reflexivity.
  - reflexivity.
  - exists res, w'. split; [exact Hrun |]. rewrite Hdisk. reflexivity.
Defined.

(** ** The release fetcher: what a call can change *)

Section ReleaseFrame.
Context (P : platform) (F : Release.file_io).

(** the transfer sends one request, and changes the file of the asset or
    nothing *)
Lemma transfer_world repo cb `{!Observer cb} download_url asset_name local_file
    (w1 : world (gmap string bytes)) :
  exists r w2,
    Release.transfer P F repo cb download_url asset_name local_file w1 = (r, w2)
    /\ net_log w2 = (net_log w1 ++ [asset_request P download_url])%list
    /\ ((disk w2 = disk w1 /\ exists e, r = Raise e)
        \/ (exists response,
              http_get P (List.length (net_log w1)) (asset_request P download_url)
              = Ok response
              /\ disk w2 = <[local_file := concat (body_chunks response)]> (disk w1))
           /\ (r = Ok local_file \/ exists e, r = Raise e)).
Proof.
  unfold Release.transfer.
  unfold bind at 1, requests_get. fold (asset_request P download_url).
  destruct (http_get P _ _) as [r|e] eqn:Hget.
  2:{ do 2 eexists. split; [reflexivity |]. split; [reflexivity |].
      left. split; [reflexivity | eauto]. }
  unfold bind at 1, raise_for_status.
  destruct (status_error r) as [e|].
  { do 2 eexists. split; [reflexivity |]. split; [reflexivity |].
    left. split; [reflexivity | eauto]. }
  unfold ret at 1. unfold bind at 1, declared_length.
  assert (Hdecl : forall w0 : world (gmap string bytes),
            exists res, match content_length r with
            | Some s => lift (py_int P s)
            | None => ret 0%Z
            end w0 = (res, w0)).
  { intros w0. destruct (content_length r); unfold lift, ret; eauto. }
  match goal with
  | |- context [match content_length r with _ => _ end ?w0] =>
      destruct (Hdecl w0) as [[total|e] Hd]; rewrite Hd; clear Hd
  end.
  2:{ do 2 eexists. split; [reflexivity |]. split; [reflexivity |].
      left. split; [reflexivity | eauto]. }
  unfold bind at 1, Release.open_wb. simpl disk.
  destruct (Release.open_error F local_file (disk w1)) as [e|].
  { do 2 eexists. split; [reflexivity |]. split; [reflexivity |].
    left. split; [reflexivity | eauto]. }
  unfold bind at 1.
  match goal with
  | |- context [Release.write_chunks ?c ?n ?f ?t ?d ?cs ?w2] =>
      destruct (write_chunks_world c n f t cs d w2 [])
        as (m & w3 & Hrun & Hdisk & Hlog);
        [simpl; apply lookup_insert_eq |]
  end.
  rewrite Hrun. simpl in Hdisk, Hlog. rewrite insert_insert_eq in Hdisk.
  unfold bind at 1, Release.stream_end.
  destruct (body_error r) as [e|].
  { do 2 eexists. split; [reflexivity |]. split; [exact Hlog |].
    right. split; [eauto | right; eauto]. }
  unfold ret at 1. unfold bind at 1. rewrite progress_run by exact _. unfold ret.
  do 2 eexists. split; [reflexivity |]. split; [exact Hlog |].
  right. split; [simpl; eauto | left; reflexivity].
Qed.

(** what lines 34 to 51 have read when they choose an asset: the first
    element of the "assets" of the release, its address and its name, which
    is a string *)
Lemma locate_asset_chosen owner repo save_path cb (w w1 : world (gmap string bytes))
    download_url asset_name local_file :
  Release.locate_asset P owner repo save_path cb w
  = (Ok (download_url, asset_name, local_file), w1) ->
  exists response release assets asset name,
    http_get P (List.length (net_log w)) (latest_request owner repo) = Ok response
    /\ json_body response = Ok release
    /\ getitem release (KStr "assets") = Ok assets
    /\ getitem assets (KInt 0) = Ok asset
    /\ getitem asset (KStr "browser_download_url") = Ok download_url
    /\ getitem asset (KStr "name") = Ok (JStr name)
    /\ asset_name = JStr name
    /\ local_file = path_join P save_path name.
Proof.
  unfold Release.locate_asset. intros H.
  apply bind_ok in H as (? & wa & Hp & H).
  apply progress_ok in Hp as ->.
  apply bind_ok in H as (response & wb & Hq & H).
  unfold requests_get in Hq. simpl net_log in Hq.
  fold (latest_request owner repo) in Hq.
  destruct (http_get P _ _) as [response'|] eqn:Hget; [| discriminate Hq].
  injection Hq as -> <-.
  apply bind_ok in H as (? & wc & _ & H).
  apply bind_ok in H as (release & wd & Hq & H).
  unfold lift in Hq. injection Hq as Hrel _.
  apply bind_ok in H as (assets0 & we & _ & H).
  destruct (negb (truthy assets0)); [discriminate H |].
  apply bind_ok in H as (assets & ? & Hq & H). unfold lift in Hq.
  injection Hq as Hassets _.
  apply bind_ok in H as (asset & ? & Hq & H). unfold lift in Hq.
  injection Hq as Hasset _.
  apply bind_ok in H as (url & ? & Hq & H). unfold lift in Hq.
  injection Hq as Hurl _.
  apply bind_ok in H as (aname & ? & Hq & H). unfold lift in Hq.
  injection Hq as Haname _.
  apply bind_ok in H as (file & ? & Hq & H). unfold lift in Hq.
  injection Hq as Hfile _.
  apply bind_ok in H as (? & ? & _ & H).
  unfold ret in H. injection H as <- <- <- _.
  unfold Release.join_asset in Hfile.
  destruct aname as [| | | |name| |]; try discriminate Hfile.
  injection Hfile as <-.
  exists response, release, assets, asset, name. repeat split; assumption.
Qed.

(** X15: with a callback that returns, a call of [download_latest_release]
    changes at most one file and sends at most two requests, the first one
    for the metadata of the latest release.  If the disk has changed, the
    changed file is the one at [os.path.join(save_path, name)], where
    [name] is the string [release["assets"][0]["name"]] of the metadata
    received, and it holds the chunks of the response to the request for
    [release["assets"][0]["browser_download_url"]].  A path is returned only
    for that file; when nothing was written, the result is [None]. *)
Theorem release_changes_at_most_one_file
    (owner repo save_path : string) (cb : option callback) `{!Observer cb}
    (w : world (gmap string bytes)) :
  exists res w',
    Release.download_latest_release P F owner repo save_path cb w = (Ok res, w')
    /\ ((disk w' = disk w /\ res = None
         /\ (net_log w' = (net_log w ++ [latest_request owner repo])%list
             \/ exists download_url,
                  net_log w'
                  = (net_log w ++ [latest_request owner repo;
                                   asset_request P download_url])%list))
        \/ exists metadata release assets asset download_url name response,
             http_get P (List.length (net_log w)) (latest_request owner repo)
             = Ok metadata
             /\ json_body metadata = Ok release
             /\ getitem release (KStr "assets") = Ok assets
             /\ getitem assets (KInt 0) = Ok asset
             /\ getitem asset (KStr "browser_download_url") = Ok download_url
             /\ getitem asset (KStr "name") = Ok (JStr name)
             /\ http_get P (S (List.length (net_log w))) (asset_request P download_url)
                = Ok response
             /\ disk w'
                = <[path_join P save_path name := concat (body_chunks response)]>
                    (disk w)
             /\ (res = Some (path_join P save_path name) \/ res = None)
             /\ net_log w'
                = (net_log w ++ [latest_request owner repo;
                                 asset_request P download_url])%list).
Proof.
  destruct (locate_asset_world P owner repo save_path cb w)
    as (r0 & w0 & Hloc & Hlog0 & Hdisk0).
  unfold Release.download_latest_release, try_except,
    Release.download_latest_release_body.
  unfold bind at 1. unfold bind at 1. rewrite Hloc.
  destruct r0 as [[[download_url asset_name] local_file]|e].
  2:{ unfold bind. rewrite progress_run by exact _. unfold ret.
      do 2 eexists. split; [reflexivity |]. simpl.
      left. split; [exact Hdisk0 |]. split; [reflexivity | left; exact Hlog0]. }
  destruct (locate_asset_chosen _ _ _ _ _ _ _ _ _ Hloc)
    as (metadata & release & assets & asset & name
        & Hmeta & Hrel & Hassets & Hasset & Hurl & Hname & -> & ->).
  simpl fst; simpl snd.
  destruct (transfer_world repo cb download_url (JStr name)
              (path_join P save_path name) w0)
    as (r & w2 & Hrun & Hlog & Hcase).
  rewrite Hrun.
  assert (Hlog2 : net_log w2
            = (net_log w ++ [latest_request owner repo;
                             asset_request P download_url])%list).
  { rewrite Hlog, Hlog0, <- app_assoc. reflexivity. }
  assert (Hnth : List.length (net_log w0) = S (List.length (net_log w))).
  { rewrite Hlog0, length_app. simpl. lia. }
  assert (Hchanged : forall res w',
            (exists response,
               http_get P (List.length (net_log w0)) (asset_request P download_url)
               = Ok response
               /\ disk w2
                  = <[path_join P save_path name := concat (body_chunks response)]>
                      (disk w0)) ->
            disk w' = disk w2 -> net_log w' = net_log w2 ->
            res = Some (path_join P save_path name) \/ res = None ->
            exists metadata release assets asset download_url' name' response,
              http_get P (List.length (net_log w)) (latest_request owner repo)
              = Ok metadata
              /\ json_body metadata = Ok release
              /\ getitem release (KStr "assets") = Ok assets
              /\ getitem assets (KInt 0) = Ok asset
              /\ getitem asset (KStr "browser_download_url") = Ok download_url'
              /\ getitem asset (KStr "name") = Ok (JStr name')
              /\ http_get P (S (List.length (net_log w)))
                   (asset_request P download_url') = Ok response
              /\ disk w'
                 = <[path_join P save_path name' := concat (body_chunks response)]>
                     (disk w)
              /\ (res = Some (path_join P save_path name') \/ res = None)
              /\ net_log w'
                 = (net_log w ++ [latest_request owner repo;
                                  asset_request P download_url'])%list).
  { intros res w' (response & Hget & Hdisk) Hd Hl Hres.
    exists metadata, release, assets, asset, download_url, name, response.
    rewrite Hnth in Hget. rewrite Hd, Hl, Hdisk, Hdisk0.
    repeat (split; [assumption |]). split; [reflexivity |].
    split; [exact Hres | exact Hlog2]. }
  destruct Hcase as [[Hdisk [e ->]] | [Hwritten [-> | [e ->]]]].
  - unfold bind. rewrite progress_run by exact _. unfold ret.
    do 2 eexists. split; [reflexivity |]. simpl.
    left. split; [congruence |]. split; [reflexivity | right; eauto].
  - unfold ret. do 2 eexists. split; [reflexivity |].
    right. apply Hchanged; auto.
  - unfold bind. rewrite progress_run by exact _. unfold ret.
    do 2 eexists. split; [reflexivity |].
    right. apply Hchanged; auto.
Qed.

End ReleaseFrame.

(** a release with two assets: the file of the first one is written, the
    file that was there before is left as it was *)
Lemma release_changes_at_most_one_file_witness :
  exists res w',
    Release.download_latest_release
      (Script.platform_of
         [Ok (Script.answer 200 None (Ok two_assets) [] None);
          Ok (Script.answer 200 (Some "3") (Ok JNull) two_chunks None)])
      no_file_errors "octocat" "hello" "dest" (Some Callback)
      (Script.empty_world (<["dest/notes.txt" := [Byte.x68; Byte.x69]]> ∅))
    = (Ok res, w')
    /\ disk w'
       = <["dest/setup.exe" := [Byte.x4d; Byte.x5a; Byte.x90]]>
           (<["dest/notes.txt" := [Byte.x68; Byte.x69]]> ∅).
Proof.
  destruct (release_changes_at_most_one_file
              (Script.platform_of
                 [Ok (Script.answer 200 None (Ok two_assets) [] None);
                  Ok (Script.answer 200 (Some "3") (Ok JNull) two_chunks None)])
              no_file_errors "octocat" "hello" "dest" (Some Callback)
              (Script.empty_world (<["dest/notes.txt" := [Byte.x68; Byte.x69]]> ∅)))
    as (res & w' & Hrun & Hcase).
  exists res, w'. split; [exact Hrun |].
  destruct Hcase as [(_ & Hnone & _)
                    | (metadata & release & assets & asset & url & name & response
                       & Hmeta & Hrel & Hassets & Hasset & Hurl & Hname & Hget
                       & Hdisk & _)].
  - exfalso. pose proof Hrun as Hval. vm_compute in Hval.
    injection Hval as <- _. discriminate Hnone.
  - simpl in Hmeta. injection Hmeta as <-.
    simpl in Hrel. injection Hrel as <-.
    vm_compute in Hassets. injection Hassets as <-.
    vm_compute in Hasset. injection Hasset as <-.
    vm_compute in Hurl. injection Hurl as <-.
    vm_compute in Hname. injection Hname as <-.
    simpl in Hget. injection Hget as <-.
    rewrite Hdisk. reflexivity.
Defined.

(** ** Addresses without "github.com/" *)

(** the test [sep in s] of Python finds every occurrence *)
Lemma contains_occurs sep s : occurs sep s -> PyStr.contains sep s = true.
Proof.
  intros (b & t & ->). induction b as [|a b IH].
  - assert (Hs : PyStr.startswith sep (sep ++ t) = true)
      by (apply startswith_spec; exists t; reflexivity).
    change ("" ++ sep ++ t) with (sep ++ t).
    destruct (sep ++ t); simpl; rewrite Hs; reflexivity.
  - change (String a b ++ sep ++ t) with (String a (b ++ sep ++ t)).
    simpl. rewrite IH. destruct (PyStr.startswith sep _); reflexivity.
Qed.

Lemma no_separator_no_address s :
  PyStr.contains "github.com/" s = false -> find_address s = None.
Proof.
  intros Hc. destruct (find_address s) as [[owner repo]|] eqn:Hf; [| reflexivity].
  apply find_address_sound in Hf as (before & rest & Hs & _).
  assert (Ho : occurs "github.com/" s) by (eexists _, _; exact Hs).
  apply contains_occurs in Ho. congruence.
Qed.

(** X16: an address that does not hold "github.com/" at all (the shorthand
    "owner/repo", say) is not refused.  No metadata request is sent; the
    only request of [download_github_repo] is the streamed GET of
    "https://github.com/<address>/archive/refs/heads/main.zip", the whole
    address standing where the owner and the repository are expected; and
    a record that is not an error carries the placeholder name
    "downloaded_repo".
    The callback, if one was given, returns from every call ([Observer]). *)
Theorem address_without_host_is_taken_whole
    (P : platform) (A : Branch.archive_io) (repo_url save_path : string)
    (cb : option callback) `{!Observer cb} (w : world Branch.tree_view) :
  PyStr.contains "github.com/" repo_url = false ->
  exists res w',
    Branch.download_github_repo P A repo_url save_path cb w = (Ok res, w')
    /\ net_log w'
       = (net_log w
          ++ [{| req_url := "https://github.com/" ++ repo_url
                            ++ "/archive/refs/heads/main.zip";
                 req_timeout := None;
                 req_stream := true |}])%list
    /\ (res !! "status" <> Some "error" ->
        res !! "repo_name" = Some "downloaded_repo").
Proof.
  intros Hc.
  pose proof (no_separator_no_address _ Hc) as Hf.
  assert (Hno : ~ occurs "github.com/" repo_url).
  { intros Ho. apply contains_occurs in Ho. congruence. }
  assert (Hb : get_default_branch P repo_url w = (Ok (JStr "main"), w)).
  { unfold get_default_branch, try_except, get_default_branch_body.
    rewrite search_owner_repo, Hf. reflexivity. }
  assert (Hname : get_repo_name repo_url = "downloaded_repo").
  { unfold get_repo_name. rewrite search_repo, Hf. reflexivity. }
  destruct (download_phase_world P repo_url cb w)
    as (branch & w0 & r1 & w1 & Hb' & Hdl & Hlog1 & _).
  rewrite Hb in Hb'. injection Hb' as <- <-.
  destruct (download_github_repo_run P A repo_url save_path cb w)
    as (r1' & w1' & res & w' & Hdl' & Hrun & Hlog & Hcase).
  rewrite Hdl in Hdl'. injection Hdl' as <- <-.
  exists res, w'. split; [exact Hrun |]. split.
  - rewrite Hlog, Hlog1. unfold archive_request, Branch.zip_url_of.
    rewrite (split_without_separator _ Hno). reflexivity.
  - intros Hne. destruct r1 as [fetched|e].
    + destruct Hcase as (_ & msg & _ & [[e He] | (items & _ & Hres)]).
      * exfalso. apply Hne. rewrite He. apply error_record_status.
      * simpl in Hres. rewrite Hres, found_record_repo_name,
          (download_phase_name _ _ _ _ _ _ Hdl), Hname. reflexivity.
    + destruct Hcase as (He & _).
      exfalso. apply Hne. rewrite He. apply error_record_status.
Qed.

Lemma address_without_host_is_taken_whole_witness :
  exists res w',
    Branch.download_github_repo (Script.platform_of [Ok (Script.answer 200 None (Ok JNull) two_chunks None)])
      (unpack with_installer) "octocat/hello" "dest" None empty_dest
    = (Ok res, w')
    /\ net_log w'
       = [{| req_url := "https://github.com/octocat/hello/archive/refs/heads/main.zip";
             req_timeout := None;
             req_stream := true |}]
    /\ res !! "repo_name" = Some "downloaded_repo".
Proof.
  destruct (address_without_host_is_taken_whole
              (Script.platform_of [Ok (Script.answer 200 None (Ok JNull) two_chunks None)])
              (unpack with_installer) "octocat/hello" "dest" None empty_dest)
    as (res & w' & Hrun & Hlog & Hname).
  - reflexivity.
  - exists res, w'. split; [exact Hrun |]. split; [exact Hlog |].
    apply Hname.
    pose proof Hrun as Hval. vm_compute in Hval.
    injection Hval as <- _. discriminate.
Defined.

(** ** Clone addresses *)

Section CloneAddress.
#[local] Arguments String.append : simpl nomatch.

Lemma find_address_here s found :
  address_here s = Some found -> find_address s = Some found.
Proof. intros H. destruct s; cbn [find_address]; rewrite H; reflexivity. Qed.

Lemma find_address_skip a s :
  address_here (String a s) = None -> find_address (String a s) = find_address s.
Proof. intros H. cbn [find_address]. rewrite H. reflexivity. Qed.

Lemma find_address_https owner repo :
  owner <> "" -> no_slash owner -> repo <> "" -> no_slash repo ->
  find_address ("https://github.com/" ++ owner ++ "/" ++ repo) = Some (owner, repo).
Proof.
  intros Ho Hso Hr Hsr.
  assert (Hhere : address_here ("github.com/" ++ owner ++ "/" ++ repo)
                  = Some (owner, repo)).
  { unfold address_here.
    assert (Hp : strip_prefix "github.com/" ("github.com/" ++ owner ++ "/" ++ repo)
                 = Some (owner ++ String "/" repo))
      by (apply strip_prefix_spec; reflexivity).
    rewrite Hp. unfold owner_and_repo. rewrite segment_of_app by exact Hso.
    rewrite segment_all by exact Hsr.
    destruct owner; [congruence |]. destruct repo; [congruence | reflexivity]. }
  rewrite !string_app_cons, !string_app_nil_l.
  do 8 (rewrite find_address_skip by reflexivity).
  apply find_address_here. exact Hhere.
Qed.

(** what follows the last "github.com/" is what holds no other *)
Lemma last_occurrence_before_clean_tail before tail :
  PyStr.contains "github.com/" tail = false ->
  last_occurrence "github.com/" (before ++ "github.com/" ++ tail) before tail.
Proof.
  intros Hc.
  assert (Hno : ~ occurs "github.com/" tail).
  { intros Ho. apply contains_occurs in Ho. congruence. }
  split; [reflexivity |]. intros before' tail' H.
  destruct (string_app_eq_inv _ _ _ _ H) as [[u [Hu Hx]] | [u [Hu Hx]]].
  - (* before' = before ++ u *)
    destruct u as [|a u].
    { rewrite Hu, string_length_app. simpl. lia. }
    exfalso.
    destruct (string_app_eq_inv _ _ _ _ Hx) as [[v [Hv Hy]] | [v [Hv Hy]]].
    + (* the occurrence starts after "github.com/" *)
      apply Hno. exists v, tail'. exact Hy.
    + (* the occurrence starts inside it *)
      destruct v as [|a' v].
      * apply Hno. exists "", tail'. simpl in Hy. simpl. congruence.
      * eapply (separator_has_no_border (String a u) (String a' v));
          [exact Hv | discriminate | discriminate | symmetry; exact Hy].
  - rewrite Hu, string_length_app. lia.
Qed.

End CloneAddress.

(** X17: for the clone address "https://github.com/<owner>/<name>.git" the
    derived name is <name>, but both requests keep the ".git" of the
    address: the metadata request goes to
    "https://api.github.com/repos/<owner>/<name>.git" and the archive
    request to
    "https://github.com/<owner>/<name>.git/archive/refs/heads/<branch>.zip",
    and these are the only two requests.
    The callback, if one was given, returns from every call ([Observer]). *)
Theorem clone_address_keeps_suffix_in_requests
    (P : platform) (A : Branch.archive_io) (owner name save_path : string)
    (cb : option callback) `{!Observer cb} (w : world Branch.tree_view) :
  owner <> "" -> no_slash owner -> no_slash name ->
  PyStr.contains ".git" name = false ->
  PyStr.contains "github.com/" (owner ++ "/" ++ name ++ ".git") = false ->
  let repo_url := "https://github.com/" ++ owner ++ "/" ++ name ++ ".git" in
  get_repo_name repo_url = name
  /\ exists branch w0,
       get_default_branch P repo_url w = (Ok branch, w0)
       /\ net_log (snd (Branch.download_github_repo P A repo_url save_path cb w))
          = (net_log w
             ++ [{| req_url := "https://api.github.com/repos/" ++ owner ++ "/"
                               ++ name ++ ".git";
                    req_timeout := Some 10%Z;
                    req_stream := false |};
                 {| req_url := "https://github.com/" ++ owner ++ "/" ++ name
                               ++ ".git/archive/refs/heads/" ++ py_str P branch
                               ++ ".zip";
                    req_timeout := None;
                    req_stream := true |}])%list.
Proof.
  intros Ho Hso Hsn Hgit Hsep repo_url.
  assert (Hno : ~ occurs ".git" name).
  { intros H. apply contains_occurs in H. congruence. }
  split; [apply get_repo_name_clone; assumption |].
  assert (Hf : find_address repo_url = Some (owner, name ++ ".git")).
  { apply find_address_https; try assumption.
    - destruct name; discriminate.
    - apply no_slash_app; [exact Hsn |]. simpl. repeat split; discriminate. }
  assert (Hs : PyRe.search PyRe.owner_repo_pattern repo_url
               = Some [owner; name ++ ".git"])
    by (rewrite search_owner_repo, Hf; reflexivity).
  destruct (get_default_branch_request P repo_url _ w Hs) as [branch Hb].
  destruct (download_github_repo_requests P A repo_url save_path cb w)
    as (branch' & w0 & Hb' & Hlog).
  rewrite Hb in Hb'. injection Hb' as <- <-.
  eexists _, _. split; [exact Hb |].
  rewrite Hlog. simpl net_log. rewrite <- app_assoc. f_equal. simpl app.
  unfold metadata_request, archive_request, Branch.zip_url_of. simpl List.nth.
  assert (Hlast : PyStr.last_piece (PyStr.split "github.com/" repo_url)
                  = owner ++ "/" ++ name ++ ".git").
  { apply (split_at_last_occurrence _ "https://").
    apply (last_occurrence_before_clean_tail "https://"), Hsep. }
  rewrite Hlast. rewrite !string_app_assoc. reflexivity.
Qed.

Lemma clone_address_keeps_suffix_in_requests_witness :
  get_repo_name "https://github.com/octocat/hello.git" = "hello"
  /\ net_log
       (snd (Branch.download_github_repo (Script.platform_of archive_answers)
               keep_disk "https://github.com/octocat/hello.git" "dest" None
               empty_dest))
     = [{| req_url := "https://api.github.com/repos/octocat/hello.git";
           req_timeout := Some 10%Z; req_stream := false |};
        {| req_url := "https://github.com/octocat/hello.git/archive/refs/heads/main.zip";
           req_timeout := None; req_stream := true |}].
Proof.
  destruct (clone_address_keeps_suffix_in_requests
              (Script.platform_of archive_answers) keep_disk
              "octocat" "hello" "dest" None empty_dest)
    as (Hname & branch & w0 & Hb & Hlog).
  - discriminate.
  - simpl. repeat split; discriminate.
  - simpl. repeat split; discriminate.
  - reflexivity.
  - reflexivity.
  - split; [exact Hname |].
    vm_compute in Hb. injection Hb as <- <-.
    exact Hlog.
Defined.

(** ** Progress at the start of a transfer *)

Lemma tenth_not_reached (n total : Z) :
  (10 * n < total)%Z -> (0 < total)%Z ->
  (Qmin 1.0 (inject_Z n / inject_Z total) < 0.1)%Q.
Proof.
  intros Hn Ht. eapply Qle_lt_trans; [apply Q.le_min_r |].
  destruct total as [|p|p]; try lia.
  unfold Qlt, Qdiv, Qmult, Qinv, inject_Z; simpl.
  rewrite ?Pos2Z.inj_mul. lia.
Qed.

Lemma twentieth_not_reached (n total : Z) :
  (16 * n < total)%Z -> (0 < total)%Z ->
  (Qmin 0.8 (inject_Z n / inject_Z total * 0.8) < 0.05)%Q.
Proof.
  intros Hn Ht. eapply Qle_lt_trans; [apply Q.le_min_r |].
  destruct total as [|p|p]; try lia.
  unfold Qlt, Qdiv, Qmult, Qinv, inject_Z; simpl.
  rewrite ?Pos2Z.inj_mul. lia.
Qed.

Section StartOfTransfer.
Context (P : platform) (A : Branch.archive_io).

(** the reports of the download phase when the response has arrived *)
Lemma download_phase_reports repo_url cb `{!Observer cb} (w w0 : world Branch.tree_view)
    branch response total :
  get_default_branch P repo_url w = (Ok branch, w0) ->
  http_get P (List.length (net_log w0))
    (archive_request (Branch.zip_url_of repo_url (py_str P branch))) = Ok response ->
  status_error response = None ->
  match content_length response with Some s => py_int P s | None => Ok 0%Z end
  = Ok total ->
  exists r1 w1,
    Branch.download_phase P repo_url cb w = (r1, w1)
    /\ reports w1
       = (reports w
          ++ delivered cb
               {| fraction := 0.05;
                  message := "Connecting to " ++ get_repo_name repo_url ++ " ("
                             ++ py_str P branch ++ ")..." |}
          ++ loop_reports cb
               (fun n => Qmin 0.8 (inject_Z n / inject_Z total * 0.8))
               ("Downloading " ++ get_repo_name repo_url ++ "...") total
               (running_totals 0 (body_chunks response)))%list.
Proof.
  intros Hb Hget Hstatus Hlen.
  pose proof (silent_get_default_branch P repo_url w) as Hsilent.
  rewrite Hb in Hsilent. simpl in Hsilent.
  unfold Branch.download_phase. unfold bind at 1. rewrite Hb.
  unfold bind at 1. rewrite progress_run by exact _.
  unfold bind at 1, requests_get at 1. simpl net_log.
  fold (archive_request (Branch.zip_url_of repo_url (py_str P branch))).
  rewrite Hget.
  unfold bind at 1, raise_for_status. rewrite Hstatus. unfold ret at 1.
  unfold bind at 1, declared_length.
  assert (Hdecl : forall v : world Branch.tree_view,
            match content_length response with
            | Some s => lift (py_int P s)
            | None => ret 0%Z
            end v = (Ok total, v)).
  { intros v. destruct (content_length response); unfold lift, ret;
      rewrite Hlen; reflexivity. }
  rewrite Hdecl.
  unfold bind at 1. rewrite read_chunks_run by exact _.
  unfold bind, Release.stream_end.
  destruct (body_error response); unfold raise, ret;
    (do 2 eexists; split; [reflexivity |]; simpl;
     rewrite Hsilent, <- app_assoc; reflexivity).
Qed.

(** X18: the progress of [download_github_repo] can go back.  When the
    declared length of the archive is more than sixteen times the size of
    the first chunk that arrives, the callback receives 0.05
    ("Connecting ...") and, right after it, a smaller fraction
    ("Downloading ...").
    The callback, if one was given, returns from every call ([Observer]). *)
Theorem archive_progress_steps_back
    (repo_url save_path : string) (c : callback) `{!Observer (Some c)}
    (w w0 : world Branch.tree_view) (branch : json) (response : response)
    (total : Z) (b : Byte.byte) (chunk : bytes) (rest : list bytes) :
  get_default_branch P repo_url w = (Ok branch, w0) ->
  http_get P (List.length (net_log w0))
    (archive_request (Branch.zip_url_of repo_url (py_str P branch))) = Ok response ->
  status_error response = None ->
  match content_length response with Some s => py_int P s | None => Ok 0%Z end
  = Ok total ->
  body_chunks response = (b :: chunk) :: rest ->
  (16 * Z.of_nat (List.length (b :: chunk)) < total)%Z ->
  exists res w' second later,
    Branch.download_github_repo P A repo_url save_path (Some c) w = (Ok res, w')
    /\ reports w'
       = (reports w
          ++ {| fraction := 0.05;
                message := "Connecting to " ++ get_repo_name repo_url ++ " ("
                           ++ py_str P branch ++ ")..." |}
          :: second :: later)%list
    /\ message second = "Downloading " ++ get_repo_name repo_url ++ "..."
    /\ (fraction second < 0.05)%Q.
Proof.
  intros Hb Hget Hstatus Hlen Hchunks Hsmall.
  assert (Ht : (0 < total)%Z) by (simpl List.length in Hsmall; lia).
  destruct (download_phase_reports repo_url (Some c) w w0 branch response total
              Hb Hget Hstatus Hlen) as (r1 & w1 & Hdl & Hrep1).
  destruct (download_github_repo_run P A repo_url save_path (Some c) w)
    as (r1' & w1' & res & w' & Hdl' & Hrun & _ & Hcase).
  rewrite Hdl in Hdl'. injection Hdl' as <- <-.
  rewrite Hchunks in Hrep1. unfold loop_reports in Hrep1.
  apply Z.ltb_lt in Ht. rewrite Ht in Hrep1. apply Z.ltb_lt in Ht.
  cbn [running_totals flat_map delivered app] in Hrep1.
  assert (Hrep : exists tail, reports w' = (reports w1 ++ tail)%list).
  { destruct r1 as [fetched|e].
    - destruct Hcase as (_ & msg & -> & _). eauto.
    - destruct Hcase as (_ & _ & ->). eauto. }
  destruct Hrep as [tail Hrep].
  eexists res, w', _, _. split; [exact Hrun |]. split.
  - rewrite Hrep, Hrep1, <- app_assoc. cbn [app]. reflexivity.
  - split; [reflexivity |]. cbn [fraction].
    apply twentieth_not_reached; [exact Hsmall | exact Ht].
Qed.

End StartOfTransfer.

Lemma archive_progress_steps_back_witness :
  exists res w' first second later,
    Branch.download_github_repo
      (Script.platform_of [Ok (Script.answer 200 (Some "100") (Ok JNull) two_chunks None)])
      keep_disk "octocat/hello" "dest" (Some Callback) empty_dest
    = (Ok res, w')
    /\ reports w' = first :: second :: later
    /\ fraction first = 0.05%Q
    /\ (fraction second < 0.05)%Q.
Proof.
  destruct (archive_progress_steps_back
              (Script.platform_of
                 [Ok (Script.answer 200 (Some "100") (Ok JNull) two_chunks None)])
              keep_disk "octocat/hello" "dest" Callback empty_dest empty_dest
              (JStr "main")
              (Script.answer 200 (Some "100") (Ok JNull) two_chunks None) 100%Z
              Byte.x4d [Byte.x5a] [[Byte.x90]])
    as (res & w' & second & later & Hrun & Hrep & _ & Hlt).
  - reflexivity.
  - reflexivity.
  - reflexivity.
  - reflexivity.
  - reflexivity.
  - simpl. lia.
  - eexists res, w', _, second, later. split; [exact Hrun |].
    split; [exact Hrep |]. split; [reflexivity | exact Hlt].
Defined.

Section StartOfRelease.
Context (P : platform) (F : Release.file_io).

(** the reports of lines 34 to 51 when an asset is chosen *)
Lemma locate_asset_reports owner repo save_path cb (w w1 : world (gmap string bytes))
    download_url asset_name local_file :
  Release.locate_asset P owner repo save_path cb w
  = (Ok (download_url, asset_name, local_file), w1) ->
  reports w1
  = (reports w
     ++ delivered cb {| fraction := 0.05;
                        message := "Checking latest " ++ repo ++ " release..." |}
     ++ delivered cb {| fraction := 0.1;
                        message := "Downloading " ++ py_str P asset_name ++ "..." |})%list.
Proof.
  unfold Release.locate_asset. intros H.
  apply bind_ok in H as (? & wa & Hp & H).
  apply progress_ok in Hp as ->.
  apply bind_ok in H as (response & wb & Hq & H).
  unfold requests_get in Hq. destruct (http_get P _ _); [| discriminate Hq].
  injection Hq as _ <-.
  apply bind_ok in H as (? & wc & Hq & H).
  unfold raise_for_status, raise, ret in Hq.
  destruct (status_error response); [discriminate Hq |]. injection Hq as _ <-.
  apply bind_ok in H as (release & wd & Hq & H).
  unfold lift in Hq. injection Hq as _ <-.
  apply bind_ok in H as (assets & we & Hq & H).
  unfold lift in Hq. injection Hq as _ <-.
  destruct (negb (truthy assets)); [discriminate H |].
  do 5 (apply bind_ok in H as (? & ? & Hq & H); unfold lift in Hq;
        injection Hq as _ <-).
  apply bind_ok in H as (? & wf & Hp & H).
  apply progress_ok in Hp as ->.
  unfold ret in H. injection H as _ <- _ <-. simpl.
  rewrite <- app_assoc. reflexivity.
Qed.

(** X19: the progress of [download_latest_release] can go back.  When the
    declared length of the asset is more than ten times the size of the
    first chunk that arrives, the callback receives 0.1 and, right after
    it, a smaller fraction, both with the message "Downloading <name>...".
    The callback, if one was given, returns from every call ([Observer]). *)
Theorem release_progress_steps_back
    (owner repo save_path : string) (c : callback) `{!Observer (Some c)}
    (w w1 : world (gmap string bytes)) (download_url asset_name : json)
    (local_file : string) (r : response) (total : Z)
    (b : Byte.byte) (chunk : bytes) (rest : list bytes) :
  Release.locate_asset P owner repo save_path (Some c) w
  = (Ok (download_url, asset_name, local_file), w1) ->
  http_get P (List.length (net_log w1)) (asset_request P download_url) = Ok r ->
  status_error r = None ->
  match content_length r with Some s => py_int P s | None => Ok 0%Z end = Ok total ->
  Release.open_error F local_file (disk w1) = None ->
  body_chunks r = (b :: chunk) :: rest ->
  (10 * Z.of_nat (List.length (b :: chunk)) < total)%Z ->
  exists res w' second later,
    Release.download_latest_release P F owner repo save_path (Some c) w = (Ok res, w')
    /\ reports w'
       = (reports w
          ++ {| fraction := 0.05;
                message := "Checking latest " ++ repo ++ " release..." |}
          :: {| fraction := 0.1;
                message := "Downloading " ++ py_str P asset_name ++ "..." |}
          :: second :: later)%list
    /\ message second = "Downloading " ++ py_str P asset_name ++ "..."
    /\ (fraction second < 0.1)%Q.
Proof.
  intros Hloc Hget Hstatus Hlen Hopen Hchunks Hsmall.
  assert (Ht : (0 < total)%Z) by (simpl List.length in Hsmall; lia).
  pose proof (locate_asset_reports _ _ _ _ _ _ _ _ _ Hloc) as Hrep1.
  cbn [delivered app] in Hrep1.
  unfold Release.download_latest_release, try_except,
    Release.download_latest_release_body.
  unfold bind at 1. unfold bind at 1. rewrite Hloc. simpl fst; simpl snd.
  unfold Release.transfer.
  unfold bind at 1, requests_get. fold (asset_request P download_url). rewrite Hget.
  unfold bind at 1, raise_for_status. rewrite Hstatus. unfold ret at 1.
  unfold bind at 1, declared_length.
  assert (Hdecl : forall w0 : world (gmap string bytes),
            match content_length r with
            | Some s => lift (py_int P s)
            | None => ret 0%Z
            end w0 = (Ok total, w0)).
  { intros w0. destruct (content_length r); unfold lift, ret; rewrite Hlen; reflexivity. }
  rewrite Hdecl.
  unfold bind at 1, Release.open_wb. simpl disk. rewrite Hopen.
  unfold bind at 1.
  erewrite write_chunks_run by first [exact _ | simpl; apply lookup_insert_eq].
  rewrite Hchunks. unfold loop_reports.
  apply Z.ltb_lt in Ht. rewrite Ht. apply Z.ltb_lt in Ht.
  cbn [running_totals flat_map delivered app].
  unfold bind at 1, Release.stream_end.
  destruct (body_error r) as [e|].
  - unfold raise, bind. rewrite progress_run by exact _. unfold ret.
    eexists _, _, _, _. split; [reflexivity |]. simpl reports.
    rewrite Hrep1, <- !app_assoc. cbn [app].
    split; [reflexivity |]. split; [reflexivity |]. cbn [fraction].
    apply tenth_not_reached; [exact Hsmall | exact Ht].
  - unfold ret at 1. unfold bind at 1. rewrite progress_run by exact _.
    unfold bind, ret.
    eexists _, _, _, _. split; [reflexivity |]. simpl reports.
    rewrite Hrep1, <- !app_assoc. cbn [app].
    split; [reflexivity |]. split; [reflexivity |]. cbn [fraction].
    apply tenth_not_reached; [exact Hsmall | exact Ht].
Qed.

End StartOfRelease.

Lemma release_progress_steps_back_witness :
  exists res w' first second third later,
    Release.download_latest_release
      (Script.platform_of
         [Ok (Script.answer 200 None (Ok sample_release) [] None);
          Ok (Script.answer 200 (Some "100") (Ok JNull) two_chunks None)])
      no_file_errors "octocat" "hello" "dest" (Some Callback) (Script.empty_world ∅)
    = (Ok res, w')
    /\ reports w' = first :: second :: third :: later
    /\ fraction second = 0.1%Q
    /\ (fraction third < 0.1)%Q.
Proof.
  set (P := Script.platform_of
              [Ok (Script.answer 200 None (Ok sample_release) [] None);
               Ok (Script.answer 200 (Some "100") (Ok JNull) two_chunks None)]).
  destruct (release_progress_steps_back P no_file_errors "octocat" "hello" "dest"
              Callback (Script.empty_world ∅)
              (snd (Release.locate_asset P "octocat" "hello" "dest" (Some Callback)
                      (Script.empty_world ∅)))
              (JStr "https://example.org/setup.exe") (JStr "setup.exe")
              "dest/setup.exe"
              (Script.answer 200 (Some "100") (Ok JNull) two_chunks None) 100%Z
              Byte.x4d [Byte.x5a] [[Byte.x90]])
    as (res & w' & third & later & Hrun & Hrep & _ & Hlt).
  - reflexivity.
  - reflexivity.
  - reflexivity.
  - reflexivity.
  - reflexivity.
  - reflexivity.
  - simpl. lia.
  - eexists res, w', _, _, third, later. split; [exact Hrun |].
    split; [exact Hrep |]. split; [reflexivity | exact Hlt].
Defined.
